(** * stagit: a shallow embedding of [stagit.c] and its page writers

    The development follows the C source function by function.  C strings
    and byte buffers are lists of [ascii] (one [ascii] per [char]); a
    [FILE *] opened for writing is the record [FILE]; the process-wide
    variables of the program ([relpath], [name], [description], ...) together
    with the output directory form the record [state], threaded through the
    writers by a small state-and-exit monad ([err(1, ...)] terminates the
    process).  libgit2, the C library and the host file system are
    collaborators: their answers are the fields of [git_repository] and
    [libc], and the output directory is a finite map from paths to nodes. *)

From Stdlib Require Import ZArith Ascii String List DecimalString Sorted Permutation.
From stdpp Require Import gmap strings list fin_maps sorting.

Local Open Scope char_scope.
Local Open Scope list_scope.

(** ** C strings and characters *)

(** A string literal of the C source, as the list of its characters. *)
Definition lit (s : string) : list ascii := list_ascii_of_string s.

Definition NUL : ascii := "000".
Definition NL : list ascii := ["010"].   (* newline *)
Definition DQ : list ascii := ["034"].   (* double quote *)

Definition is_nul (c : ascii) : bool := Ascii.eqb c NUL.

(** [unsigned char] value of a character. *)
Definition uchar (c : ascii) : Z := Z.of_nat (nat_of_ascii c).

(** [strlen(s)]: the number of characters before the first NUL; the end of
    the list stands for the terminator of the object [s] points into. *)
Fixpoint strlen (s : list ascii) : nat :=
  match s with
  | [] => 0
  | c :: s' => if is_nul c then 0 else S (strlen s')
  end.

(** The characters a [%s] conversion or [fputs] reads from [s]. *)
Definition c_str (s : list ascii) : list ascii := take (strlen s) s.

(** [strcmp(s1, s2)]: the difference of the first two differing characters,
    as [unsigned char]; only its sign is fixed by the C standard. *)
Fixpoint strcmp (s1 s2 : list ascii) : Z :=
  match s1, s2 with
  | [], [] => 0
  | [], b :: _ => uchar NUL - uchar b
  | a :: _, [] => uchar a - uchar NUL
  | a :: t1, b :: t2 =>
      if Ascii.eqb a b
      then (if is_nul a then 0 else strcmp t1 t2)
      else uchar a - uchar b
  end.

(** [PATH_MAX] of <limits.h>. *)
Definition PATH_MAX : nat := 4096.

(** [snprintf(buf, size, ...)] and [strlcpy]: the formatted text, cut so that
    it fits [size] bytes with its terminator. *)
Definition snprintf (size : nat) (text : list ascii) : list ascii :=
  take (size - 1) text.

(** [strlcat(dst, src, size)]. *)
Definition strlcat (dst src : list ascii) (size : nat) : list ascii :=
  take (size - 1) (dst ++ c_str src).

(** [%zu], [%ju]: an unsigned decimal. *)
Definition fmt_u (n : nat) : list ascii :=
  lit (NilZero.string_of_uint (Nat.to_uint n)).

(** [%d]: a signed decimal. *)
Definition fmt_d (z : Z) : list ascii :=
  lit (NilZero.string_of_int (Z.to_int z)).

(** Conversion of a [size_t] to [int] (32 bits, two's complement). *)
Definition int_of_size_t (n : nat) : Z :=
  let r := (Z.of_nat n mod 2 ^ 32)%Z in
  if (r <? 2 ^ 31)%Z then r else (r - 2 ^ 32)%Z.

(** ** Output streams *)

(** A stream opened for writing: the path it was opened on, the bytes
    written so far and the error indicator read by [ferror]. *)
Record FILE := mkFILE {
  f_path : list ascii;
  f_buf : list ascii;
  f_err : bool
}.

Definition fputc (c : ascii) (fp : FILE) : FILE :=
  mkFILE (f_path fp) (f_buf fp ++ [c]) (f_err fp).

Definition fputs (s : list ascii) (fp : FILE) : FILE :=
  mkFILE (f_path fp) (f_buf fp ++ c_str s) (f_err fp).

(** [fprintf(fp, fmt, ...)], given the text the format expands to. *)
Definition fprintf (text : list ascii) (fp : FILE) : FILE :=
  mkFILE (f_path fp) (f_buf fp ++ text) (f_err fp).

Definition ferror (fp : FILE) : bool := f_err fp.

(** ** xmlencode *)

(** The body of the loop of [xmlencode]: the [switch] on [*s]. *)
Definition xmlencode_char (c : ascii) (fp : FILE) : FILE :=
  match c with
  | "<" => fputs (lit "&lt;") fp
  | ">" => fputs (lit "&gt;") fp
  | "'" => fputs (lit "&apos;") fp
  | "&" => fputs (lit "&amp;") fp
  | "034" => fputs (lit "&quot;") fp
  | _ => fputc c fp
  end.

(** [xmlencode(fp, s, len)]: the loop [for (i = 0; *s && i < len; s++, i++)];
    the second argument of the recursion is [len - i]. *)
Fixpoint xmlencode (fp : FILE) (s : list ascii) (len : nat) : FILE :=
  match s, len with
  | c :: s', S len' =>
      if is_nul c then fp else xmlencode (xmlencode_char c fp) s' len'
  | _, _ => fp
  end.

(** *** The escaper as the specification words it *)

(** The prefix of [s] that ends at the first NUL or after [len] bytes,
    whichever comes first. *)
Definition c_prefix (s : list ascii) (len : nat) : list ascii :=
  take (Nat.min (strlen s) len) s.

(** The five reserved characters. *)
Definition reserved (c : ascii) : bool :=
  match c with
  | "<" | ">" | "&" | "'" | "034" => true
  | _ => false
  end.

(** The named entity of a reserved character; any other byte stands for itself. *)
Definition entity (c : ascii) : list ascii :=
  match c with
  | "<" => lit "&lt;"
  | ">" => lit "&gt;"
  | "&" => lit "&amp;"
  | "'" => lit "&apos;"
  | "034" => lit "&quot;"
  | _ => [c]
  end.

Definition escape (p : list ascii) : list ascii := flat_map entity p.

(** Unescaping: each of the five named entities is read back as its
    character, left to right; everything else is copied. *)
Fixpoint unescape (s : list ascii) : list ascii :=
  match s with
  | "&" :: "l" :: "t" :: ";" :: r => "<" :: unescape r
  | "&" :: "g" :: "t" :: ";" :: r => ">" :: unescape r
  | "&" :: "a" :: "m" :: "p" :: ";" :: r => "&" :: unescape r
  | "&" :: "a" :: "p" :: "o" :: "s" :: ";" :: r => "'" :: unescape r
  | "&" :: "q" :: "u" :: "o" :: "t" :: ";" :: r => "034" :: unescape r
  | c :: r => c :: unescape r
  | [] => []
  end.

(** ** The process state and the exit monad *)

(** A node of the output directory. *)
Inductive node :=
| File (content : list ascii)
| Dir.

(** The variables with static storage of [stagit.c] that the writers read
    or assign, and the directory the pages are written to. *)
Record state := mkState {
  relpath : list ascii;
  name : list ascii;
  stripped_name : list ascii;
  description : list ascii;
  cloneurl : list ascii;
  hasreadme : bool;
  haslicense : bool;
  fs : gmap (list ascii) node
}.

Definition set_relpath (rp : list ascii) (st : state) : state :=
  mkState rp (name st) (stripped_name st) (description st) (cloneurl st)
          (hasreadme st) (haslicense st) (fs st).

Definition set_fs (m : gmap (list ascii) node) (st : state) : state :=
  mkState (relpath st) (name st) (stripped_name st) (description st)
          (cloneurl st) (hasreadme st) (haslicense st) m.

(** A call either returns, with a value and the state it leaves, or ends
    the process ([err(1, ...)]). *)
Inductive outcome (A : Type) : Type :=
| Returned (a : A) (st : state)
| Exited (status : Z).
Arguments Returned {A} a st.
Arguments Exited {A} status.

Definition M (A : Type) : Type := state -> outcome A.

Definition ret {A} (a : A) : M A := fun st => Returned a st.

Definition bind {A B} (m : M A) (k : A -> M B) : M B :=
  fun st =>
    match m st with
    | Returned a st' => k a st'
    | Exited n => Exited n
    end.

Notation "'do' x <- c1 ; c2" := (bind c1 (fun x => c2))
  (at level 10, x name, c1 at level 100, c2 at level 200, only parsing).

Definition gets {A} (f : state -> A) : M A := fun st => Returned (f st) st.
Definition modify (f : state -> state) : M unit := fun st => Returned tt (f st).
Definition err {A} (status : Z) : M A := fun _ => Exited status.

(** ** The host file system *)

Fixpoint drop_slashes (s : list ascii) : list ascii :=
  match s with
  | "/" :: s' => drop_slashes s'
  | _ => s
  end.

Fixpoint drop_component (s : list ascii) : list ascii :=
  match s with
  | [] => []
  | "/" :: _ => s
  | _ :: s' => drop_component s'
  end.

(** [dirname(3)]: the path without its last component. *)
Definition dirname (path : list ascii) : list ascii :=
  match drop_slashes (rev (c_str path)) with
  | [] => if strlen path is 0 then lit "." else lit "/"
  | r =>
      match drop_component r with
      | [] => lit "."
      | r' =>
          match drop_slashes r' with
          | [] => lit "/"
          | r'' => rev r''
          end
      end
  end.

(** The directory a new entry [path] goes into exists. *)
Definition parent_exists (path : list ascii) (m : gmap (list ascii) node) : bool :=
  let d := dirname path in
  bool_decide (d = lit "." \/ d = lit "/")
  || match m !! d with Some Dir => true | _ => false end.

(** [access(path, F_OK)]: 0 when something exists at [path], -1 otherwise. *)
Definition access (path : list ascii) : M Z :=
  gets (fun st => if bool_decide (is_Some (fs st !! path)) then 0%Z else (-1)%Z).

(** [fopen(path, "w")]: creates or truncates the file; fails on a directory
    or when the parent directory is missing.  The directory is a map from
    path strings: a file has one spelling here, the one it was made under, so
    what is said of the entry at another path is said of another file only
    for paths without [.], [..] or doubled slashes; the limits of the host
    on the length of a name are not modelled. *)
Definition fopen_w (path : list ascii) (st : state) : option (FILE * state) :=
  match fs st !! path with
  | Some Dir => None
  | _ =>
      if parent_exists path (fs st)
      then Some (mkFILE path [] false, set_fs (<[path := File []]> (fs st)) st)
      else None
  end.

(** [fclose(fp)]: everything written is in the file. *)
Definition fclose (fp : FILE) : M unit :=
  modify (fun st => set_fs (<[f_path fp := File (f_buf fp)]> (fs st)) st).

(** [mkdir(path, mode) < 0 && errno != EEXIST], and the state [mkdir] leaves.
    The empty path names nothing: [mkdir] fails on it with [ENOENT]. *)
Definition mkdir_fails (path : list ascii) (st : state) : bool * state :=
  if strlen path is 0 then (true, st)
  else
    match fs st !! path with
    | Some _ => (false, st)
    | None =>
        if parent_exists path (fs st)
        then (false, set_fs (<[path := Dir]> (fs st)) st)
        else (true, st)
    end.

(** [efopen]: [fopen], or the end of the process. *)
Definition efopen (nm : list ascii) : M FILE :=
  fun st =>
    match fopen_w nm st with
    | Some (fp, st') => Returned fp st'
    | None => Exited 1
    end.

(** The loop of [mkdirp] over [tmp]: [pre] is the part of [tmp] before [p]. *)
Fixpoint mkdirp_loop (pre rest : list ascii) : M Z :=
  match rest with
  | [] =>
      fun st =>
        let '(failed, st') := mkdir_fails pre st in
        Returned (if failed then (-1)%Z else 0%Z) st'
  | c :: rest' =>
      if Ascii.eqb c "/"
      then fun st =>
             let '(failed, st') := mkdir_fails pre st in
             if failed then Returned (-1)%Z st'
             else mkdirp_loop (pre ++ [c]) rest' st'
      else mkdirp_loop (pre ++ [c]) rest'
  end.

Definition mkdirp (path : list ascii) : M Z :=
  let tmp := snprintf PATH_MAX (c_str path) in
  match tmp with
  | "/" :: rest => mkdirp_loop ["/"] rest
  | _ => mkdirp_loop [] tmp
  end.

(** [xdirname]: a fresh copy of [dirname(path)]. *)
Definition xdirname (path : list ascii) : list ascii := dirname path.

(** ** libgit2: the objects the program reads *)

(** An object id, by its hexadecimal digits. *)
Definition git_oid : Type := list ascii.

Definition GIT_OID_HEXSZ : nat := 40.

(** [git_oid_tostr(out, n, id)]: the digits that fit [n] bytes with the
    terminator; the empty string for a NULL id. *)
Definition git_oid_tostr (n : nat) (id : option git_oid) : list ascii :=
  match id with
  | None => []
  | Some h => take (Nat.min n (GIT_OID_HEXSZ + 1) - 1) (c_str h)
  end.

Record git_time := mkTime {
  time : Z;
  offset : Z
}.

Record git_signature := mkSignature {
  sig_name : list ascii;
  sig_email : list ascii;
  when : git_time
}.

Record git_diff_line := mkLine {
  old_lineno : Z;
  new_lineno : Z;
  content : list ascii;
  content_len : nat
}.

Record git_diff_hunk := mkHunk {
  header : list ascii;
  header_len : nat;
  hunk_lines : list git_diff_line
}.

Record git_diff_delta := mkDelta {
  flags : Z;
  old_file_path : list ascii;
  new_file_path : list ascii
}.

Definition GIT_DIFF_FLAG_BINARY : Z := 1.

Record git_patch := mkPatch {
  patch_delta : git_diff_delta;
  patch_hunks : list git_diff_hunk
}.

(** A diff: for each delta, the outcome of [git_patch_from_diff]. *)
Record git_diff := mkDiff {
  diff_patches : list (option git_patch)
}.

Record git_diff_stats := mkStats {
  insertions : nat;
  deletions : nat;
  files_changed : nat;
  stats_buf : option (list ascii)
}.

Definition git_tree : Type := git_oid.

Record git_commit := mkCommit {
  commit_id : git_oid;
  commit_parent_ids : list git_oid;
  commit_author : option git_signature;
  commit_summary : option (list ascii);
  commit_message : option (list ascii);
  commit_tree_id : git_oid
}.

Record git_diff_options := mkOpts {
  opt_flags : Z
}.

Definition GIT_DIFF_DISABLE_PATHSPEC_MATCH : Z := Z.shiftl 1 12.

Definition git_diff_init_options : git_diff_options := mkOpts 0.

Inductive git_ref_t :=
| GIT_REF_INVALID
| GIT_REF_OID
| GIT_REF_SYMBOLIC.

Record git_reference := mkRef {
  reference_is_branch : bool;
  reference_is_tag : bool;
  reference_shorthand : list ascii;
  reference_type : git_ref_t;
  reference_target : option git_oid
}.

Record git_object := mkObject {
  object_id : option git_oid
}.

Record git_blob := mkBlob {
  blob_rawcontent : list ascii;
  blob_is_binary : bool
}.

Definition git_blob_rawsize (b : git_blob) : nat := length (blob_rawcontent b).

(** What a revision walk was pushed with. *)
Inductive walk_start :=
| PushOid (id : git_oid)
| PushHead.

Definition GIT_SORT_NONE : Z := 0.
Definition GIT_SORT_TIME : Z := Z.shiftl 1 1.

Record git_revwalk := mkWalk {
  walk_pushed : list walk_start;
  walk_sorting : Z;
  walk_first_parent : bool
}.

Definition git_revwalk_new : git_revwalk := mkWalk [] GIT_SORT_NONE false.

Definition git_revwalk_push (id : git_oid) (w : git_revwalk) : git_revwalk :=
  mkWalk (walk_pushed w ++ [PushOid id]) (walk_sorting w) (walk_first_parent w).

Definition git_revwalk_push_head (w : git_revwalk) : git_revwalk :=
  mkWalk (walk_pushed w ++ [PushHead]) (walk_sorting w) (walk_first_parent w).

Definition git_revwalk_sorting (mode : Z) (w : git_revwalk) : git_revwalk :=
  mkWalk (walk_pushed w) mode (walk_first_parent w).

Definition git_revwalk_simplify_first_parent (w : git_revwalk) : git_revwalk :=
  mkWalk (walk_pushed w) (walk_sorting w) true.

(** The repository, by the answers of libgit2:
    - [git_commit_lookup], [git_tree_lookup]: the object, or failure;
    - [git_diff_tree_to_tree old new opts], [git_diff_get_stats];
    - [git_revwalk_ids w]: the ids successive calls of [git_revwalk_next]
      give for the walk [w], up to the first call that fails;
    - [git_reference_list]: the references [git_reference_next] gives, or
      [None] when [git_reference_iterator_new] fails;
    - [git_reference_resolve], [git_reference_peel]. *)
Record git_repository := mkRepo {
  git_commit_lookup : git_oid -> option git_commit;
  git_tree_lookup : git_oid -> option git_tree;
  git_diff_tree_to_tree :
    option git_tree -> option git_tree -> git_diff_options -> option git_diff;
  git_diff_get_stats : git_diff -> option git_diff_stats;
  git_revwalk_ids : git_revwalk -> list git_oid;
  git_reference_list : option (list git_reference);
  git_reference_resolve : git_reference -> option git_reference;
  git_reference_peel : git_reference -> option git_object
}.

(** The C library: [strftime] applied to [gmtime] of a time, and [qsort]. *)
Record libc := mkLibc {
  strftime_gmtime : list ascii -> Z -> list ascii;
  qsort : forall A : Type, (A -> A -> Z) -> list A -> list A
}.

(** [config.h]: the summary length of the log and the line-count switch. *)
Record config := mkConfig {
  summarylen : nat;
  showlinecount : bool
}.

(** ** The commit snapshot *)

Record commitinfo := mkCommitinfo {
  id : git_oid;
  oid : list ascii;
  parentoid : list ascii;
  author : option git_signature;
  summary : option (list ascii);
  msg : option (list ascii);
  stats : option git_diff_stats;
  diff : git_diff;
  commit : git_commit;
  parent : option git_commit;
  commit_tree : option git_tree;
  parent_tree : option git_tree;
  addcount : nat;
  delcount : nat;
  filecount : nat
}.

(** ** The program *)

Section Stagit.

(** [static git_repository *repo], the C library and [config.h]. *)
Variable repo : git_repository.
Variable lc : libc.
Variable cfg : config.

Definition git_commit_parent_id (c : git_commit) (n : nat) : option git_oid :=
  commit_parent_ids c !! n.

Definition git_commit_parent (c : git_commit) (n : nat) : option git_commit :=
  match commit_parent_ids c !! n with
  | Some pid => git_commit_lookup repo pid
  | None => None
  end.

Definition git_commit_tree (c : git_commit) : option git_tree :=
  git_tree_lookup repo (commit_tree_id c).

(** The end of [commitinfo_getbyoid], from [git_diff_init_options] on. *)
Definition commitinfo_diff (i : git_oid) (c : git_commit)
    (ctree : git_tree) (p : option git_commit) (ptree : option git_tree)
    : option commitinfo :=
  let opts := git_diff_init_options in
  let opts := mkOpts (Z.lor (opt_flags opts) GIT_DIFF_DISABLE_PATHSPEC_MATCH) in
  match git_diff_tree_to_tree repo ptree (Some ctree) opts with
  | None => None
  | Some d =>
      match git_diff_get_stats repo d with
      | None => None
      | Some s =>
          Some (mkCommitinfo i
                  (git_oid_tostr (GIT_OID_HEXSZ + 1) (Some (commit_id c)))
                  (git_oid_tostr (GIT_OID_HEXSZ + 1) (git_commit_parent_id c 0))
                  (commit_author c) (commit_summary c) (commit_message c)
                  (Some s) d c p (Some ctree) ptree
                  (insertions s) (deletions s) (files_changed s))
      end
  end.

(** [commitinfo_getbyoid(id)]; [None] is the NULL of the label [err].
    [calloc] is taken to succeed. *)
Definition commitinfo_getbyoid (i : git_oid) : option commitinfo :=
  match git_commit_lookup repo i with
  | None => None
  | Some c =>
      match git_commit_tree c with
      | None => None
      | Some ctree =>
          match git_commit_parent c 0 with
          | Some p =>
              match git_commit_tree p with
              | None => None
              | Some ptree => commitinfo_diff i c ctree (Some p) (Some ptree)
              end
          | None => commitinfo_diff i c ctree None None
          end
      end
  end.

(** [printtimeformat]: [out] holds what [strftime] gives for the format. *)
Definition printtimeformat (fp : FILE) (intime : git_time) (fmt : list ascii) : FILE :=
  let t := (time intime + offset intime * 60)%Z in
  fputs (strftime_gmtime lc fmt t) fp.

Definition printtimez (fp : FILE) (intime : git_time) : FILE :=
  printtimeformat fp intime (lit "%Y-%m-%dT%H:%M:%SZ").

Definition printtime (fp : FILE) (intime : git_time) : FILE :=
  printtimeformat fp intime (lit "%a %b %e %T %Y").

Definition printtimeshort (fp : FILE) (intime : git_time) : FILE :=
  printtimeformat fp intime (lit "%Y-%m-%d %H:%M").

(** [xmlencode(fp, s, strlen(s))]. *)
Definition xmlencode_str (fp : FILE) (s : list ascii) : FILE :=
  xmlencode fp s (strlen s).

Definition writeheader (fp : FILE) : M (FILE * Z) :=
  do st <- gets (fun st => st);
  let fp := fputs (lit "<!DOCTYPE html>" ++ NL ++
                   lit "<html dir=" ++ DQ ++ lit "ltr" ++ DQ ++ lit " lang=" ++ DQ ++ lit "en" ++ DQ ++ lit ">" ++ NL ++
                   lit "<head>" ++ NL ++
                   lit "<meta http-equiv=" ++ DQ ++ lit "Content-Type" ++ DQ ++
                   lit " content=" ++ DQ ++ lit "text/html; charset=UTF-8" ++ DQ ++ lit " />" ++ NL ++
                   lit "<meta http-equiv=" ++ DQ ++ lit "Content-Language" ++ DQ ++
                   lit " content=" ++ DQ ++ lit "en" ++ DQ ++ lit " />" ++ NL ++ lit "<title>") fp in
  let fp := xmlencode_str fp (stripped_name st) in
  let fp := match description st with
            | c :: _ => if is_nul c then fp else fputs (lit " - ") fp
            | [] => fp
            end in
  let fp := xmlencode_str fp (description st) in
  let fp := fprintf (lit "</title>" ++ NL ++ lit "<link rel=" ++ DQ ++ lit "icon" ++ DQ ++
                     lit " type=" ++ DQ ++ lit "image/png" ++ DQ ++ lit " href=" ++ DQ ++
                     c_str (relpath st) ++ lit "favicon.png" ++ DQ ++ lit " />" ++ NL) fp in
  let fp := fprintf (lit "<link rel=" ++ DQ ++ lit "alternate" ++ DQ ++
                     lit " type=" ++ DQ ++ lit "application/atom+xml" ++ DQ ++
                     lit " title=" ++ DQ ++ c_str (name st) ++ lit " Atom Feed" ++ DQ ++
                     lit " href=" ++ DQ ++ c_str (relpath st) ++ lit "atom.xml" ++ DQ ++ lit " />" ++ NL) fp in
  let fp := fprintf (lit "<link rel=" ++ DQ ++ lit "stylesheet" ++ DQ ++
                     lit " type=" ++ DQ ++ lit "text/css" ++ DQ ++ lit " href=" ++ DQ ++
                     c_str (relpath st) ++ lit "style.css" ++ DQ ++ lit " />" ++ NL) fp in
  let fp := fputs (lit "</head>" ++ NL ++ lit "<body>" ++ NL ++ lit "<table><tr><td>") fp in
  let fp := fprintf (lit "<a href=" ++ DQ ++ lit "../" ++ c_str (relpath st) ++ DQ ++
                     lit "><img src=" ++ DQ ++ c_str (relpath st) ++ lit "logo.png" ++ DQ ++
                     lit " alt=" ++ DQ ++ DQ ++ lit " width=" ++ DQ ++ lit "32" ++ DQ ++
                     lit " height=" ++ DQ ++ lit "32" ++ DQ ++ lit " /></a>") fp in
  let fp := fputs (lit "</td><td><h1>") fp in
  let fp := xmlencode_str fp (stripped_name st) in
  let fp := fputs (lit "</h1><span class=" ++ DQ ++ lit "desc" ++ DQ ++ lit ">") fp in
  let fp := xmlencode_str fp (description st) in
  let fp := fputs (lit "</span></td></tr>") fp in
  let fp := match cloneurl st with
            | c :: _ =>
                if is_nul c then fp
                else
                  let fp := fputs (lit "<tr class=" ++ DQ ++ lit "url" ++ DQ ++
                                   lit "><td></td><td>git clone <a href=" ++ DQ) fp in
                  let fp := xmlencode_str fp (cloneurl st) in
                  let fp := fputs (DQ ++ lit ">") fp in
                  let fp := xmlencode_str fp (cloneurl st) in
                  fputs (lit "</a></td></tr>") fp
            | [] => fp
            end in
  let fp := fputs (lit "<tr><td></td><td>" ++ NL) fp in
  let fp := fprintf (lit "<a href=" ++ DQ ++ c_str (relpath st) ++ lit "log.html" ++ DQ ++ lit ">Log</a> | ") fp in
  let fp := fprintf (lit "<a href=" ++ DQ ++ c_str (relpath st) ++ lit "files.html" ++ DQ ++ lit ">Files</a> | ") fp in
  let fp := fprintf (lit "<a href=" ++ DQ ++ c_str (relpath st) ++ lit "refs.html" ++ DQ ++ lit ">Refs</a>") fp in
  let fp := if hasreadme st
            then fprintf (lit " | <a href=" ++ DQ ++ c_str (relpath st) ++ lit "file/README.html" ++ DQ ++ lit ">README</a>") fp
            else fp in
  let fp := if haslicense st
            then fprintf (lit " | <a href=" ++ DQ ++ c_str (relpath st) ++ lit "file/LICENSE.html" ++ DQ ++ lit ">LICENSE</a>") fp
            else fp in
  let fp := fputs (lit "</td></tr></table>" ++ NL ++ lit "<hr/>" ++ NL ++
                   lit "<div id=" ++ DQ ++ lit "content" ++ DQ ++ lit ">" ++ NL) fp in
  ret (fp, 0%Z).

Definition writefooter (fp : FILE) : FILE :=
  fputs (lit "</div>" ++ NL ++ lit "</body>" ++ NL ++ lit "</html>" ++ NL) fp.

(** The line-number anchor [nfmt] of [writeblobhtml], for the counter [n]
    (a [size_t] printed with [%d]). *)
Definition nfmt (n : nat) : list ascii :=
  let d := fmt_d (int_of_size_t n) in
  lit "<a href=" ++ DQ ++ lit "#l" ++ d ++ DQ ++ lit " id=" ++ DQ ++ lit "l" ++ d ++ DQ ++
  lit ">" ++ d ++ lit "</a>" ++ NL.

(** The loop [for (i = 0; i < len - 1; i++)] of [writeblobhtml]: [s] is the
    content from [s[i]] on and [k] is [len - 1 - i]. *)
Fixpoint writeblobhtml_loop (s : list ascii) (k : nat) (n : nat) (fp : FILE)
    : nat * FILE :=
  match k, s with
  | S k', c :: s' =>
      if Ascii.eqb c "010"
      then writeblobhtml_loop s' k' (S n) (fprintf (nfmt (S n)) fp)
      else writeblobhtml_loop s' k' n fp
  | _, _ => (n, fp)
  end.

Definition writeblobhtml (fp : FILE) (blob : git_blob) : FILE * Z :=
  let n := 0 in
  let s := blob_rawcontent blob in
  let len := git_blob_rawsize blob in
  let fp := fputs (lit "<table id=" ++ DQ ++ lit "blob" ++ DQ ++ lit "><tr><td class=" ++ DQ ++
                   lit "num" ++ DQ ++ lit "><pre>" ++ NL) fp in
  let '(n, fp) :=
    if len is 0 then (n, fp)
    else
      let n := S n in
      let fp := fprintf (nfmt n) fp in
      writeblobhtml_loop s (len - 1) n fp in
  let fp := fputs (lit "</pre></td><td><pre>" ++ NL) fp in
  let fp := xmlencode fp s len in
  let fp := fputs (lit "</pre></td></tr></table>" ++ NL) fp in
  (fp, int_of_size_t n).

Definition printcommit (fp : FILE) (ci : commitinfo) : M FILE :=
  do rp <- gets relpath;
  let fp := fprintf (lit "<b>commit</b> <a href=" ++ DQ ++ c_str rp ++ lit "commit/" ++
                     c_str (oid ci) ++ lit ".html" ++ DQ ++ lit ">" ++ c_str (oid ci) ++
                     lit "</a>" ++ NL) fp in
  let fp := match parentoid ci with
            | c :: _ =>
                if is_nul c then fp
                else fprintf (lit "<b>parent</b> <a href=" ++ DQ ++ c_str rp ++ lit "commit/" ++
                              c_str (parentoid ci) ++ lit ".html" ++ DQ ++ lit ">" ++
                              c_str (parentoid ci) ++ lit "</a>" ++ NL) fp
            | [] => fp
            end in
  let fp := match author ci with
            | Some a =>
                let fp := fputs (lit "<b>Author:</b> ") fp in
                let fp := xmlencode_str fp (sig_name a) in
                let fp := fputs (lit " &lt;<a href=" ++ DQ ++ lit "mailto:") fp in
                let fp := xmlencode_str fp (sig_email a) in
                let fp := fputs (DQ ++ lit ">") fp in
                let fp := xmlencode_str fp (sig_email a) in
                let fp := fputs (lit "</a>&gt;" ++ NL ++ lit "<b>Date:</b>   ") fp in
                let fp := printtime fp (when a) in
                fputc "010" fp
            | None => fp
            end in
  let fp := match msg ci with
            | Some m =>
                let fp := fputc "010" fp in
                let fp := xmlencode_str fp m in
                fputc "010" fp
            | None => fp
            end in
  ret fp.

(** The loop [for (k = 0; ; k++)] over the lines of hunk [j]; it ends when
    [git_patch_get_line_in_hunk] fails, past the last line. *)
Fixpoint printshowfile_lines (j k : nat) (lines : list git_diff_line) (fp : FILE) : FILE :=
  match lines with
  | [] => fp
  | line :: rest =>
      let anchor := lit "#h" ++ fmt_u j ++ lit "-" ++ fmt_u k in
      let ident := lit "h" ++ fmt_u j ++ lit "-" ++ fmt_u k in
      let fp :=
        if (old_lineno line =? -1)%Z
        then fprintf (lit "<a href=" ++ DQ ++ anchor ++ DQ ++ lit " id=" ++ DQ ++ ident ++ DQ ++
                      lit " class=" ++ DQ ++ lit "i" ++ DQ ++ lit ">+") fp
        else if (new_lineno line =? -1)%Z
        then fprintf (lit "<a href=" ++ DQ ++ anchor ++ DQ ++ lit " id=" ++ DQ ++ ident ++ DQ ++
                      lit " class=" ++ DQ ++ lit "d" ++ DQ ++ lit ">-") fp
        else fputc " " fp in
      let fp := xmlencode fp (content line) (content_len line) in
      let fp := if (old_lineno line =? -1)%Z || (new_lineno line =? -1)%Z
                then fputs (lit "</a>") fp else fp in
      printshowfile_lines j (S k) rest fp
  end.

(** The loop [for (j = 0; j < nhunks; j++)]; [git_patch_get_hunk] gives the
    hunk for every [j] below [nhunks]. *)
Fixpoint printshowfile_hunks (j : nat) (hunks : list git_diff_hunk) (fp : FILE) : FILE :=
  match hunks with
  | [] => fp
  | hunk :: rest =>
      let fp := fprintf (lit "<a href=" ++ DQ ++ lit "#h" ++ fmt_u j ++ DQ ++ lit " id=" ++ DQ ++
                         lit "h" ++ fmt_u j ++ DQ ++ lit " class=" ++ DQ ++ lit "h" ++ DQ ++ lit ">") fp in
      let fp := xmlencode fp (header hunk) (header_len hunk) in
      let fp := fputs (lit "</a>") fp in
      let fp := printshowfile_lines j 0 (hunk_lines hunk) fp in
      printshowfile_hunks (S j) rest fp
  end.

(** The loop [for (i = 0; i < ndeltas; i++)] of [printshowfile]. *)
Fixpoint printshowfile_deltas (rp : list ascii) (patches : list (option git_patch))
    (fp : FILE) : FILE :=
  match patches with
  | [] => fp
  | None :: _ => fp
  | Some patch :: rest =>
      let delta := patch_delta patch in
      let fp := fprintf (lit "<b>diff --git a/<a href=" ++ DQ ++ c_str rp ++ lit "file/" ++
                         c_str (old_file_path delta) ++ lit ".html" ++ DQ ++ lit ">" ++
                         c_str (old_file_path delta) ++ lit "</a> b/<a href=" ++ DQ ++
                         c_str rp ++ lit "file/" ++ c_str (new_file_path delta) ++
                         lit ".html" ++ DQ ++ lit ">" ++ c_str (new_file_path delta) ++
                         lit "</a></b>" ++ NL) fp in
      if negb (Z.land (flags delta) GIT_DIFF_FLAG_BINARY =? 0)%Z
      then printshowfile_deltas rp rest (fputs (lit "Binary files differ" ++ NL) fp)
      else printshowfile_deltas rp rest (printshowfile_hunks 0 (patch_hunks patch) fp)
  end.

(** The path of the page of the commit with hexadecimal id [o]. *)
Definition commit_path (o : list ascii) : list ascii :=
  snprintf PATH_MAX (lit "commit/" ++ c_str o ++ lit ".html").

Definition printshowfile (ci : commitinfo) : M unit :=
  let path := commit_path (oid ci) in
  do a <- access path;
  if (a =? 0)%Z then ret tt
  else
    do fp <- efopen path;
    do h <- writeheader fp;
    let fp := fputs (lit "<pre>") (fst h) in
    do fp <- printcommit fp ci;
    let fp :=
      match stats ci with
      | Some s =>
          match stats_buf s with
          | Some (c :: buf) =>
              if is_nul c then fp
              else
                let fp := fputs (lit "<b>Diffstat:</b>" ++ NL) fp in
                xmlencode_str fp (c :: buf)
          | _ => fp
          end
      | None => fp
      end in
    let fp := fputs (lit "<hr/>") fp in
    do rp <- gets relpath;
    let fp := printshowfile_deltas rp (diff_patches (diff ci)) fp in
    let fp := fputs (lit "</pre>" ++ NL) fp in
    let fp := writefooter fp in
    fclose fp.

(** [summarylen - 1] as a [size_t]: for [summarylen = 0] the subtraction
    wraps to the largest value, which bounds nothing within the [len] bytes
    of the string. *)
Definition sub1 (n len : nat) : nat :=
  match n with
  | 0 => len
  | S k => k
  end.

(** The ellipsis of a cut summary: the three bytes of U+2026 in UTF-8. *)
Definition ellipsis : list ascii := ["226"; "128"; "166"].

(** The body of [while (!git_revwalk_next(&id, w))] in [writelog], over the
    ids the walk gives. *)
Fixpoint writelog_loop (ids : list git_oid) (fp : FILE) : M FILE :=
  match ids with
  | [] => ret fp
  | i :: rest =>
      do _ <- modify (set_relpath []);
      match commitinfo_getbyoid i with
      | None => ret fp
      | Some ci =>
          let fp := fputs (lit "<tr><td>") fp in
          let fp := match author ci with
                    | Some a => printtimeshort fp (when a)
                    | None => fp
                    end in
          let fp := fputs (lit "</td><td>") fp in
          do rp <- gets relpath;
          let fp := match summary ci with
                    | Some s =>
                        let fp := fprintf (lit "<a href=" ++ DQ ++ c_str rp ++ lit "commit/" ++
                                           c_str (oid ci) ++ lit ".html" ++ DQ ++ lit ">") fp in
                        let len := strlen s in
                        let fp := if Nat.ltb (summarylen cfg) len
                                  then fputs ellipsis (xmlencode fp s (sub1 (summarylen cfg) len))
                                  else xmlencode fp s len in
                        fputs (lit "</a>") fp
                    | None => fp
                    end in
          let fp := fputs (lit "</td><td>") fp in
          let fp := match author ci with
                    | Some a => xmlencode_str fp (sig_name a)
                    | None => fp
                    end in
          let fp := fputs (lit "</td><td class=" ++ DQ ++ lit "num" ++ DQ ++ lit ">") fp in
          let fp := fprintf (fmt_u (filecount ci)) fp in
          let fp := fputs (lit "</td><td class=" ++ DQ ++ lit "num" ++ DQ ++ lit ">") fp in
          let fp := fprintf (lit "+" ++ fmt_u (addcount ci)) fp in
          let fp := fputs (lit "</td><td class=" ++ DQ ++ lit "num" ++ DQ ++ lit ">") fp in
          let fp := fprintf (lit "-" ++ fmt_u (delcount ci)) fp in
          let fp := fputs (lit "</td></tr>" ++ NL) fp in
          do _ <- modify (set_relpath (lit "../"));
          do _ <- printshowfile ci;
          writelog_loop rest fp
      end
  end.

Definition writelog (fp : FILE) (o : git_oid) : M (FILE * Z) :=
  let w := git_revwalk_new in
  let w := git_revwalk_push o w in
  let w := git_revwalk_sorting GIT_SORT_TIME w in
  let w := git_revwalk_simplify_first_parent w in
  let fp := fputs (lit "<table id=" ++ DQ ++ lit "log" ++ DQ ++ lit "><thead>" ++ NL ++
                   lit "<tr><td>Age</td><td>Commit message</td>" ++
                   lit "<td>Author</td><td>Files</td><td class=" ++ DQ ++ lit "num" ++ DQ ++ lit ">+</td>" ++
                   lit "<td class=" ++ DQ ++ lit "num" ++ DQ ++ lit ">-</td></tr>" ++ NL ++
                   lit "</thead><tbody>" ++ NL) fp in
  do fp <- writelog_loop (git_revwalk_ids repo w) fp;
  let fp := fputs (lit "</tbody></table>") fp in
  do _ <- modify (set_relpath []);
  ret (fp, 0%Z).

Definition printcommitatom (fp : FILE) (ci : commitinfo) : FILE :=
  let fp := fputs (lit "<entry>" ++ NL) fp in
  let fp := fprintf (lit "<id>" ++ c_str (oid ci) ++ lit "</id>" ++ NL) fp in
  let fp := match author ci with
            | Some a =>
                let fp := fputs (lit "<updated>") fp in
                let fp := printtimez fp (when a) in
                fputs (lit "</updated>" ++ NL) fp
            | None => fp
            end in
  let fp := match summary ci with
            | Some s =>
                let fp := fputs (lit "<title type=" ++ DQ ++ lit "text" ++ DQ ++ lit ">") fp in
                let fp := xmlencode_str fp s in
                fputs (lit "</title>" ++ NL) fp
            | None => fp
            end in
  let fp := fputs (lit "<content type=" ++ DQ ++ lit "text" ++ DQ ++ lit ">") fp in
  let fp := fprintf (lit "commit " ++ c_str (oid ci) ++ NL) fp in
  let fp := match parentoid ci with
            | c :: _ =>
                if is_nul c then fp
                else fprintf (lit "parent " ++ c_str (parentoid ci) ++ NL) fp
            | [] => fp
            end in
  let fp := match author ci with
            | Some a =>
                let fp := fputs (lit "Author: ") fp in
                let fp := xmlencode_str fp (sig_name a) in
                let fp := fputs (lit " &lt;") fp in
                let fp := xmlencode_str fp (sig_email a) in
                let fp := fputs (lit "&gt;" ++ NL ++ lit "Date:   ") fp in
                let fp := printtime fp (when a) in
                fputc "010" fp
            | None => fp
            end in
  let fp := match msg ci with
            | Some m =>
                let fp := fputc "010" fp in
                xmlencode_str fp m
            | None => fp
            end in
  let fp := fputs (NL ++ lit "</content>" ++ NL) fp in
  let fp := match author ci with
            | Some a =>
                let fp := fputs (lit "<author><name>") fp in
                let fp := xmlencode_str fp (sig_name a) in
                let fp := fputs (lit "</name>" ++ NL ++ lit "<email>") fp in
                let fp := xmlencode_str fp (sig_email a) in
                fputs (lit "</email>" ++ NL ++ lit "</author>" ++ NL) fp
            | None => fp
            end in
  fputs (lit "</entry>" ++ NL) fp.

(** The loop [for (i = 0; i < m && !git_revwalk_next(&id, w); i++)] of
    [writeatom]: [k] is [m - i], [ids] what the walk still gives. *)
Fixpoint writeatom_loop (k : nat) (ids : list git_oid) (fp : FILE) : FILE :=
  match k, ids with
  | S k', i :: rest =>
      match commitinfo_getbyoid i with
      | None => fp
      | Some ci => writeatom_loop k' rest (printcommitatom fp ci)
      end
  | _, _ => fp
  end.

Definition writeatom (fp : FILE) : M (FILE * Z) :=
  let m := 100 in
  do st <- gets (fun st => st);
  let fp := fputs (lit "<?xml version=" ++ DQ ++ lit "1.0" ++ DQ ++ lit " encoding=" ++ DQ ++
                   lit "UTF-8" ++ DQ ++ lit "?>" ++ NL ++
                   lit "<feed xmlns=" ++ DQ ++ lit "http://www.w3.org/2005/Atom" ++ DQ ++ lit ">" ++ NL ++
                   lit "<title>") fp in
  let fp := xmlencode_str fp (stripped_name st) in
  let fp := fputs (lit ", branch HEAD</title>" ++ NL ++ lit "<subtitle>") fp in
  let fp := xmlencode_str fp (description st) in
  let fp := fputs (lit "</subtitle>" ++ NL) fp in
  let w := git_revwalk_new in
  let w := git_revwalk_push_head w in
  let w := git_revwalk_sorting GIT_SORT_TIME w in
  let w := git_revwalk_simplify_first_parent w in
  let fp := writeatom_loop m (git_revwalk_ids repo w) fp in
  let fp := fputs (lit "</feed>") fp in
  ret (fp, 0%Z).

(** The loop of [writeblob] over the characters of [fpath], which builds [tmp]. *)
Fixpoint writeblob_tmp (p tmp : list ascii) : list ascii :=
  match p with
  | [] => tmp
  | c :: p' =>
      writeblob_tmp p' (if Ascii.eqb c "/" then strlcat tmp (lit "../") PATH_MAX else tmp)
  end.

Definition writeblob (obj : git_blob) (fpath filename : list ascii) (filesize : nat)
    : M Z :=
  let d := xdirname fpath in
  do r <- mkdirp d;
  if negb (r =? 0)%Z then ret (-1)%Z
  else
    let tmp := writeblob_tmp (c_str fpath) [] in
    do _ <- modify (set_relpath tmp);
    do fp <- efopen fpath;
    do h <- writeheader fp;
    let fp := fputs (lit "<p> ") (fst h) in
    let fp := xmlencode_str fp filename in
    let fp := fprintf (lit " (" ++ fmt_u filesize ++ lit "B)") fp in
    let fp := fputs (lit "</p><hr/>") fp in
    do r <- (if blob_is_binary obj
             then ret (fputs (lit "<p>Binary file</p>" ++ NL) fp, 0%Z)
             else
               let r := writeblobhtml fp obj in
               if ferror (fst r) then err 1%Z else ret r);
    let fp := writefooter (fst r) in
    do _ <- fclose fp;
    do _ <- modify (set_relpath []);
    ret (snd r).

Definition refs_cmp (r1 r2 : git_reference) : Z :=
  let t1 := Z.b2z (reference_is_branch r1) in
  let t2 := Z.b2z (reference_is_branch r2) in
  if negb (t1 =? t2)%Z then (t1 - t2)%Z
  else strcmp (reference_shorthand r1) (reference_shorthand r2).

(** How the inner loop of [writerefs] is left: past the last reference, by
    [break], or by [goto err]. *)
Inductive loop_exit :=
| LoopEnd
| LoopBreak
| GotoErr.

Definition titles (j : nat) : list ascii := if j is 0 then lit "Branches" else lit "Tags".
Definition ids (j : nat) : list ascii := if j is 0 then lit "branches" else lit "tags".
Definition cols (j : nat) : list ascii := if j is 0 then lit "Branch" else lit "Tag".

(** The row of [writerefs] for the resolved reference [r] and its commit. *)
Definition writerefs_row (fp : FILE) (r : git_reference) (ci : commitinfo) : FILE :=
  let nm := reference_shorthand r in
  let fp := fputs (lit "<tr><td>") fp in
  let fp := xmlencode_str fp nm in
  let fp := fputs (lit "</td><td>") fp in
  let fp := match author ci with
            | Some a => printtimeshort fp (when a)
            | None => fp
            end in
  let fp := fputs (lit "</td><td>") fp in
  let fp := match author ci with
            | Some a => xmlencode_str fp (sig_name a)
            | None => fp
            end in
  fputs (lit "</td></tr>" ++ NL) fp.

(** The loop [for (i = 0, count = 0; i < refcount; i++)] of [writerefs] for
    the class [j], over [refs[i]], [refs[i + 1]], ... *)
Fixpoint writerefs_loop (j : nat) (refs : list git_reference) (count : nat) (fp : FILE)
    : M (loop_exit * nat * FILE) :=
  match refs with
  | [] => ret (LoopEnd, count, fp)
  | ref :: rest =>
      if negb (reference_is_branch ref && Nat.eqb j 0)
         && negb (reference_is_tag ref && Nat.eqb j 1)
      then writerefs_loop j rest count fp
      else
        let body (r : git_reference) : M (loop_exit * nat * FILE) :=
          match reference_target r with
          | None => ret (GotoErr, count, fp)
          | Some _ =>
              match git_reference_peel repo r with
              | None => ret (GotoErr, count, fp)
              | Some obj =>
                  match object_id obj with
                  | None => ret (GotoErr, count, fp)
                  | Some i =>
                      match commitinfo_getbyoid i with
                      | None => ret (LoopBreak, count, fp)
                      | Some ci =>
                          let count := S count in
                          let fp :=
                            if Nat.eqb count 1
                            then fprintf (lit "<h2>" ++ titles j ++ lit "</h2><table id=" ++ DQ ++
                                          ids j ++ DQ ++ lit "><thead>" ++ NL ++ lit "<tr><td>" ++
                                          cols j ++ lit "</td>" ++ lit "<td>Age</td><td>Author</td>" ++
                                          NL ++ lit "</tr>" ++ NL ++ lit "</thead><tbody>" ++ NL) fp
                            else fp in
                          do _ <- modify (set_relpath []);
                          let fp := writerefs_row fp r ci in
                          do _ <- modify (set_relpath (lit "../"));
                          writerefs_loop j rest count fp
                      end
                  end
              end
          end in
        match reference_type ref with
        | GIT_REF_SYMBOLIC =>
            match git_reference_resolve repo ref with
            | None => ret (GotoErr, count, fp)
            | Some dref => body dref
            end
        | GIT_REF_OID => body ref
        | GIT_REF_INVALID => writerefs_loop j rest count fp
        end
  end.

(** The loop [for (j = 0; j < 2; j++)] of [writerefs], from class [j] on;
    [n] is [2 - j]. *)
Fixpoint writerefs_classes (n j : nat) (refs : list git_reference) (fp : FILE) : M FILE :=
  match n with
  | 0 => ret fp
  | S n' =>
      do r <- writerefs_loop j refs 0 fp;
      let '(how, count, fp) := r in
      match how with
      | GotoErr => ret fp
      | _ =>
          let fp := if count is 0 then fp else fputs (lit "</tbody></table><br/>") fp in
          writerefs_classes n' (S j) refs fp
      end
  end.

Definition writerefs (fp : FILE) : M (FILE * Z) :=
  match git_reference_list repo with
  | None => ret (fp, (-1)%Z)
  | Some collected =>
      let refs := qsort lc git_reference refs_cmp collected in
      do fp <- writerefs_classes 2 0 refs fp;
      ret (fp, 0%Z)
  end.

End Stagit.

(** ** Concrete inputs *)

(** A state before any page is written: empty cursor, empty output directory. *)
Definition st0 : state :=
  mkState [] (lit "stagit.git") (lit "stagit") (lit "static git page generator")
          [] false false ∅.

(** A blob of two lines, the second without a newline. *)
Definition blob_hi_bye : git_blob := mkBlob (lit "hi" ++ NL ++ lit "bye") false.

(** A comparison sort for the model of the C library: insertion, with the
    comparison function of [qsort]. *)
Fixpoint insert_sorted {A} (cmp : A -> A -> Z) (x : A) (l : list A) : list A :=
  match l with
  | [] => [x]
  | y :: l' => if (cmp x y <=? 0)%Z then x :: l else y :: insert_sorted cmp x l'
  end.

Fixpoint insertion_sort {A} (cmp : A -> A -> Z) (l : list A) : list A :=
  match l with
  | [] => []
  | x :: l' => insert_sorted cmp x (insertion_sort cmp l')
  end.

(** A C library whose [strftime] prints the seconds since the epoch. *)
Definition libc0 : libc :=
  mkLibc (fun _ t => fmt_d t) (fun A cmp l => insertion_sort cmp l).

Definition cfg0 : config := mkConfig 5 true.

(** A repository of two commits on one branch, with one tag on the first. *)
Definition oid_root : git_oid := lit "1111111111111111111111111111111111111111".
Definition oid_head : git_oid := lit "2222222222222222222222222222222222222222".
Definition oid_lost : git_oid := lit "3333333333333333333333333333333333333333".

Definition sig0 : git_signature :=
  mkSignature (lit "A. U. Thor") (lit "author@example.org") (mkTime 1500000000 120).

Definition commit_root : git_commit :=
  mkCommit oid_root [] (Some sig0) (Some (lit "add a.txt"))
           (Some (lit "add a.txt" ++ NL)) (lit "aaaa").

Definition commit_head : git_commit :=
  mkCommit oid_head [oid_root] (Some sig0) (Some (lit "bye"))
           (Some (lit "bye" ++ NL)) (lit "bbbb").

Definition diff0 : git_diff :=
  mkDiff [Some (mkPatch (mkDelta 0 (lit "a.txt") (lit "a.txt"))
                  [mkHunk (lit "@@ -1 +1,2 @@" ++ NL) 14
                     [mkLine 1 1 (lit "hi" ++ NL) 3;
                      mkLine (-1) 2 (lit "bye" ++ NL) 4]])].

Definition stats0 : git_diff_stats :=
  mkStats 1 0 1 (Some (lit " 1 file changed, 1 insertion(+)" ++ NL)).

Definition ref_master : git_reference :=
  mkRef true false (lit "master") GIT_REF_OID (Some oid_head).

Definition ref_v1 : git_reference :=
  mkRef false true (lit "v1") GIT_REF_OID (Some oid_root).

Definition repo0 : git_repository :=
  mkRepo
    (fun i => if decide (i = oid_root) then Some commit_root
              else if decide (i = oid_head) then Some commit_head
              else None)
    (fun t => Some t)
    (fun _ _ _ => Some diff0)
    (fun _ => Some stats0)
    (fun _ => [oid_head; oid_root])
    (Some [ref_v1; ref_master])
    (fun r => Some r)
    (fun r => Some (mkObject (reference_target r))).

(** The same repository with a branch whose commit is missing. *)
Definition ref_lost : git_reference :=
  mkRef true false (lit "lost") GIT_REF_OID (Some oid_lost).

Definition repo_lost : git_repository :=
  mkRepo (git_commit_lookup repo0) (git_tree_lookup repo0)
         (git_diff_tree_to_tree repo0) (git_diff_get_stats repo0)
         (git_revwalk_ids repo0)
         (Some [ref_v1; ref_lost])
         (git_reference_resolve repo0) (git_reference_peel repo0).

(** The state once [main] has made the directory of the commit pages. *)
Definition st_commit : state :=
  mkState [] (lit "stagit.git") (lit "stagit") (lit "static git page generator")
          [] false false {[ lit "commit" := Dir ]}.

(** The same with a page already there for the first commit. *)
Definition st_page : state :=
  set_fs (<[commit_path oid_root := File (lit "old page")]> (fs st_commit)) st_commit.

(** The snapshot of the first commit of [repo0]. *)
Definition ci_root : commitinfo :=
  mkCommitinfo oid_root oid_root [] (Some sig0) (Some (lit "add a.txt"))
               (Some (lit "add a.txt" ++ NL)) (Some stats0) diff0 commit_root
               None (Some (lit "aaaa")) None 1 0 1.

(** The repository [repo0] when no reference can be peeled. *)
Definition repo_nopeel : git_repository :=
  mkRepo (git_commit_lookup repo0) (git_tree_lookup repo0)
         (git_diff_tree_to_tree repo0) (git_diff_get_stats repo0)
         (git_revwalk_ids repo0) (git_reference_list repo0)
         (git_reference_resolve repo0) (fun _ => None).

(** The snapshot of the second commit of [repo0]. *)
Definition commit_head_info : commitinfo :=
  mkCommitinfo oid_head oid_head oid_root (Some sig0) (Some (lit "bye"))
               (Some (lit "bye" ++ NL)) (Some stats0) diff0 commit_head
               (Some commit_root) (Some (lit "bbbb")) (Some (lit "aaaa")) 1 0 1.

(** A repository with three branches and two tags, collected out of order;
    the branch [alias] is symbolic and resolves to the branch [zed]. *)
Definition ref_zed : git_reference :=
  mkRef true false (lit "zed") GIT_REF_OID (Some oid_head).

Definition ref_bar : git_reference :=
  mkRef true false (lit "bar") GIT_REF_OID (Some oid_root).

Definition ref_alias : git_reference :=
  mkRef true false (lit "alias") GIT_REF_SYMBOLIC None.

Definition ref_v2 : git_reference :=
  mkRef false true (lit "v2") GIT_REF_OID (Some oid_head).

Definition repo_refs : git_repository :=
  mkRepo (git_commit_lookup repo0) (git_tree_lookup repo0)
         (git_diff_tree_to_tree repo0) (git_diff_get_stats repo0)
         (git_revwalk_ids repo0)
         (Some [ref_zed; ref_v2; ref_alias; ref_v1; ref_bar])
         (fun r => match reference_type r with
                   | GIT_REF_SYMBOLIC => Some ref_zed
                   | _ => Some r
                   end)
         (git_reference_peel repo0).

(** ** Vocabulary of the properties *)

Section Vocabulary.

Variable repo : git_repository.
Variable lc : libc.
Variable cfg : config.

(** The number of newline bytes of a buffer. *)
Definition newlines (s : list ascii) : nat := count_occ Ascii.ascii_dec s "010".

(** The line count as the specification words it: zero for empty content,
    otherwise one more than the newlines among the first [len - 1] bytes. *)
Definition line_count (s : list ascii) : nat :=
  match length s with
  | 0 => 0
  | S k => 1 + newlines (take k s)
  end.

(** The three fixed parts of the table [writeblobhtml] writes. *)
Definition blob_open : list ascii :=
  lit "<table id=" ++ DQ ++ lit "blob" ++ DQ ++ lit "><tr><td class=" ++ DQ ++
  lit "num" ++ DQ ++ lit "><pre>" ++ NL.

Definition blob_middle : list ascii := lit "</pre></td><td><pre>" ++ NL.

Definition blob_close : list ascii := lit "</pre></td></tr></table>" ++ NL.

(** The anchor of line [n]: a link to [#l<n>] with the id [l<n>] that shows
    the number, each on a line of its own. *)
Definition line_anchor (n : nat) : list ascii :=
  lit "<a href=" ++ DQ ++ lit "#l" ++ fmt_d (Z.of_nat n) ++ DQ ++
  lit " id=" ++ DQ ++ lit "l" ++ fmt_d (Z.of_nat n) ++ DQ ++ lit ">" ++
  fmt_d (Z.of_nat n) ++ lit "</a>" ++ NL.

(** The table of a blob with content [s]: one anchor per line, numbered
    from 1, then the content, escaped. *)
Definition blob_table (s : list ascii) : list ascii :=
  blob_open ++ flat_map line_anchor (seq 1 (line_count s)) ++
  blob_middle ++ escape (c_prefix s (length s)) ++ blob_close.

(** The end of every page. *)
Definition page_close : list ascii :=
  lit "</div>" ++ NL ++ lit "</body>" ++ NL ++ lit "</html>" ++ NL.

(** A blob of [2^31] lines. *)
Definition blob_huge : git_blob :=
  mkBlob (replicate (Z.to_nat (2 ^ 31)) "010"%char) false.

(** The lines of the commit block, as [printcommit] formats them. *)
Definition commit_line (rp o : list ascii) : list ascii :=
  lit "<b>commit</b> <a href=" ++ DQ ++ c_str rp ++ lit "commit/" ++ c_str o ++
  lit ".html" ++ DQ ++ lit ">" ++ c_str o ++ lit "</a>" ++ NL.

Definition parent_line (rp po : list ascii) : list ascii :=
  lit "<b>parent</b> <a href=" ++ DQ ++ c_str rp ++ lit "commit/" ++ c_str po ++
  lit ".html" ++ DQ ++ lit ">" ++ c_str po ++ lit "</a>" ++ NL.

Definition author_lines (a : option git_signature) : list ascii :=
  match a with
  | Some a =>
      lit "<b>Author:</b> " ++ escape (c_str (sig_name a)) ++
      lit " &lt;<a href=" ++ DQ ++ lit "mailto:" ++ escape (c_str (sig_email a)) ++
      DQ ++ lit ">" ++ escape (c_str (sig_email a)) ++
      lit "</a>&gt;" ++ NL ++ lit "<b>Date:</b>   " ++
      c_str (strftime_gmtime lc (lit "%a %b %e %T %Y")
               (time (when a) + offset (when a) * 60)%Z) ++ NL
  | None => []
  end.

Definition message_lines (m : option (list ascii)) : list ascii :=
  match m with
  | Some m => NL ++ escape (c_str m) ++ NL
  | None => []
  end.

(** A stream with nothing written, to name the text a writer appends. *)
Definition blank : FILE := mkFILE [] [] false.

(** [F] only appends to its stream: the same text whatever was written
    before, and the path and the error indicator stay. *)
Definition appends (F : FILE -> FILE) : Prop :=
  forall fp, F fp = mkFILE (f_path fp) (f_buf fp ++ f_buf (F blank)) (f_err fp).

(** The text of one feed entry, element by element: the id, the time of
    the update, the title, the content (the commit and parent lines, the
    author and the date, the message) and the author. *)
Definition atom_entry (ci : commitinfo) : list ascii :=
  lit "<entry>" ++ NL ++
  lit "<id>" ++ c_str (oid ci) ++ lit "</id>" ++ NL ++
  match author ci with
  | Some a =>
      lit "<updated>" ++
      c_str (strftime_gmtime lc (lit "%Y-%m-%dT%H:%M:%SZ")
               (time (when a) + offset (when a) * 60)%Z) ++
      lit "</updated>" ++ NL
  | None => []
  end ++
  match summary ci with
  | Some s =>
      lit "<title type=" ++ DQ ++ lit "text" ++ DQ ++ lit ">" ++
      escape (c_str s) ++ lit "</title>" ++ NL
  | None => []
  end ++
  lit "<content type=" ++ DQ ++ lit "text" ++ DQ ++ lit ">" ++
  lit "commit " ++ c_str (oid ci) ++ NL ++
  (if strlen (parentoid ci) is 0 then []
   else lit "parent " ++ c_str (parentoid ci) ++ NL) ++
  match author ci with
  | Some a =>
      lit "Author: " ++ escape (c_str (sig_name a)) ++ lit " &lt;" ++
      escape (c_str (sig_email a)) ++ lit "&gt;" ++ NL ++ lit "Date:   " ++
      c_str (strftime_gmtime lc (lit "%a %b %e %T %Y")
               (time (when a) + offset (when a) * 60)%Z) ++ NL
  | None => []
  end ++
  match msg ci with
  | Some m => NL ++ escape (c_str m)
  | None => []
  end ++
  NL ++ lit "</content>" ++ NL ++
  match author ci with
  | Some a =>
      lit "<author><name>" ++ escape (c_str (sig_name a)) ++ lit "</name>" ++ NL ++
      lit "<email>" ++ escape (c_str (sig_email a)) ++ lit "</email>" ++ NL ++
      lit "</author>" ++ NL
  | None => []
  end ++
  lit "</entry>" ++ NL.

(** The snapshots of a walk: one per id, up to the first id whose snapshot
    cannot be built. *)
Fixpoint snapshots (l : list git_oid) : list commitinfo :=
  match l with
  | [] => []
  | i :: rest =>
      match commitinfo_getbyoid repo i with
      | None => []
      | Some ci => ci :: snapshots rest
      end
  end.

(** The walk [writeatom] asks for: from HEAD, by commit time, first parents only. *)
Definition head_walk : git_revwalk := mkWalk [PushHead] GIT_SORT_TIME true.

(** The opening of the feed, up to the entries. *)
Definition feed_open (st : state) : list ascii :=
  lit "<?xml version=" ++ DQ ++ lit "1.0" ++ DQ ++ lit " encoding=" ++ DQ ++
  lit "UTF-8" ++ DQ ++ lit "?>" ++ NL ++
  lit "<feed xmlns=" ++ DQ ++ lit "http://www.w3.org/2005/Atom" ++ DQ ++ lit ">" ++ NL ++
  lit "<title>" ++ escape (c_str (stripped_name st)) ++
  lit ", branch HEAD</title>" ++ NL ++ lit "<subtitle>" ++
  escape (c_str (description st)) ++ lit "</subtitle>" ++ NL.

(** The text between the opening and the closing tag of the summary link,
    as [writelog] writes it. *)
Definition summary_cell (s : list ascii) : list ascii :=
  if Nat.ltb (summarylen cfg) (strlen s)
  then escape (c_prefix s (sub1 (summarylen cfg) (strlen s))) ++ ellipsis
  else escape (c_str s).

(** A row of the log, given the text of the summary link. *)
Definition log_row (ci : commitinfo) (txt : list ascii -> list ascii) : list ascii :=
  lit "<tr><td>" ++
  match author ci with
  | Some a => c_str (strftime_gmtime lc (lit "%Y-%m-%d %H:%M")
                       (time (when a) + offset (when a) * 60)%Z)
  | None => []
  end ++
  lit "</td><td>" ++
  match summary ci with
  | Some s =>
      lit "<a href=" ++ DQ ++ lit "commit/" ++ c_str (oid ci) ++ lit ".html" ++ DQ ++
      lit ">" ++ txt s ++ lit "</a>"
  | None => []
  end ++
  lit "</td><td>" ++
  match author ci with
  | Some a => escape (c_str (sig_name a))
  | None => []
  end ++
  lit "</td><td class=" ++ DQ ++ lit "num" ++ DQ ++ lit ">" ++ fmt_u (filecount ci) ++
  lit "</td><td class=" ++ DQ ++ lit "num" ++ DQ ++ lit ">+" ++ fmt_u (addcount ci) ++
  lit "</td><td class=" ++ DQ ++ lit "num" ++ DQ ++ lit ">-" ++ fmt_u (delcount ci) ++
  lit "</td></tr>" ++ NL.

(** The reference belongs to the table of class [j] (0: branches, 1: tags). *)
Definition in_class (j : nat) (r : git_reference) : bool :=
  (reference_is_branch r && Nat.eqb j 0) || (reference_is_tag r && Nat.eqb j 1).

(** What the lookups of [writerefs] give for one reference: one of the four
    failures, a reference of a type it passes over, or the resolved
    reference with the snapshot of its commit. *)
Inductive resolution :=
| Unresolved
| NoTarget
| Unpeeled
| NoSnapshot
| Skipped
| Resolved (r : git_reference) (ci : commitinfo).

Definition resolve_target (r : git_reference) : resolution :=
  match reference_target r with
  | None => NoTarget
  | Some _ =>
      match git_reference_peel repo r with
      | None => Unpeeled
      | Some obj =>
          match object_id obj with
          | None => Unpeeled
          | Some i =>
              match commitinfo_getbyoid repo i with
              | None => NoSnapshot
              | Some ci => Resolved r ci
              end
          end
      end
  end.

Definition resolve_ref (ref : git_reference) : resolution :=
  match reference_type ref with
  | GIT_REF_SYMBOLIC =>
      match git_reference_resolve repo ref with
      | None => Unresolved
      | Some dref => resolve_target dref
      end
  | GIT_REF_OID => resolve_target ref
  | GIT_REF_INVALID => Skipped
  end.

(** The heading and the head of the table of class [j]. *)
Definition table_open (j : nat) : list ascii :=
  lit "<h2>" ++ titles j ++ lit "</h2><table id=" ++ DQ ++ ids j ++ DQ ++
  lit "><thead>" ++ NL ++ lit "<tr><td>" ++ cols j ++ lit "</td>" ++
  lit "<td>Age</td><td>Author</td>" ++ NL ++ lit "</tr>" ++ NL ++
  lit "</thead><tbody>" ++ NL.

Definition table_close : list ascii := lit "</tbody></table><br/>".

(** The four failures of the claim; the first three leave by [goto err]. *)
Definition failed (x : resolution) : bool :=
  match x with
  | Unresolved | NoTarget | Unpeeled | NoSnapshot => true
  | _ => false
  end.

Definition aborting (x : resolution) : bool :=
  match x with
  | Unresolved | NoTarget | Unpeeled => true
  | _ => false
  end.

(** The text of the row of a reference: the shorthand name of the
    reference it resolves to, escaped, the time of its commit and the name of
    the author, escaped. *)
Definition row_text (x : git_reference * commitinfo) : list ascii :=
  lit "<tr><td>" ++ escape (c_str (reference_shorthand x.1)) ++
  lit "</td><td>" ++
  match author x.2 with
  | Some a => c_str (strftime_gmtime lc (lit "%Y-%m-%d %H:%M")
                       (time (when a) + offset (when a) * 60)%Z)
  | None => []
  end ++
  lit "</td><td>" ++
  match author x.2 with
  | Some a => escape (c_str (sig_name a))
  | None => []
  end ++
  lit "</td></tr>" ++ NL.

Definition resolved (r : git_reference) : option (git_reference * commitinfo) :=
  match resolve_ref r with
  | Resolved r' ci => Some (r', ci)
  | _ => None
  end.

(** The rows of the table of class [j]: the references of the class, in the
    order of the array, except those of a type [writerefs] passes over. *)
Definition class_rows (j : nat) (refs : list git_reference)
    : list (git_reference * commitinfo) :=
  omap resolved (filter (fun r => in_class j r = true) refs).

(** The table of class [j]: nothing when it has no row. *)
Definition table (j : nat) (rows : list (git_reference * commitinfo)) : list ascii :=
  match rows with
  | [] => []
  | _ => table_open j ++ flat_map row_text rows ++ table_close
  end.

(** The reference is of a type [writerefs] writes a row for. *)
Definition listed (r : git_reference) : bool :=
  match reference_type r with
  | GIT_REF_INVALID => false
  | _ => true
  end.

Definition no_failure (j : nat) (r : git_reference) : Prop :=
  in_class j r = true -> failed (resolve_ref r) = false.

Definition refs_le (a b : git_reference) : Prop := (refs_cmp a b <= 0)%Z.

Definition shorthand_le (a b : git_reference) : Prop :=
  (strcmp (reference_shorthand a) (reference_shorthand b) <= 0)%Z.

(** The claim C5 on the comparator, as it is worded: a branch compares
    below a tag. *)
Definition branches_sort_first : Prop :=
  forall b t,
    reference_is_branch b = true ->
    reference_is_tag t = true -> reference_is_branch t = false ->
    (refs_cmp b t < 0)%Z.

End Vocabulary.

(** The summary text the claim C7 words: the summary cut to [summarylen]
    bytes, then the ellipsis. *)
Definition budget_cell (cfg : config) (s : list ascii) : list ascii :=
  if Nat.ltb (summarylen cfg) (strlen s)
  then escape (take (summarylen cfg) (c_str s)) ++ ellipsis
  else escape (c_str s).

(** The claim C3 as it is worded, for one call: whenever a reference of one
    of the two classes fails to resolve, the call gives its caller an error
    value. *)
Definition fails_fast (repo : git_repository) (lc : libc) (fp : FILE) (st : state)
    : Prop :=
  forall collected ref,
    git_reference_list repo = Some collected ->
    In ref collected ->
    in_class 0 ref || in_class 1 ref = true ->
    failed (resolve_ref repo ref) = true ->
    exists fp' v st',
      writerefs repo lc fp st = Returned (fp', v) st' /\ v <> 0%Z.


(** * The rest of the program *)

(** ** filemode *)

(** The file type and permission bits of <sys/stat.h>. *)
Definition S_IFMT : Z := 0xF000.
Definition S_IFSOCK : Z := 0xC000.
Definition S_IFLNK : Z := 0xA000.
Definition S_IFREG : Z := 0x8000.
Definition S_IFBLK : Z := 0x6000.
Definition S_IFDIR : Z := 0x4000.
Definition S_IFCHR : Z := 0x2000.
Definition S_IFIFO : Z := 0x1000.
Definition S_ISUID : Z := 0x800.
Definition S_ISGID : Z := 0x400.
Definition S_ISVTX : Z := 0x200.
Definition S_IRUSR : Z := 0x100.
Definition S_IWUSR : Z := 0x80.
Definition S_IXUSR : Z := 0x40.
Definition S_IRGRP : Z := 0x20.
Definition S_IWGRP : Z := 0x10.
Definition S_IXGRP : Z := 0x8.
Definition S_IROTH : Z := 0x4.
Definition S_IWOTH : Z := 0x2.
Definition S_IXOTH : Z := 0x1.

Definition S_ISREG (m : Z) : bool := (Z.land m S_IFMT =? S_IFREG)%Z.
Definition S_ISBLK (m : Z) : bool := (Z.land m S_IFMT =? S_IFBLK)%Z.
Definition S_ISCHR (m : Z) : bool := (Z.land m S_IFMT =? S_IFCHR)%Z.
Definition S_ISDIR (m : Z) : bool := (Z.land m S_IFMT =? S_IFDIR)%Z.
Definition S_ISFIFO (m : Z) : bool := (Z.land m S_IFMT =? S_IFIFO)%Z.
Definition S_ISLNK (m : Z) : bool := (Z.land m S_IFMT =? S_IFLNK)%Z.
Definition S_ISSOCK (m : Z) : bool := (Z.land m S_IFMT =? S_IFSOCK)%Z.

(** The test [m & bit]. *)
Definition has_bit (m bit : Z) : bool := negb (Z.land m bit =? 0)%Z.

(** [mode[i]], for the array [mode] of [filemode]. *)
Definition mode_at (mode : list ascii) (i : nat) : ascii := nth i mode NUL.

(** [if (S_ISREG(m)) mode[0] = '-'; else if ... else mode[0] = '?';] *)
Definition set_type (m : Z) (mode : list ascii) : list ascii :=
  if S_ISREG m then <[0 := "-"]> mode
  else if S_ISBLK m then <[0 := "b"]> mode
  else if S_ISCHR m then <[0 := "c"]> mode
  else if S_ISDIR m then <[0 := "d"]> mode
  else if S_ISFIFO m then <[0 := "p"]> mode
  else if S_ISLNK m then <[0 := "l"]> mode
  else if S_ISSOCK m then <[0 := "s"]> mode
  else <[0 := "?"]> mode.

(** [if (m & bit) mode[i] = c;] *)
Definition set_perm (m bit : Z) (i : nat) (c : ascii) (mode : list ascii) : list ascii :=
  if has_bit m bit then <[i := c]> mode else mode.

(** [if (m & bit) mode[i] = (mode[i] == 'x') ? lower : upper;] *)
Definition set_special (m bit : Z) (i : nat) (lower upper : ascii)
    (mode : list ascii) : list ascii :=
  if has_bit m bit
  then <[i := if Ascii.eqb (mode_at mode i) "x" then lower else upper]> mode
  else mode.

(** [filemode(m)]: the ten characters of the static array [mode] (its
    eleventh byte is the terminator), statement by statement. *)
Definition filemode (m : Z) : list ascii :=
  let mode := replicate 10 "-" in
  let mode := set_type m mode in
  let mode := set_perm m S_IRUSR 1 "r" mode in
  let mode := set_perm m S_IWUSR 2 "w" mode in
  let mode := set_perm m S_IXUSR 3 "x" mode in
  let mode := set_perm m S_IRGRP 4 "r" mode in
  let mode := set_perm m S_IWGRP 5 "w" mode in
  let mode := set_perm m S_IXGRP 6 "x" mode in
  let mode := set_perm m S_IROTH 7 "r" mode in
  let mode := set_perm m S_IWOTH 8 "w" mode in
  let mode := set_perm m S_IXOTH 9 "x" mode in
  let mode := set_special m S_ISUID 3 "s" "S" mode in
  let mode := set_special m S_ISGID 6 "s" "S" mode in
  let mode := set_special m S_ISVTX 9 "t" "T" mode in
  mode.

(** *** Reading a mode string back *)

(** The bits a permission character stands for: [plain] for the letter of
    the permission, [both] and [special] for the two letters of the
    set-id or sticky bit with and without execute permission. *)
Definition char_bits (c plain both special : ascii) (bit sbit : Z) : Z :=
  if Ascii.eqb c plain then bit
  else if Ascii.eqb c both then (bit + sbit)%Z
  else if Ascii.eqb c special then sbit
  else 0%Z.

(** The twelve permission bits a mode string shows. *)
Definition mode_bits (s : list ascii) : Z :=
  (char_bits (mode_at s 1) "r" "r" "r" S_IRUSR 0 +
   char_bits (mode_at s 2) "w" "w" "w" S_IWUSR 0 +
   char_bits (mode_at s 3) "x" "s" "S" S_IXUSR S_ISUID +
   char_bits (mode_at s 4) "r" "r" "r" S_IRGRP 0 +
   char_bits (mode_at s 5) "w" "w" "w" S_IWGRP 0 +
   char_bits (mode_at s 6) "x" "s" "S" S_IXGRP S_ISGID +
   char_bits (mode_at s 7) "r" "r" "r" S_IROTH 0 +
   char_bits (mode_at s 8) "w" "w" "w" S_IWOTH 0 +
   char_bits (mode_at s 9) "x" "t" "T" S_IXOTH S_ISVTX)%Z.

(** The file type a mode string shows in its first character; [None] for
    the question mark. *)
Definition mode_type (s : list ascii) : option Z :=
  match mode_at s 0 with
  | "-" => Some S_IFREG
  | "b" => Some S_IFBLK
  | "c" => Some S_IFCHR
  | "d" => Some S_IFDIR
  | "p" => Some S_IFIFO
  | "l" => Some S_IFLNK
  | "s" => Some S_IFSOCK
  | _ => None
  end.

(** The file types [filemode] knows. *)
Definition known_type (t : Z) : bool :=
  (t =? S_IFREG)%Z || (t =? S_IFBLK)%Z || (t =? S_IFCHR)%Z || (t =? S_IFDIR)%Z
  || (t =? S_IFIFO)%Z || (t =? S_IFLNK)%Z || (t =? S_IFSOCK)%Z.

(** The character [filemode] chooses for the file type. *)
Definition type_char (m : Z) : ascii :=
  if S_ISREG m then "-"
  else if S_ISBLK m then "b"
  else if S_ISCHR m then "c"
  else if S_ISDIR m then "d"
  else if S_ISFIFO m then "p"
  else if S_ISLNK m then "l"
  else if S_ISSOCK m then "s"
  else "?".

(** The statements of [filemode] after the choice of the first character. *)
Definition filemode_perms (m : Z) (mode : list ascii) : list ascii :=
  set_special m S_ISVTX 9 "t" "T"
    (set_special m S_ISGID 6 "s" "S"
       (set_special m S_ISUID 3 "s" "S"
          (set_perm m S_IXOTH 9 "x"
             (set_perm m S_IWOTH 8 "w"
                (set_perm m S_IROTH 7 "r"
                   (set_perm m S_IXGRP 6 "x"
                      (set_perm m S_IWGRP 5 "w"
                         (set_perm m S_IRGRP 4 "r"
                            (set_perm m S_IXUSR 3 "x"
                               (set_perm m S_IWUSR 2 "w"
                                  (set_perm m S_IRUSR 1 "r" mode))))))))))).

Definition filemode_from (t : ascii) (m : Z) : list ascii :=
  filemode_perms m (<[0 := t]> (replicate 10 "-")).

(** What is checked of [filemode_from t m] for each [m] below [2^12]. *)
Definition filemode_from_ok (t : ascii) (m : Z) : bool :=
  (mode_bits (filemode_from t m) =? m)%Z
  && Nat.eqb (length (filemode_from t m)) 10
  && forallb (fun c => negb (is_nul c)) (tail (filemode_from t m)).

(** ** Vocabulary of the further properties *)

(** The four characters that may not appear in escaped text. *)
Definition markup_char (c : ascii) : bool :=
  match c with
  | "<" | ">" | "'" | "034" => true
  | _ => false
  end.

(** The options [commitinfo_getbyoid] gives to [git_diff_tree_to_tree]. *)
Definition diff_opts : git_diff_options := mkOpts GIT_DIFF_DISABLE_PATHSPEC_MATCH.

(** A repository cut below the commit [oid_cut]: the parent it names is
    not in the object database. *)
Definition oid_cut : git_oid := lit "4444444444444444444444444444444444444444".

Definition commit_cut : git_commit :=
  mkCommit oid_cut [oid_lost] (Some sig0) (Some (lit "cut"))
           (Some (lit "cut" ++ NL)) (lit "cccc").

Definition repo_cut : git_repository :=
  mkRepo (fun i => if decide (i = oid_cut) then Some commit_cut else None)
         (git_tree_lookup repo0) (git_diff_tree_to_tree repo0)
         (git_diff_get_stats repo0) (fun _ => [oid_cut]) (Some [])
         (git_reference_resolve repo0) (git_reference_peel repo0).

(** The repository [repo0] when the tree of its first commit cannot be read. *)
Definition repo_badtree : git_repository :=
  mkRepo (git_commit_lookup repo0)
         (fun t => if decide (t = lit "aaaa") then None else Some t)
         (git_diff_tree_to_tree repo0) (git_diff_get_stats repo0)
         (git_revwalk_ids repo0) (git_reference_list repo0)
         (git_reference_resolve repo0) (git_reference_peel repo0).

(** The variables of the program other than the output directory. *)
Definition globals_of (st : state) :=
  (relpath st, name st, stripped_name st, description st, cloneurl st,
   hasreadme st, haslicense st).

(** The same without the cursor. *)
Definition meta_of (st : state) :=
  (name st, stripped_name st, description st, cloneurl st,
   hasreadme st, haslicense st).

(** Every entry of [m'] that is not in [m] is a directory. *)
Definition only_new_dirs (m m' : gmap (list ascii) node) : Prop :=
  forall p n, m' !! p = Some n -> m !! p = Some n \/ (m !! p = None /\ n = Dir).

(** The number of slashes of a path. *)
Definition slashes (p : list ascii) : nat :=
  length (List.filter (fun c => Ascii.eqb c "/") p).

(** [k] times one directory up. *)
Definition up_dirs (k : nat) : list ascii := concat (replicate k (lit "../")).

(** A blob that is binary, and one with other content. *)
Definition blob_bin : git_blob := mkBlob (lit "ab" ++ [NUL] ++ lit "cd") true.
Definition blob_bin' : git_blob := mkBlob (lit "xyz") true.

(** The walk [writelog] asks for: from the commit [o], by commit time,
    first parents only. *)
Definition log_walk (o : git_oid) : git_revwalk :=
  git_revwalk_simplify_first_parent
    (git_revwalk_sorting GIT_SORT_TIME (git_revwalk_push o git_revwalk_new)).

(** The head and the end of the table of the log. *)
Definition log_open : list ascii :=
  lit "<table id=" ++ DQ ++ lit "log" ++ DQ ++ lit "><thead>" ++ NL ++
  lit "<tr><td>Age</td><td>Commit message</td>" ++
  lit "<td>Author</td><td>Files</td><td class=" ++ DQ ++ lit "num" ++ DQ ++ lit ">+</td>" ++
  lit "<td class=" ++ DQ ++ lit "num" ++ DQ ++ lit ">-</td></tr>" ++ NL ++
  lit "</thead><tbody>" ++ NL.

Definition log_close : list ascii := lit "</tbody></table>".

(** The rows of the log for the ids of a walk. *)
Definition log_rows (repo : git_repository) (lc : libc) (cfg : config)
    (ids : list git_oid) : list ascii :=
  flat_map (fun ci => log_row lc ci (summary_cell cfg)) (snapshots repo ids).

(** Every snapshot of the walk has something at the path of its page. *)
Definition pages_present (repo : git_repository) (ids : list git_oid)
    (m : gmap (list ascii) node) : Prop :=
  Forall (fun ci => is_Some (m !! commit_path (oid ci))) (snapshots repo ids).

(** What is in [m'] and not in [m] is a file at the path of the page of a
    snapshot of the walk. *)
Definition only_new_pages (repo : git_repository) (ids : list git_oid)
    (m m' : gmap (list ascii) node) : Prop :=
  forall p n, m' !! p = Some n ->
    m !! p = Some n \/
    (m !! p = None /\ exists ci text,
       In ci (snapshots repo ids) /\ p = commit_path (oid ci) /\ n = File text).

(** What [writelog] leaves and returns for [repo0], from [st_commit]. *)
Definition st_log : state := Eval vm_compute in
    match writelog repo0 libc0 cfg0 blank oid_head st_commit with
    | Returned _ s => s
    | Exited _ => st_commit
    end.

Definition r_log : FILE * Z := Eval vm_compute in
    match writelog repo0 libc0 cfg0 blank oid_head st_commit with
    | Returned r _ => r
    | Exited _ => (blank, 0%Z)
    end.

(** ** libgit2: trees *)

(** A tree by its entries, in the order of [git_tree_entry_byindex] (which
    gives an entry for every index below [git_tree_entrycount]), each with
    its name, its file mode and the object [git_tree_entry_to_object] gives
    for it: a blob, a tree, an object of another kind (the commit of a
    submodule), or [None] when the object cannot be loaded. *)
Inductive git_tree_data : Type :=
| TreeData (tree_entries : list git_tree_entry)
with git_tree_entry : Type :=
| mkEntry (entry_name : list ascii) (entry_filemode : Z)
          (entry_object : option git_tree_object)
with git_tree_object : Type :=
| ObjBlob (b : git_blob)
| ObjTree (t : git_tree_data)
| ObjOther.

(** ** The listing of the files *)

(** The separator [writefilestree] puts before the name: a slash unless
    [path] is empty. *)
Definition path_sep (path : list ascii) : list ascii :=
  match path with
  | c :: _ => if is_nul c then [] else lit "/"
  | [] => []
  end.

(** The buffer [entrypath] of [writefilestree]. *)
Definition entrypath (path entryname : list ascii) : list ascii :=
  snprintf PATH_MAX (c_str path ++ path_sep path ++ c_str entryname).

(** The buffer [filepath] of [writefilestree]. *)
Definition filepath (path entryname : list ascii) : list ascii :=
  match path with
  | c :: _ =>
      if is_nul c
      then snprintf PATH_MAX (lit "file/" ++ c_str entryname ++ lit ".html")
      else snprintf PATH_MAX (lit "file/" ++ c_str path ++ lit "/" ++
                              c_str entryname ++ lit ".html")
  | [] => snprintf PATH_MAX (lit "file/" ++ c_str entryname ++ lit ".html")
  end.

Section Files.

Variable repo : git_repository.
Variable cfg : config.

(** The entries behind a tree handle. *)
Variable git_tree_entries : git_tree -> git_tree_data.

(** The row [writefilestree] writes for a blob, from [fputs("<tr><td>")] to
    the end of the loop body; [lc] is what [writeblob] returned. *)
Definition writefilestree_row (fp : FILE) (mode : Z)
    (path entryname : list ascii) (filesize : nat) (lc : Z) : M FILE :=
  do rp <- gets relpath;
  let fp := fputs (lit "<tr><td>") fp in
  let fp := fputs (filemode mode) fp in
  let fp := fprintf (lit "</td><td><a href=" ++ DQ ++ c_str rp ++
                     c_str (filepath path entryname) ++ DQ ++ lit ">") fp in
  let fp := xmlencode_str fp (entrypath path entryname) in
  let fp := fputs (lit "</a></td><td class=" ++ DQ ++ lit "num" ++ DQ ++ lit ">") fp in
  let fp := if showlinecount cfg && (0 <? lc)%Z
            then fprintf (fmt_d lc ++ lit "L") fp
            else fprintf (fmt_u filesize ++ lit "B") fp in
  let fp := fputs (lit "</td></tr>" ++ NL) fp in
  ret fp.

(** [writefilestree]: the loop [for (i = 0; i < count; i++)] over the
    entries, which calls the function itself on the entries that are trees.
    The stream goes with the value it returns. *)
Fixpoint writefilestree (fp : FILE) (tree : git_tree_data)
    (branch path : list ascii) {struct tree} : M (FILE * Z) :=
  match tree with
  | TreeData entries =>
      (fix loop (entries : list git_tree_entry) (fp : FILE) {struct entries}
         : M (FILE * Z) :=
         match entries with
         | [] => ret (fp, 0%Z)
         | mkEntry entryname mode obj :: rest =>
             match obj with
             | None => ret (fp, (-1)%Z)
             | Some (ObjBlob blob) =>
                 let filesize := git_blob_rawsize blob in
                 do lc <- writeblob blob (filepath path entryname) entryname filesize;
                 do fp <- writefilestree_row fp mode path entryname filesize lc;
                 loop rest fp
             | Some (ObjTree sub) =>
                 do r <- writefilestree fp sub branch (entrypath path entryname);
                 if negb (snd r =? 0)%Z then ret r else loop rest (fst r)
             | Some ObjOther => loop rest fp
             end
         end) entries fp
  end.

Definition writefiles (fp : FILE) (id : git_oid) (branch : list ascii)
    : M (FILE * Z) :=
  let fp := fputs (lit "<table id=" ++ DQ ++ lit "files" ++ DQ ++ lit "><thead>" ++ NL ++
                   lit "<tr>" ++
                   lit "<td>Mode</td><td>Name</td><td class=" ++ DQ ++ lit "num" ++ DQ ++
                   lit ">Size</td>" ++
                   lit "</tr>" ++ NL ++ lit "</thead><tbody>" ++ NL) fp in
  do r <- match git_commit_lookup repo id with
          | None => ret (fp, (-1)%Z)
          | Some commit =>
              match git_commit_tree repo commit with
              | None => ret (fp, (-1)%Z)
              | Some tree => writefilestree fp (git_tree_entries tree) branch []
              end
          end;
  let fp := fputs (lit "</tbody></table>") (fst r) in
  ret (fp, snd r).

End Files.

(** The kind of an entry of the directory. *)
Definition same_kind (n n' : node) : bool :=
  match n, n' with
  | File _, File _ => true
  | Dir, Dir => true
  | _, _ => false
  end.

(** Every entry of [m] is in [m'] with its kind. *)
Definition kinds_kept (m m' : gmap (list ascii) node) : Prop :=
  forall p n, m !! p = Some n ->
    exists n', m' !! p = Some n' /\ same_kind n n' = true.

(** The size cell of a row: lines or bytes. *)
Definition size_cell (cfg : config) (filesize : nat) (lc : Z) : list ascii :=
  if showlinecount cfg && (0 <? lc)%Z
  then fmt_d lc ++ lit "L" else fmt_u filesize ++ lit "B".

(** The text of the row of a blob in the listing. *)
Definition files_row (cfg : config) (mode : Z) (rp path nm : list ascii)
    (filesize : nat) (lc : Z) : list ascii :=
  lit "<tr><td>" ++ filemode mode ++
  lit "</td><td><a href=" ++ DQ ++ c_str rp ++ filepath path nm ++ DQ ++ lit ">" ++
  escape (entrypath path nm) ++
  lit "</a></td><td class=" ++ DQ ++ lit "num" ++ DQ ++ lit ">" ++
  size_cell cfg filesize lc ++
  lit "</td></tr>" ++ NL.

(** The head and the end of the table of the listing. *)
Definition files_open : list ascii :=
  lit "<table id=" ++ DQ ++ lit "files" ++ DQ ++ lit "><thead>" ++ NL ++
  lit "<tr>" ++
  lit "<td>Mode</td><td>Name</td><td class=" ++ DQ ++ lit "num" ++ DQ ++
  lit ">Size</td>" ++
  lit "</tr>" ++ NL ++ lit "</thead><tbody>" ++ NL.

Definition files_close : list ascii := lit "</tbody></table>".

(** A reference of a remote: neither a branch nor a tag. *)
Definition ref_remote : git_reference :=
  mkRef false false (lit "origin/master") GIT_REF_OID (Some oid_head).

(** ** Trees with an entry that cannot be loaded *)

(** The entries of a tree. *)
Definition entries_of (t : git_tree_data) : list git_tree_entry :=
  match t with TreeData entries => entries end.

(** Some entry of the tree, at any depth, has an object that cannot be
    loaded. *)
Fixpoint has_failure (t : git_tree_data) : bool :=
  match t with
  | TreeData entries =>
      (fix any (entries : list git_tree_entry) : bool :=
         match entries with
         | [] => false
         | mkEntry _ _ None :: _ => true
         | mkEntry _ _ (Some (ObjTree sub)) :: rest => has_failure sub || any rest
         | mkEntry _ _ (Some _) :: rest => any rest
         end) entries
  end.

(** The tree up to and with the first entry, in the order of a depth-first
    walk, whose object cannot be loaded: what comes after that entry, in its
    directory and in the directories above, is left out. *)
Fixpoint cut (t : git_tree_data) : git_tree_data :=
  match t with
  | TreeData entries =>
      TreeData
        ((fix go (entries : list git_tree_entry) : list git_tree_entry :=
            match entries with
            | [] => []
            | mkEntry nm mode None :: _ => [mkEntry nm mode None]
            | mkEntry nm mode (Some (ObjTree sub)) :: rest =>
                if has_failure sub
                then [mkEntry nm mode (Some (ObjTree (cut sub)))]
                else mkEntry nm mode (Some (ObjTree sub)) :: go rest
            | e :: rest => e :: go rest
            end) entries)
  end.

(** ** A file below directories *)

(** The entry [leaf] below the directories [ds], each with its name and
    its file mode, the outermost first; every directory has one entry. *)
Fixpoint nest (ds : list (list ascii * Z)) (leaf : git_tree_entry)
    : git_tree_entry :=
  match ds with
  | [] => leaf
  | (d, mode) :: ds => mkEntry d mode (Some (ObjTree (TreeData [nest ds leaf])))
  end.

(** The names of the directories, each followed by a slash. *)
Definition dir_prefix (ds : list (list ascii * Z)) : list ascii :=
  concat (map (fun d => d.1 ++ lit "/") ds).

(** The row of the listing for a file shown as [shown] whose page is
    [page], when the cursor is [rp]. *)
Definition listing_row (cfg : config) (mode : Z) (rp page shown : list ascii)
    (filesize : nat) (lc : Z) : list ascii :=
  lit "<tr><td>" ++ filemode mode ++
  lit "</td><td><a href=" ++ DQ ++ c_str rp ++ page ++ DQ ++ lit ">" ++
  escape shown ++
  lit "</a></td><td class=" ++ DQ ++ lit "num" ++ DQ ++ lit ">" ++
  size_cell cfg filesize lc ++
  lit "</td></tr>" ++ NL.

(** A tree with the file [src/lib/main.c]. *)
Definition tree_nested : git_tree_data :=
  TreeData [nest [(lit "src", 16384%Z); (lit "lib", 16384%Z)]
              (mkEntry (lit "main.c") 33188%Z (Some (ObjBlob blob_hi_bye)))].

(** A tree where an entry two directories down cannot be loaded, with
    entries after it at every level. *)
Definition tree_broken : git_tree_data :=
  TreeData
    [mkEntry (lit "a.txt") 33188%Z (Some (ObjBlob blob_hi_bye));
     mkEntry (lit "src") 16384%Z (Some (ObjTree (TreeData
       [mkEntry (lit "lib") 16384%Z (Some (ObjTree (TreeData
          [mkEntry (lit "x.c") 33188%Z (Some (ObjBlob blob_hi_bye));
           mkEntry (lit "gone") 33188%Z None;
           mkEntry (lit "y.c") 33188%Z (Some (ObjBlob blob_hi_bye))])));
        mkEntry (lit "z.c") 33188%Z (Some (ObjBlob blob_hi_bye))])));
     mkEntry (lit "b.txt") 33188%Z (Some (ObjBlob blob_hi_bye))].

(** ** The C library: names, searches and reading *)

Fixpoint take_component (s : list ascii) : list ascii :=
  match s with
  | [] => []
  | "/" :: _ => []
  | c :: s' => c :: take_component s'
  end.

(** [basename(3)]: the last component of the path. *)
Definition basename (path : list ascii) : list ascii :=
  match drop_slashes (rev (c_str path)) with
  | [] => if strlen path is 0 then lit "." else lit "/"
  | r => rev (take_component r)
  end.

(** [xbasename]: a fresh copy of [basename(path)]. *)
Definition xbasename (path : list ascii) : list ascii := basename path.

(** [strrchr(s, c)] for a character [c] other than NUL: the index of the
    last [c] of the string, [None] for a null pointer.  [i] is the index of
    the head of [s] and [last] the last index found so far. *)
Fixpoint strrchr_from (s : list ascii) (c : ascii) (i : nat) (last : option nat)
    : option nat :=
  match s with
  | [] => last
  | x :: s' =>
      if is_nul x then last
      else strrchr_from s' c (S i) (if Ascii.eqb x c then Some i else last)
  end.

Definition strrchr (s : list ascii) (c : ascii) : option nat :=
  strrchr_from s c 0 None.

(** [strcspn(s, "\n")]: the number of characters before the first newline
    of the string. *)
Fixpoint strcspn_nl (s : list ascii) : nat :=
  match s with
  | [] => 0
  | c :: s' => if is_nul c || Ascii.eqb c "010" then 0 else S (strcspn_nl s')
  end.

(** The characters [fgets] stores for a buffer of [n + 1] bytes: up to [n]
    of them, through the first newline. *)
Fixpoint fgets_line (n : nat) (s : list ascii) : list ascii :=
  match n, s with
  | S n', c :: s' => if Ascii.eqb c "010" then [c] else c :: fgets_line n' s'
  | _, _ => []
  end.

(** [fgets(buf, size, fp)] on a stream with [content] left to read: [None]
    for the null pointer it returns at the end of the file. *)
Definition fgets (size : nat) (content : list ascii) : option (list ascii) :=
  match content with
  | [] => None
  | _ => Some (fgets_line (size - 1) content)
  end.

(** [fopen(path, "r")]: what is left to read, or [None] for the null
    pointer.  A directory opens and gives nothing to read. *)
Definition fopen_r (path : list ascii) (st : state) : option (list ascii) :=
  match fs st !! path with
  | Some (File content) => Some content
  | Some Dir => Some []
  | None => None
  end.

(** ** libgit2: opening the repository *)

Record git_error := mkError {
  klass : Z;
  message : list ascii
}.

Definition GIT_REPOSITORY_OPEN_NO_SEARCH : Z := Z.shiftl 1 0.

(** The variables of the program that [main] sets. *)
Definition set_name (v : list ascii) (st : state) : state :=
  mkState (relpath st) v (stripped_name st) (description st) (cloneurl st)
          (hasreadme st) (haslicense st) (fs st).

Definition set_stripped_name (v : list ascii) (st : state) : state :=
  mkState (relpath st) (name st) v (description st) (cloneurl st)
          (hasreadme st) (haslicense st) (fs st).

Definition set_description (v : list ascii) (st : state) : state :=
  mkState (relpath st) (name st) (stripped_name st) v (cloneurl st)
          (hasreadme st) (haslicense st) (fs st).

Definition set_cloneurl (v : list ascii) (st : state) : state :=
  mkState (relpath st) (name st) (stripped_name st) (description st) v
          (hasreadme st) (haslicense st) (fs st).

Definition set_hasreadme (v : bool) (st : state) : state :=
  mkState (relpath st) (name st) (stripped_name st) (description st) (cloneurl st)
          v (haslicense st) (fs st).

Definition set_haslicense (v : bool) (st : state) : state :=
  mkState (relpath st) (name st) (stripped_name st) (description st) (cloneurl st)
          (hasreadme st) v (fs st).

(** ** The program: main *)

Section Main.

Variable lc : libc.
Variable cfg : config.
Variable git_tree_entries : git_tree -> git_tree_data.

(** [git_repository_open_ext(&repo, path, flags, NULL)]: the status and the
    repository, which is meaningful for a status that is not negative. *)
Variable git_repository_open_ext : list ascii -> Z -> Z * git_repository.

(** [giterr_last()] after the repository could not be opened. *)
Variable giterr_last : git_error.

(** [git_revparse_single(&obj, repo, spec)]: the id of the object found. *)
Variable git_revparse_single : git_repository -> list ascii -> option git_oid.

(** The separator [main] puts after [repodir]: a slash unless the character
    at [strlen(repodir)] is one. *)
Definition repodir_sep (repodir : list ascii) : list ascii :=
  if Ascii.eqb (nth (strlen repodir) repodir NUL) "/" then [] else lit "/".

(** The block of [main] that strips the suffix [.git] from the name. *)
Definition strip_git (nm : list ascii) : list ascii :=
  match strrchr nm "." with
  | Some p =>
      if (strcmp (drop p nm) (lit ".git") =? 0)%Z then <[p := NUL]> nm else nm
  | None => nm
  end.

(** The file [main] reads a variable from: [first] under [repodir], or
    else [second]; [None] when neither opens. *)
Definition open_either (repodir first second : list ascii) : M (option (list ascii)) :=
  let path := snprintf PATH_MAX (c_str repodir ++ c_str (repodir_sep repodir) ++ first) in
  do fpread <- gets (fopen_r path);
  match fpread with
  | Some content => ret (Some content)
  | None =>
      let path := snprintf PATH_MAX (c_str repodir ++ c_str (repodir_sep repodir) ++ second) in
      gets (fopen_r path)
  end.

(** The block of [main] that reads [description] or [.git/description]. *)
Definition read_description (repodir : list ascii) : M unit :=
  do fpread <- open_either repodir (lit "description") (lit ".git/description");
  match fpread with
  | Some content =>
      match fgets 255 content with
      | Some line => modify (set_description line)
      | None => modify (set_description [])
      end
  | None => ret tt
  end.

(** The block of [main] that reads [url] or [.git/url]. *)
Definition read_url (repodir : list ascii) : M unit :=
  do fpread <- open_either repodir (lit "url") (lit ".git/url");
  match fpread with
  | Some content =>
      do _ <- match fgets 1024 content with
              | Some line => modify (set_cloneurl line)
              | None => modify (set_cloneurl [])
              end;
      modify (fun st => set_cloneurl (take (strcspn_nl (cloneurl st)) (cloneurl st)) st)
  | None => ret tt
  end.

(** The blocks of [main] that write the four pages. *)
Definition log_page (repo : git_repository) (head : git_oid) : M unit :=
  do fp <- efopen (lit "log.html");
  do _ <- modify (set_relpath []);
  do h <- writeheader fp;
  do _ <- modify (fun st => snd (mkdir_fails (lit "commit") st));
  do r <- writelog repo lc cfg (fst h) head;
  let fp := writefooter (fst r) in
  fclose fp.

Definition files_page (repo : git_repository) (head : git_oid) : M unit :=
  do fp <- efopen (lit "files.html");
  do h <- writeheader fp;
  do r <- writefiles repo cfg git_tree_entries (fst h) head (lit "HEAD");
  let fp := writefooter (fst r) in
  fclose fp.

Definition refs_page (repo : git_repository) : M unit :=
  do fp <- efopen (lit "refs.html");
  do h <- writeheader fp;
  do r <- writerefs repo lc (fst h);
  let fp := writefooter (fst r) in
  fclose fp.

Definition atom_page (repo : git_repository) : M unit :=
  do fp <- efopen (lit "atom.xml");
  do r <- writeatom repo lc fp;
  fclose (fst r).

(** [main(argc, argv)], with [argc] the length of [argv]; the second
    component of the result is the status it returns and the first is the
    standard error stream. *)
Definition main (argv : list (list ascii)) (stderr : FILE) : M (FILE * Z) :=
  if negb (length argv =? 2)%nat
  then ret (fprintf (c_str (nth 0 argv []) ++ lit " <repodir>" ++ NL) stderr, 1%Z)
  else
    let repodir := nth 1 argv [] in
    let '(status, repo) := git_repository_open_ext repodir GIT_REPOSITORY_OPEN_NO_SEARCH in
    if (status <? 0)%Z
    then
      let e := giterr_last in
      ret (fprintf (lit "error " ++ fmt_d status ++ lit "/" ++ fmt_d (klass e) ++
                    lit ": " ++ c_str (message e) ++ NL) stderr, status)
    else
      match git_revparse_single repo (lit "HEAD") with
      | None => ret (stderr, 1%Z)
      | Some head =>
          let nm := xbasename repodir in
          do _ <- modify (set_name nm);
          do _ <- modify (set_stripped_name (strip_git nm));
          do _ <- read_description repodir;
          do _ <- read_url repodir;
          do _ <- modify (set_haslicense
                    (bool_decide (is_Some (git_revparse_single repo (lit "HEAD:LICENSE")))));
          do _ <- modify (set_hasreadme
                    (bool_decide (is_Some (git_revparse_single repo (lit "HEAD:README")))));
          do _ <- log_page repo head;
          do _ <- files_page repo head;
          do _ <- refs_page repo;
          do _ <- atom_page repo;
          ret (stderr, 0%Z)
      end.

End Main.

(** From [st] to [st'] no entry of the directory was removed or changed
    its kind, and the variables other than the cursor are the same. *)
Definition kept (st st' : state) : Prop :=
  kinds_kept (fs st) (fs st') /\ meta_of st' = meta_of st.

(** Something is a file at [path]. *)
Definition is_file (path : list ascii) (st : state) : Prop :=
  exists text, fs st !! path = Some (File text).

(** The block [c] writes the page [path]: when it returns the page is a
    file and the rest is kept; when the process ends the status is 1. *)
Definition writes_page {A} (path : list ascii) (c : M A) : Prop :=
  forall st,
    match c st with
    | Returned _ st' => kept st st' /\ is_file path st'
    | Exited n => n = 1%Z
    end.

(** The four pages of [main]. *)
Definition main_pages : list (list ascii) :=
  [lit "log.html"; lit "files.html"; lit "refs.html"; lit "atom.xml"].

(** The line [fgets] leaves in a buffer of [size] bytes, empty at the end
    of the file. *)
Definition first_line (size : nat) (content : list ascii) : list ascii :=
  match fgets size content with
  | Some line => line
  | None => []
  end.

(** The path of the file [file] of the repository, as [main] builds it. *)
Definition variable_file (repodir file : list ascii) : list ascii :=
  snprintf PATH_MAX (c_str repodir ++ lit "/" ++ file).

(** What is read from [first], or else from [second]. *)
Definition read_either (repodir first second : list ascii) (st : state)
    : option (list ascii) :=
  match fopen_r (variable_file repodir first) st with
  | Some content => Some content
  | None => fopen_r (variable_file repodir second) st
  end.

(** The description and the clone URL [main] ends up with. *)
Definition description_read (repodir : list ascii) (st : state) : list ascii :=
  match read_either repodir (lit "description") (lit ".git/description") st with
  | Some content => first_line 255 content
  | None => description st
  end.

Definition cloneurl_read (repodir : list ascii) (st : state) : list ascii :=
  match read_either repodir (lit "url") (lit ".git/url") st with
  | Some content =>
      take (strcspn_nl (first_line 1024 content)) (first_line 1024 content)
  | None => cloneurl st
  end.

(** The state [main] has set up when it starts to write the pages. *)
Definition main_setup (git_revparse_single : git_repository -> list ascii -> option git_oid)
    (repo : git_repository) (repodir : list ascii) (st : state) : state :=
  mkState (relpath st) (xbasename repodir) (strip_git (xbasename repodir))
          (description_read repodir st) (cloneurl_read repodir st)
          (bool_decide (is_Some (git_revparse_single repo (lit "HEAD:README"))))
          (bool_decide (is_Some (git_revparse_single repo (lit "HEAD:LICENSE"))))
          (fs st).

(** The message of [main] for a wrong number of arguments, and the one for
    a repository that cannot be opened. *)
Definition usage (argv : list (list ascii)) : list ascii :=
  c_str (nth 0 argv []) ++ lit " <repodir>" ++ NL.

Definition open_error (status : Z) (e : git_error) : list ascii :=
  lit "error " ++ fmt_d status ++ lit "/" ++ fmt_d (klass e) ++ lit ": " ++
  c_str (message e) ++ NL.

(** A run of [main]: the repository [repo0] in the directory [stagit.git],
    with a description and a clone URL, and one file in the tree of HEAD. *)
Definition open0 (path : list ascii) (flags : Z) : Z * git_repository := (0%Z, repo0).

Definition open_fails (path : list ascii) (flags : Z) : Z * git_repository :=
  ((-3)%Z, repo0).

Definition giterr0 : git_error := mkError 2 (lit "could not find repository").

Definition revparse0 (repo : git_repository) (spec : list ascii) : option git_oid :=
  if decide (spec = lit "HEAD") then Some oid_head
  else if decide (spec = lit "HEAD:README") then Some (lit "4444")
  else None.

Definition tree0 (t : git_tree) : git_tree_data :=
  TreeData [mkEntry (lit "a.txt") 33188 (Some (ObjBlob blob_hi_bye));
            mkEntry (lit "sub") 57344 (Some ObjOther)].

Definition argv0 : list (list ascii) := [lit "stagit"; lit "stagit.git"].

Definition st_repo : state :=
  mkState [] [] [] [] [] false false
          {[ lit "stagit.git/description" := File (lit "static pages" ++ NL ++ lit "more");
             lit "stagit.git/.git/url" := File (lit "git://example.org/stagit" ++ NL) ]}.

Definition st_main : state := Eval vm_compute in
    match main libc0 cfg0 tree0 open0 giterr0 revparse0 argv0 blank st_repo with
    | Returned _ s => s
    | Exited _ => st_repo
    end.


(** * Properties *)

(** ** Strings and streams *)

Lemma is_nul_true c : is_nul c = true -> c = NUL.
Proof. unfold is_nul. intros H. by apply Ascii.eqb_eq. Qed.

Lemma is_nul_false c : is_nul c = false -> c <> NUL.
Proof. unfold is_nul. intros H. by apply Ascii.eqb_neq. Qed.

Lemma strlen_le s : strlen s <= length s.
Proof. induction s as [|c s IH]; simpl; [lia|]. destruct (is_nul c); simpl; lia. Qed.

Lemma c_str_no_nul s : Forall (fun c => c <> NUL) (c_str s).
Proof.
  unfold c_str. induction s as [|c s IH]; simpl; [constructor|].
  destruct (is_nul c) eqn:E; simpl; [constructor|].
  constructor; [by apply is_nul_false | done].
Qed.

Lemma strlen_no_nul s : Forall (fun c => c <> NUL) s -> strlen s = length s.
Proof.
  induction 1 as [|c s Hc _ IH]; simpl; [done|].
  destruct (is_nul c) eqn:E; [by apply is_nul_true in E | by rewrite IH].
Qed.

Lemma c_str_id s : Forall (fun c => c <> NUL) s -> c_str s = s.
Proof. intros H. unfold c_str. rewrite (strlen_no_nul _ H). apply firstn_all. Qed.

Lemma c_str_idemp s : c_str (c_str s) = c_str s.
Proof. apply c_str_id, c_str_no_nul. Qed.

(** ** Streams: what each operation leaves *)

Lemma FILE_eq (a b : FILE) :
  f_path a = f_path b -> f_buf a = f_buf b -> f_err a = f_err b -> a = b.
Proof. destruct a, b; simpl; by intros -> -> ->. Qed.

Lemma fputs_buf s fp : f_buf (fputs s fp) = f_buf fp ++ c_str s.
Proof. reflexivity. Qed.
Lemma fputc_buf c fp : f_buf (fputc c fp) = f_buf fp ++ [c].
Proof. reflexivity. Qed.
Lemma fprintf_buf s fp : f_buf (fprintf s fp) = f_buf fp ++ s.
Proof. reflexivity. Qed.
Lemma fputs_path s fp : f_path (fputs s fp) = f_path fp.
Proof. reflexivity. Qed.
Lemma fputc_path c fp : f_path (fputc c fp) = f_path fp.
Proof. reflexivity. Qed.
Lemma fprintf_path s fp : f_path (fprintf s fp) = f_path fp.
Proof. reflexivity. Qed.
Lemma fputs_err s fp : f_err (fputs s fp) = f_err fp.
Proof. reflexivity. Qed.
Lemma fputc_err c fp : f_err (fputc c fp) = f_err fp.
Proof. reflexivity. Qed.
Lemma fprintf_err s fp : f_err (fprintf s fp) = f_err fp.
Proof. reflexivity. Qed.

Create Rewrite HintDb stream.
#[local] Hint Rewrite fputs_buf fputc_buf fprintf_buf fputs_path fputc_path
  fprintf_path fputs_err fputc_err fprintf_err : stream.

(** ** xmlencode *)

Lemma xmlencode_char_buf c fp :
  f_buf (xmlencode_char c fp) = f_buf fp ++ entity c.
Proof.
  destruct c as [[] [] [] [] [] [] [] []]; reflexivity.
Qed.

Lemma xmlencode_char_path c fp : f_path (xmlencode_char c fp) = f_path fp.
Proof. destruct c as [[] [] [] [] [] [] [] []]; reflexivity. Qed.

Lemma xmlencode_char_err c fp : f_err (xmlencode_char c fp) = f_err fp.
Proof. destruct c as [[] [] [] [] [] [] [] []]; reflexivity. Qed.

Lemma c_prefix_nil len : c_prefix [] len = [].
Proof. reflexivity. Qed.

Lemma c_prefix_0 s : c_prefix s 0 = [].
Proof. unfold c_prefix. by rewrite Nat.min_0_r. Qed.

Lemma c_prefix_nul c s len : is_nul c = true -> c_prefix (c :: s) len = [].
Proof. intros H. unfold c_prefix. simpl. by rewrite H. Qed.

Lemma c_prefix_cons c s len :
  is_nul c = false -> c_prefix (c :: s) (S len) = c :: c_prefix s len.
Proof. intros H. unfold c_prefix. simpl. by rewrite H. Qed.

Lemma xmlencode_buf s : forall len fp,
  f_buf (xmlencode fp s len) = f_buf fp ++ escape (c_prefix s len).
Proof.
  induction s as [|c s IH]; intros len fp.
  - rewrite c_prefix_nil. destruct len; simpl; by rewrite app_nil_r.
  - destruct len as [|len].
    + rewrite c_prefix_0. simpl. by rewrite app_nil_r.
    + simpl. destruct (is_nul c) eqn:E.
      * rewrite c_prefix_nul by done. simpl. by rewrite app_nil_r.
      * rewrite IH, xmlencode_char_buf, c_prefix_cons by done.
        simpl. by rewrite app_assoc.
Qed.

Lemma xmlencode_path s : forall len fp, f_path (xmlencode fp s len) = f_path fp.
Proof.
  induction s as [|c s IH]; intros [|len] fp; simpl; try done.
  destruct (is_nul c); [done|]. by rewrite IH, xmlencode_char_path.
Qed.

Lemma xmlencode_err s : forall len fp, f_err (xmlencode fp s len) = f_err fp.
Proof.
  induction s as [|c s IH]; intros [|len] fp; simpl; try done.
  destruct (is_nul c); [done|]. by rewrite IH, xmlencode_char_err.
Qed.

Lemma unescape_entity c rest : unescape (entity c ++ rest) = c :: unescape rest.
Proof.
  destruct c as [[] [] [] [] [] [] [] []]; reflexivity.
Qed.

Lemma unescape_escape p : unescape (escape p) = p.
Proof.
  induction p as [|c p IH]; [done|].
  unfold escape in *. simpl. by rewrite unescape_entity, IH.
Qed.

Lemma entity_other c : reserved c = false -> entity c = [c].
Proof. destruct c as [[] [] [] [] [] [] [] []]; simpl; intros; done. Qed.

#[local] Hint Rewrite xmlencode_buf xmlencode_path xmlencode_err : stream.

Lemma xmlencode_str_path fp s : f_path (xmlencode_str fp s) = f_path fp.
Proof. apply xmlencode_path. Qed.

Lemma xmlencode_str_err fp s : f_err (xmlencode_str fp s) = f_err fp.
Proof. apply xmlencode_err. Qed.

#[local] Hint Rewrite xmlencode_str_path xmlencode_str_err : stream.

(** Writing to a stream changes neither its path nor its error indicator:
    the goal [f_path big = f_path fp] (or [f_err]) is peeled from outside. *)
Ltac same_stream :=
  repeat lazymatch goal with
  | |- ?p (fputs _ ?fp) = ?r => change (p fp = r)
  | |- ?p (fputc _ ?fp) = ?r => change (p fp = r)
  | |- ?p (fprintf _ ?fp) = ?r => change (p fp = r)
  | |- ?p (printtimeformat _ ?fp _ _) = ?r => change (p fp = r)
  | |- ?p (printtime _ ?fp _) = ?r => change (p fp = r)
  | |- ?p (printtimez _ ?fp _) = ?r => change (p fp = r)
  | |- ?p (printtimeshort _ ?fp _) = ?r => change (p fp = r)
  | |- f_path (xmlencode_str _ _) = _ => rewrite xmlencode_str_path
  | |- f_err (xmlencode_str _ _) = _ => rewrite xmlencode_str_err
  | |- f_path (xmlencode _ _ _) = _ => rewrite xmlencode_path
  | |- f_err (xmlencode _ _ _) = _ => rewrite xmlencode_err
  | |- _ (match ?x with _ => _ end) = _ => destruct x
  | |- _ = _ => reflexivity
  end.

(** The prefix [c_prefix s len] is the part of [s] before the first NUL or
    the first [len] bytes, whichever is shorter. *)
Lemma c_prefix_spec s : forall len,
  exists rest,
    s = c_prefix s len ++ rest /\
    Forall (fun c => c <> NUL) (c_prefix s len) /\
    length (c_prefix s len) <= len /\
    (length (c_prefix s len) = len \/ rest = [] \/ head rest = Some NUL).
Proof.
  induction s as [|c s IH]; intros len.
  - exists []. rewrite c_prefix_nil. repeat split; simpl; auto with lia.
  - destruct len as [|len].
    + exists (c :: s). rewrite c_prefix_0. repeat split; simpl; auto.
    + destruct (is_nul c) eqn:E.
      * exists (c :: s). rewrite c_prefix_nul by done.
        repeat split; simpl; auto with lia.
        right; right. f_equal. by apply is_nul_true.
      * destruct (IH len) as (rest & Hs & Hn & Hl & Hstop).
        exists rest. rewrite c_prefix_cons by done.
        repeat split; simpl.
        -- by rewrite <- Hs.
        -- constructor; [by apply is_nul_false | done].
        -- lia.
        -- destruct Hstop as [?|[?|?]]; auto.
Qed.

(** C2. [xmlencode(fp, s, len)] appends to the stream the escaped form of
    exactly the prefix of [s] that ends at the first NUL byte or after [len]
    bytes, whichever comes first: each of [<], [>], [&], ['] and the double
    quote becomes its named entity, any other byte is copied, and unescaping
    the five entities in what was written gives that prefix back. *)
Theorem xmlencode_prefix_roundtrip (fp : FILE) (s : list ascii) (len : nat) :
  let p := c_prefix s len in
  (exists rest,
      s = p ++ rest /\ Forall (fun c => c <> NUL) p /\ length p <= len /\
      (length p = len \/ rest = [] \/ head rest = Some NUL)) /\
  f_buf (xmlencode fp s len) = f_buf fp ++ flat_map entity p /\
  entity "<" = lit "&lt;" /\ entity ">" = lit "&gt;" /\ entity "&" = lit "&amp;" /\
  entity "'" = lit "&apos;" /\ entity "034" = lit "&quot;" /\
  (forall c, reserved c = false -> entity c = [c]) /\
  unescape (flat_map entity p) = p.
Proof.
  intros p. split; [apply c_prefix_spec|].
  split; [apply xmlencode_buf|].
  repeat (split; [reflexivity|]).
  split; [apply entity_other | apply unescape_escape].
Qed.

(** ** Blob pages *)

Lemma c_str_closed s : strlen s = length s -> c_str s = s.
Proof. intros H. unfold c_str. rewrite H. apply firstn_all. Qed.

(** Rewrites [c_str] of the string constants of the goal. *)
Ltac closed_strings :=
  repeat match goal with
         | |- context [c_str ?s] => rewrite (c_str_closed s eq_refl)
         end.

Lemma int_of_size_t_small n : (Z.of_nat n < 2 ^ 31)%Z -> int_of_size_t n = Z.of_nat n.
Proof.
  intros H. unfold int_of_size_t.
  rewrite Z.mod_small by lia.
  destruct (Z.ltb_spec (Z.of_nat n) (2 ^ 31)); lia.
Qed.

Lemma newlines_le s : newlines s <= length s.
Proof. apply count_occ_bound. Qed.

Lemma line_count_le s : line_count s <= length s.
Proof.
  unfold line_count. destruct (length s) as [|k] eqn:E; [lia|].
  pose proof (newlines_le (take k s)) as H.
  pose proof (firstn_le_length k s) as H'.
  apply le_n_S. by etransitivity.
Qed.

Lemma newlines_cons c s :
  newlines (c :: s) = (if Ascii.eqb c "010" then 1 else 0) + newlines s.
Proof.
  unfold newlines. simpl.
  destruct (Ascii.eqb_spec c "010") as [->|Hc].
  - by destruct (ascii_dec "010" "010").
  - by destruct (ascii_dec c "010").
Qed.

Lemma writeblobhtml_loop_spec s : forall k n fp,
  writeblobhtml_loop s k n fp =
    (n + newlines (take k s),
     mkFILE (f_path fp)
            (f_buf fp ++ flat_map nfmt (seq (S n) (newlines (take k s))))
            (f_err fp)).
Proof.
  induction s as [|c s IH]; intros k n fp.
  - destruct k; simpl; rewrite Nat.add_0_r, app_nil_r; by destruct fp.
  - destruct k as [|k].
    { simpl. rewrite Nat.add_0_r, app_nil_r; by destruct fp. }
    cbn [writeblobhtml_loop take firstn]. rewrite newlines_cons.
    destruct (Ascii.eqb c "010").
    + rewrite IH. cbn [f_path f_buf f_err fprintf].
      f_equal; [lia|]. f_equal. simpl. by rewrite <- app_assoc.
    + rewrite IH. done.
Qed.

Section BlobPages.

Variable repo : git_repository.
Variable lc : libc.

Lemma writeblobhtml_spec fp blob :
  let s := blob_rawcontent blob in
  writeblobhtml fp blob =
    (mkFILE (f_path fp)
            (f_buf fp ++ blob_open ++ flat_map nfmt (seq 1 (line_count s)) ++
             blob_middle ++ escape (c_prefix s (length s)) ++ blob_close)
            (f_err fp),
     int_of_size_t (line_count s)).
Proof.
  intros s. unfold writeblobhtml, git_blob_rawsize, line_count. fold s.
  destruct (length s) as [|k] eqn:E.
  - cbv beta iota zeta. f_equal.
    apply FILE_eq; autorewrite with stream; cbn [f_path f_buf f_err]; try done.
    rewrite !c_str_closed by reflexivity.
    rewrite <- !app_assoc. reflexivity.
  - rewrite writeblobhtml_loop_spec. rewrite Nat.sub_succ, Nat.sub_0_r.
    cbv beta iota zeta. f_equal.
    apply FILE_eq; autorewrite with stream; cbn [f_path f_buf f_err]; try done.
    rewrite !c_str_closed by reflexivity.
    change (seq 1 (1 + newlines (take k s))) with (1 :: seq 2 (newlines (take k s))).
    cbn [flat_map]. rewrite <- !app_assoc. reflexivity.
Qed.

(** [writeheader] always returns, with the same stream further on and
    the state as it was. *)
Lemma writeheader_returns fp st :
  exists fp', writeheader fp st = Returned (fp', 0%Z) st
              /\ f_path fp' = f_path fp /\ f_err fp' = f_err fp.
Proof.
  unfold writeheader, bind, gets, ret. eexists. split; [reflexivity|].
  cbv zeta. split; same_stream.
Qed.

Lemma fopen_w_fresh path st fp st' :
  fopen_w path st = Some (fp, st') -> fp = mkFILE path [] false.
Proof.
  unfold fopen_w. intros H.
  destruct (fs st !! path) as [[]|]; destruct (parent_exists path (fs st));
    congruence.
Qed.

End BlobPages.

Lemma nfmt_anchor n : (Z.of_nat n < 2 ^ 31)%Z -> nfmt n = line_anchor n.
Proof.
  intros H. unfold nfmt, line_anchor. cbv zeta.
  by rewrite (int_of_size_t_small n H).
Qed.

Lemma anchors_below len : forall start,
  (Z.of_nat (start + len) <= 2 ^ 31)%Z ->
  flat_map nfmt (seq start len) = flat_map line_anchor (seq start len).
Proof.
  induction len as [|len IH]; intros start H; [done|].
  cbn [seq flat_map]. rewrite nfmt_anchor by lia. f_equal.
  apply IH. lia.
Qed.

Lemma newlines_replicate k : newlines (replicate k "010"%char) = k.
Proof.
  induction k as [|k IH]; [done|].
  change (replicate (S k) "010"%char) with ("010"%char :: replicate k "010"%char).
  rewrite newlines_cons, IH. done.
Qed.

Lemma line_count_replicate k : line_count (replicate (S k) "010"%char) = S k.
Proof.
  unfold line_count. rewrite length_replicate.
  rewrite take_replicate, Nat.min_l by lia.
  by rewrite newlines_replicate.
Qed.

(** C6, as the claim states it, fails: for the blob of [2^31] newline
    bytes, which is not binary and has [2^31] lines, [writeblobhtml] counts
    the lines in a [size_t] and returns the count as an [int], which is
    [-2^31]. *)
Lemma writeblobhtml_count_wraps :
  blob_is_binary blob_huge = false /\
  Z.of_nat (line_count (blob_rawcontent blob_huge)) = (2 ^ 31)%Z /\
  snd (writeblobhtml blank blob_huge) = (- 2 ^ 31)%Z /\
  snd (writeblobhtml blank blob_huge)
  <> Z.of_nat (line_count (blob_rawcontent blob_huge)).
Proof.
  assert (Hn : Z.to_nat (2 ^ 31) = S (Z.to_nat (2 ^ 31 - 1))) by lia.
  assert (Hc : Z.of_nat (line_count (blob_rawcontent blob_huge)) = (2 ^ 31)%Z).
  { unfold blob_huge. cbn [blob_rawcontent]. rewrite Hn, line_count_replicate. lia. }
  split; [reflexivity|]. split; [exact Hc|].
  rewrite writeblobhtml_spec. cbn [snd]. unfold int_of_size_t. rewrite Hc.
  split; [reflexivity|]. discriminate.
Qed.

(** C6 (amended). For a blob that is not binary and has fewer than [2^31]
    lines, [writeblobhtml] writes the table of the blob, which holds one
    line-number anchor per line, numbered from 1, and returns the number of
    lines: zero for empty content, otherwise one more than the number of
    newline bytes among the first [len - 1] bytes, so that a last line
    without a newline is counted.  Once the directory is made and the page is
    opened, [writeblob] returns that count, with the cursor empty again, and
    the page holds the header, the line of the file name and size, that
    table and the footer. *)
Theorem writeblob_line_count (blob : git_blob) (fpath filename : list ascii)
    (filesize : nat) (st : state)
    (Hbin : blob_is_binary blob = false)
    (Hlines : (Z.of_nat (line_count (blob_rawcontent blob)) < 2 ^ 31)%Z) :
  let s := blob_rawcontent blob in
  line_count [] = 0 /\
  (s <> [] -> line_count s = 1 + newlines (take (length s - 1) s)) /\
  (forall fp,
      writeblobhtml fp blob
      = (fprintf (blob_table s) fp, Z.of_nat (line_count s))) /\
  (forall st1 fp0 st2,
      mkdirp (xdirname fpath) st = Returned 0%Z st1 ->
      fopen_w fpath (set_relpath (writeblob_tmp (c_str fpath) []) st1)
      = Some (fp0, st2) ->
      exists fph st',
        writeheader fp0 st2 = Returned (fph, 0%Z) st2 /\
        writeblob blob fpath filename filesize st
        = Returned (Z.of_nat (line_count s)) st' /\
        relpath st' = [] /\
        fs st' !! fpath
        = Some (File (f_buf fph ++ lit "<p> " ++ escape (c_str filename) ++
                      lit " (" ++ fmt_u filesize ++ lit "B)</p><hr/>" ++
                      blob_table s ++ page_close))).
Proof.
  intros s.
  assert (Hn : int_of_size_t (line_count s) = Z.of_nat (line_count s))
    by by apply int_of_size_t_small.
  assert (Hw : forall fp,
             writeblobhtml fp blob
             = (fprintf (blob_table s) fp, Z.of_nat (line_count s))).
  { intros fp. rewrite writeblobhtml_spec. fold s. rewrite Hn. f_equal.
    unfold blob_table. rewrite anchors_below by (subst s; lia).
    by destruct fp. }
  split; [reflexivity|]. split.
  { intros Hs. unfold line_count. destruct s as [|c s']; [done|].
    simpl length. by rewrite Nat.sub_succ, Nat.sub_0_r. }
  split; [exact Hw|].
  intros st1 fp0 st2 Hdir Hopen.
  unfold writeblob, bind. rewrite Hdir. cbn [negb Z.eqb].
  unfold modify at 1. unfold efopen. rewrite Hopen.
  assert (Hst2 : fp0 = mkFILE fpath [] false /\
                 st2 = set_fs (<[fpath := File []]> (fs st1))
                         (set_relpath (writeblob_tmp (c_str fpath) []) st1)).
  { unfold fopen_w in Hopen. cbn [fs set_relpath] in Hopen.
    destruct (fs st1 !! fpath) as [[]|];
      destruct (parent_exists fpath (fs st1)); try done;
      injection Hopen as <- <-; done. }
  destruct Hst2 as [-> Hst2].
  destruct (writeheader_returns (mkFILE fpath [] false) st2) as (fph & Hh & Hp & He).
  exists fph,
    (set_relpath []
       (set_fs (<[fpath := File (f_buf fph ++ lit "<p> " ++ escape (c_str filename) ++
                                 lit " (" ++ fmt_u filesize ++ lit "B)</p><hr/>" ++
                                 blob_table s ++ page_close)]> (fs st1)) st1)).
  split; [exact Hh|].
  split; [|split; [reflexivity|cbn [fs set_relpath set_fs]; by rewrite lookup_insert_eq]].
  rewrite Hh. cbn [fst].
  rewrite Hbin, Hw. unfold ferror. cbn [fst snd].
  replace (f_err (fprintf (blob_table s) _)) with false
    by (symmetry; autorewrite with stream; exact He).
  unfold ret, fclose, modify. cbn [fst snd]. f_equal.
  rewrite Hst2. unfold set_relpath, set_fs.
  cbn [fs relpath name stripped_name description cloneurl hasreadme haslicense].
  f_equal.
  replace (f_path (writefooter _)) with fpath
    by (symmetry; unfold writefooter; autorewrite with stream; exact Hp).
  rewrite insert_insert_eq. f_equal. f_equal.
  unfold writefooter, page_close, xmlencode_str. autorewrite with stream.
  unfold c_prefix. rewrite Nat.min_id. fold (c_str filename).
  closed_strings. unfold NL. rewrite <- ?app_assoc. reflexivity.
Qed.

Lemma writeblob_line_count_witness :
  writeblobhtml blank blob_hi_bye
  = (fprintf (blob_open ++ line_anchor 1 ++ line_anchor 2 ++ blob_middle ++
              lit "hi" ++ NL ++ lit "bye" ++ blob_close) blank, 2%Z).
Proof.
  refine (proj1 (proj2 (proj2
    (writeblob_line_count blob_hi_bye (lit "file/a.txt.html") (lit "a.txt") 6
       st0 _ _))) blank).
  - reflexivity.
  - vm_compute. reflexivity.
Defined.

(** ** Commit snapshots and the commit block *)

Lemma c_prefix_strlen s : c_prefix s (strlen s) = c_str s.
Proof. unfold c_prefix, c_str. by rewrite Nat.min_id. Qed.

Lemma xmlencode_str_buf fp s :
  f_buf (xmlencode_str fp s) = f_buf fp ++ escape (c_str s).
Proof. unfold xmlencode_str. by rewrite xmlencode_buf, c_prefix_strlen. Qed.

#[local] Hint Rewrite xmlencode_str_buf : stream.

Section CommitBlock.

Variable repo : git_repository.
Variable lc : libc.

Lemma printtimeformat_buf fp t fmt :
  f_buf (printtimeformat lc fp t fmt)
  = f_buf fp ++ c_str (strftime_gmtime lc fmt (time t + offset t * 60)%Z).
Proof. reflexivity. Qed.

Lemma printtimeformat_path fp t fmt : f_path (printtimeformat lc fp t fmt) = f_path fp.
Proof. reflexivity. Qed.

Lemma printtimeformat_err fp t fmt : f_err (printtimeformat lc fp t fmt) = f_err fp.
Proof. reflexivity. Qed.

(** [printcommit] returns, leaves the state alone, and writes the commit
    line, the parent line when [parentoid] is not empty, the author lines
    and the message. *)
Lemma printcommit_spec fp ci st :
  exists fp',
    printcommit lc fp ci st = Returned fp' st /\
    f_path fp' = f_path fp /\ f_err fp' = f_err fp /\
    f_buf fp' =
      f_buf fp ++ commit_line (relpath st) (oid ci) ++
      (if strlen (parentoid ci) is 0 then []
       else parent_line (relpath st) (parentoid ci)) ++
      author_lines lc (author ci) ++ message_lines (msg ci).
Proof.
  unfold printcommit, bind, gets, ret. eexists. split; [reflexivity|].
  cbv zeta. split; [same_stream|]. split; [same_stream|].
  unfold author_lines, message_lines, printtime.
  destruct (msg ci) as [m|], (author ci) as [a|];
    destruct (parentoid ci) as [|c po] eqn:Epo; cbn [strlen];
    try destruct (is_nul c) eqn:Ec;
    autorewrite with stream; cbn [f_buf];
    rewrite ?printtimeformat_buf; autorewrite with stream;
    rewrite ?c_str_closed by reflexivity;
    unfold commit_line, parent_line, NL, DQ;
    rewrite <- ?app_assoc; cbn [app]; rewrite ?app_nil_r; reflexivity.
Qed.

End CommitBlock.

(** C8. For a root commit (no parent id), once its tree, the diff and the
    statistics are obtained, [commitinfo_getbyoid] builds a snapshot whose
    parent id is the empty string, which has no parent and no parent tree,
    and whose diff is the one computed from the empty (NULL) tree to the
    tree of the commit; [printcommit] then writes the commit line, the author
    lines and the message, and nothing for a parent. *)
Theorem root_commit_no_parent (repo : git_repository) (lc : libc)
    (i : git_oid) (c : git_commit) (ctree : git_tree) (d : git_diff)
    (s : git_diff_stats)
    (Hc : git_commit_lookup repo i = Some c)
    (Hroot : commit_parent_ids c = [])
    (Htree : git_tree_lookup repo (commit_tree_id c) = Some ctree)
    (Hdiff : git_diff_tree_to_tree repo None (Some ctree)
               (mkOpts GIT_DIFF_DISABLE_PATHSPEC_MATCH) = Some d)
    (Hstats : git_diff_get_stats repo d = Some s) :
  exists ci,
    commitinfo_getbyoid repo i = Some ci /\
    parentoid ci = [] /\ parent ci = None /\ parent_tree ci = None /\
    diff ci = d /\
    forall fp st,
      exists fp',
        printcommit lc fp ci st = Returned fp' st /\
        f_buf fp' =
          f_buf fp ++ commit_line (relpath st) (oid ci) ++
          author_lines lc (author ci) ++ message_lines (msg ci).
Proof.
  unfold commitinfo_getbyoid, git_commit_tree, git_commit_parent.
  rewrite Hc, Htree, Hroot. cbn [lookup list_lookup].
  unfold commitinfo_diff, git_commit_parent_id.
  change (mkOpts _) with (mkOpts GIT_DIFF_DISABLE_PATHSPEC_MATCH).
  rewrite Hdiff, Hstats, Hroot.
  eexists. split; [reflexivity|]. cbn [parentoid parent parent_tree diff].
  repeat (split; [reflexivity|]).
  intros fp st.
  destruct (printcommit_spec lc fp
              (mkCommitinfo i (git_oid_tostr (GIT_OID_HEXSZ + 1) (Some (commit_id c)))
                 [] (commit_author c) (commit_summary c) (commit_message c)
                 (Some s) d c None (Some ctree) None
                 (insertions s) (deletions s) (files_changed s)) st)
    as (fp' & Hr & _ & _ & Hb).
  exists fp'. split; [exact Hr|]. exact Hb.
Qed.

Lemma root_commit_no_parent_witness :
  exists ci,
    commitinfo_getbyoid repo0 oid_root = Some ci /\ parentoid ci = [].
Proof.
  destruct (root_commit_no_parent repo0 libc0 oid_root commit_root (lit "aaaa")
              diff0 stats0 eq_refl eq_refl eq_refl eq_refl eq_refl)
    as (ci & H1 & H2 & _).
  exists ci. split; assumption.
Defined.

(** ** Writers that only append *)

Lemma appends_id : appends (fun fp => fp).
Proof. intros [p b e]. simpl. by rewrite app_nil_r. Qed.

Lemma appends_comp (F G : FILE -> FILE) :
  appends F -> appends G -> appends (fun fp => G (F fp)).
Proof.
  intros HF HG fp. rewrite (HG (F fp)), (HG (F blank)), (HF fp).
  cbn [f_path f_buf f_err]. by rewrite <- !app_assoc.
Qed.

Lemma appends_fputs s : appends (fputs s).
Proof. intros fp. reflexivity. Qed.

Lemma appends_fputc c : appends (fputc c).
Proof. intros fp. reflexivity. Qed.

Lemma appends_fprintf s : appends (fprintf s).
Proof. intros fp. reflexivity. Qed.

Lemma appends_xmlencode s len : appends (fun fp => xmlencode fp s len).
Proof.
  intros fp. apply FILE_eq; cbn [f_path f_buf f_err].
  - apply xmlencode_path.
  - by rewrite !xmlencode_buf.
  - apply xmlencode_err.
Qed.

Lemma appends_xmlencode_str s : appends (fun fp => xmlencode_str fp s).
Proof. apply appends_xmlencode. Qed.

Lemma appends_printtimeformat lc t fmt :
  appends (fun fp => printtimeformat lc fp t fmt).
Proof. intros fp. reflexivity. Qed.

Lemma appends_path F fp : appends F -> f_path (F fp) = f_path fp.
Proof. intros H. by rewrite (H fp). Qed.

Lemma appends_err F fp : appends F -> f_err (F fp) = f_err fp.
Proof. intros H. by rewrite (H fp). Qed.

Lemma appends_buf F fp : appends F -> f_buf (F fp) = f_buf fp ++ f_buf (F blank).
Proof. intros H. by rewrite (H fp). Qed.

(** Decomposes a writer written as a chain of [let]s and calls. *)
Ltac appends_chain :=
  repeat lazymatch goal with
  | |- appends (fun fp => fp) => apply appends_id
  | |- appends (fun fp => let y := @?F fp in @?G y) => apply (appends_comp F G)
  | |- appends (fun fp => match ?x with _ => _ end) => destruct x
  | |- appends (fun fp => fputs ?s (@?F fp)) =>
      apply (appends_comp F (fputs s)); [|apply appends_fputs]
  | |- appends (fun fp => fputc ?c (@?F fp)) =>
      apply (appends_comp F (fputc c)); [|apply appends_fputc]
  | |- appends (fun fp => fprintf ?s (@?F fp)) =>
      apply (appends_comp F (fprintf s)); [|apply appends_fprintf]
  | |- appends (fun fp => xmlencode (@?F fp) ?s ?n) =>
      apply (appends_comp F (fun fp => xmlencode fp s n)); [|apply appends_xmlencode]
  | |- appends (fun fp => xmlencode_str (@?F fp) ?s) =>
      apply (appends_comp F (fun fp => xmlencode_str fp s)); [|apply appends_xmlencode_str]
  | |- appends (fun fp => printtimeformat ?lc (@?F fp) ?t ?fmt) =>
      apply (appends_comp F (fun fp => printtimeformat lc fp t fmt));
      [|apply appends_printtimeformat]
  | |- appends (fputs _) => apply appends_fputs
  | |- appends (fputc _) => apply appends_fputc
  | |- appends (fprintf _) => apply appends_fprintf
  end.

(** ** The feed *)

Section Feed.

Variable repo : git_repository.
Variable lc : libc.

Lemma printcommitatom_appends ci : appends (fun fp => printcommitatom lc fp ci).
Proof.
  unfold printcommitatom, printtimez, printtime. appends_chain.
Qed.

Lemma printcommitatom_buf fp ci :
  f_buf (printcommitatom lc fp ci) = f_buf fp ++ atom_entry lc ci.
Proof.
  unfold printcommitatom, atom_entry, printtimez, printtime.
  destruct (msg ci) as [m|], (author ci) as [a|], (summary ci) as [s|];
    destruct (parentoid ci) as [|c po] eqn:Epo; cbn [strlen];
    try destruct (is_nul c) eqn:Ec;
    repeat (autorewrite with stream; cbn [f_buf]; rewrite ?printtimeformat_buf);
    closed_strings;
    unfold NL, DQ;
    rewrite <- ?app_assoc; cbn [app]; rewrite ?app_nil_r; reflexivity.
Qed.

Lemma snapshots_length l : length (snapshots repo l) <= length l.
Proof.
  induction l as [|i l IH]; simpl; [lia|].
  destruct (commitinfo_getbyoid repo i); simpl; lia.
Qed.

Lemma writeatom_loop_spec l : forall k fp,
  f_buf (writeatom_loop repo lc k l fp)
  = f_buf fp ++ flat_map (atom_entry lc) (snapshots repo (take k l)).
Proof.
  induction l as [|i l IH]; intros k fp.
  - destruct k; simpl; by rewrite app_nil_r.
  - destruct k as [|k]; simpl; [by rewrite app_nil_r|].
    destruct (commitinfo_getbyoid repo i) as [ci|]; simpl.
    + by rewrite IH, printcommitatom_buf, <- app_assoc.
    + by rewrite app_nil_r.
Qed.

Lemma writeatom_spec fp st :
  exists fp',
    writeatom repo lc fp st = Returned (fp', 0%Z) st /\
    f_buf fp' =
      f_buf fp ++ feed_open st ++
      flat_map (atom_entry lc) (snapshots repo (take 100 (git_revwalk_ids repo head_walk))) ++
      lit "</feed>".
Proof.
  unfold writeatom, bind, gets, ret. eexists. split; [reflexivity|].
  cbv zeta. autorewrite with stream. rewrite writeatom_loop_spec.
  autorewrite with stream.
  rewrite !c_str_closed by reflexivity.
  unfold feed_open. rewrite <- !app_assoc. reflexivity.
Qed.

End Feed.

(** C9. [writeatom] takes no revision: it asks libgit2 for the walk pushed
    with HEAD, sorted by commit time and simplified to first parents, and
    writes one entry for each commit the walk gives, in that order, up to the
    first commit whose snapshot cannot be built and never more than 100. *)
Theorem writeatom_head_walk_capped (repo : git_repository) (lc : libc)
    (fp : FILE) (st : state) :
  let w := git_revwalk_simplify_first_parent
             (git_revwalk_sorting GIT_SORT_TIME
                (git_revwalk_push_head git_revwalk_new)) in
  let cis := snapshots repo (take 100 (git_revwalk_ids repo w)) in
  w = mkWalk [PushHead] GIT_SORT_TIME true /\
  length cis <= 100 /\
  (forall k ci, cis !! k = Some ci ->
     exists i, git_revwalk_ids repo w !! k = Some i /\
               commitinfo_getbyoid repo i = Some ci) /\
  exists fp',
    writeatom repo lc fp st = Returned (fp', 0%Z) st /\
    f_buf fp' =
      f_buf fp ++ feed_open st ++ flat_map (atom_entry lc) cis ++ lit "</feed>".
Proof.
  intros w cis. split; [reflexivity|]. split.
  { subst cis. etransitivity; [apply snapshots_length|].
    rewrite length_take. lia. }
  split.
  { subst cis. generalize (git_revwalk_ids repo w). intros l.
    generalize 100. intros n. revert n.
    induction l as [|i l IH]; intros n k ci H.
    - destruct n; simpl in H; done.
    - destruct n as [|n]; [done|]. simpl in H.
      destruct (commitinfo_getbyoid repo i) as [ci0|] eqn:E; [|done].
      destruct k as [|k]; simpl in *.
      + exists i. split; [done|]. congruence.
      + by apply (IH n). }
  apply writeatom_spec.
Qed.

(** C10. The bytes [writeatom] writes, and the value it returns, are the
    same whatever the relative-path cursor holds when it is called: the feed
    does not read [relpath] (and leaves it as it was). *)
Theorem writeatom_ignores_relpath (repo : git_repository) (lc : libc)
    (fp : FILE) (st : state) (rp1 rp2 : list ascii) :
  exists r,
    writeatom repo lc fp (set_relpath rp1 st) = Returned r (set_relpath rp1 st) /\
    writeatom repo lc fp (set_relpath rp2 st) = Returned r (set_relpath rp2 st).
Proof.
  unfold writeatom, bind, gets, ret. eexists. split; reflexivity.
Qed.

(** ** Commit pages *)

(** Splits a writer that ends in a call [g (...)] into what comes before
    the call and the call. *)
Ltac appends_last :=
  lazymatch goal with
  | |- appends (fun fp => ?g (@?F fp)) => apply (appends_comp F g)
  end.

Lemma printshowfile_lines_appends j lines : forall k,
  appends (printshowfile_lines j k lines).
Proof.
  induction lines as [|line rest IH]; intros k.
  - apply appends_id.
  - change (appends (fun fp => printshowfile_lines j k (line :: rest) fp)).
    cbn [printshowfile_lines].
    appends_last; [appends_chain | apply IH].
Qed.

Lemma printshowfile_hunks_appends hunks : forall j,
  appends (printshowfile_hunks j hunks).
Proof.
  induction hunks as [|hunk rest IH]; intros j.
  - apply appends_id.
  - change (appends (fun fp => printshowfile_hunks j (hunk :: rest) fp)).
    cbn [printshowfile_hunks].
    appends_last; [|apply IH].
    appends_last; [appends_chain | apply printshowfile_lines_appends].
Qed.

Lemma printshowfile_deltas_appends rp patches :
  appends (printshowfile_deltas rp patches).
Proof.
  induction patches as [|[patch|] rest IH].
  - apply appends_id.
  - change (appends (fun fp => printshowfile_deltas rp (Some patch :: rest) fp)).
    cbn [printshowfile_deltas].
    destruct (negb _).
    + appends_last; [appends_chain | apply IH].
    + appends_last; [|apply IH].
      appends_last; [appends_chain | apply printshowfile_hunks_appends].
  - apply appends_id.
Qed.

Section CommitPages.

Variable lc : libc.

Lemma printshowfile_present ci st :
  is_Some (fs st !! commit_path (oid ci)) ->
  printshowfile lc ci st = Returned tt st.
Proof.
  intros H. unfold printshowfile, bind, access, gets.
  by rewrite bool_decide_true.
Qed.

(** When nothing is at the path and the page can be opened, the page is
    written at [commit_path (oid ci)] and the rest of the state stays. *)
Lemma printshowfile_absent ci st :
  fs st !! commit_path (oid ci) = None ->
  parent_exists (commit_path (oid ci)) (fs st) = true ->
  exists text,
    printshowfile lc ci st
    = Returned tt (set_fs (<[commit_path (oid ci) := File text]> (fs st)) st).
Proof.
  intros Hnone Hpar. unfold printshowfile, bind, access, gets.
  rewrite bool_decide_false by (rewrite Hnone; by intros [? ?]).
  cbn [Z.eqb]. unfold efopen, fopen_w. rewrite Hnone, Hpar.
  match goal with
  | |- context [writeheader ?fp ?s] =>
      destruct (writeheader_returns fp s) as (fp1 & -> & Hp1 & _)
  end.
  cbn [fst].
  match goal with
  | |- context [printcommit lc ?fp ?c ?s] =>
      destruct (printcommit_spec lc fp c s) as (fp2 & -> & Hp2 & _)
  end.
  unfold gets, fclose, modify. eexists.
  f_equal. unfold set_fs. cbn [fs relpath name stripped_name description cloneurl
                               hasreadme haslicense].
  f_equal.
  match goal with
  | |- <[?p := _]> _ = _ => replace p with (commit_path (oid ci))
  end.
  - apply insert_insert_eq.
  - unfold writefooter. autorewrite with stream.
    rewrite (appends_path _ _ (printshowfile_deltas_appends _ _)).
    autorewrite with stream.
    transitivity (f_path fp2); [by rewrite Hp2, fputs_path, Hp1|].
    symmetry. same_stream.
Qed.

End CommitPages.

(** C4. The page of a commit is written at [commit_path (oid ci)], a path
    computed from the hexadecimal commit id and nothing else.  When something
    exists at that path [printshowfile] returns at once and the whole state,
    output directory included, is as before (no file is opened, read or
    written), for any snapshot with that commit id; when nothing is there and
    the page can be opened, that path is the one that receives the page. *)
Theorem printshowfile_skips_existing_page (lc : libc) (ci : commitinfo)
    (st : state)
    (Hpresent : is_Some (fs st !! commit_path (oid ci))) :
  printshowfile lc ci st = Returned tt st /\
  (forall ci', oid ci' = oid ci -> printshowfile lc ci' st = Returned tt st) /\
  (forall ci' st',
      fs st' !! commit_path (oid ci') = None ->
      parent_exists (commit_path (oid ci')) (fs st') = true ->
      exists text,
        printshowfile lc ci' st'
        = Returned tt (set_fs (<[commit_path (oid ci') := File text]> (fs st')) st')).
Proof.
  split; [by apply printshowfile_present|]. split.
  - intros ci' Ho. apply printshowfile_present. by rewrite Ho.
  - intros ci' st'. apply printshowfile_absent.
Qed.

Lemma printshowfile_skips_existing_page_witness :
  printshowfile libc0 ci_root st_page = Returned tt st_page.
Proof.
  refine (proj1 (printshowfile_skips_existing_page libc0 ci_root st_page _)).
  vm_compute. eexists. reflexivity.
Defined.

(** ** The log *)

Section Log.

Variable repo : git_repository.
Variable lc : libc.
Variable cfg : config.

(** One turn of the loop of [writelog] on a commit whose snapshot is built:
    the row is written with the cursor empty, then the commit page is
    written with the cursor at [../], then the walk goes on. *)
Lemma writelog_loop_step i rest ci fp st :
  commitinfo_getbyoid repo i = Some ci ->
  writelog_loop repo lc cfg (i :: rest) fp st =
    match printshowfile lc ci (set_relpath (lit "../") st) with
    | Returned _ st' =>
        writelog_loop repo lc cfg rest (fprintf (log_row lc ci (summary_cell cfg)) fp) st'
    | Exited n => Exited n
    end.
Proof.
  intros Hci. cbn [writelog_loop]. unfold bind at 1. unfold modify at 1.
  rewrite Hci. unfold bind at 1. unfold gets at 1. cbn [relpath set_relpath].
  unfold bind at 1. unfold modify at 1. unfold bind at 1.
  change (set_relpath (lit "../") (set_relpath [] st)) with (set_relpath (lit "../") st).
  destruct (printshowfile lc ci (set_relpath (lit "../") st)) as [[] st'|n]; [|done].
  f_equal.
  apply FILE_eq.
  - same_stream.
  - unfold log_row, summary_cell, printtimeshort.
    destruct (author ci) as [a|], (summary ci) as [s|];
      try destruct (Nat.ltb (summarylen cfg) (strlen s));
      autorewrite with stream; rewrite ?printtimeformat_buf;
      autorewrite with stream; rewrite ?c_prefix_strlen;
      rewrite ?c_str_closed by reflexivity;
      cbn [c_str strlen take firstn app]; unfold DQ, NL;
      rewrite <- ?app_assoc; cbn [app]; reflexivity.
  - same_stream.
Qed.

Lemma writelog_loop_stop i rest fp st :
  commitinfo_getbyoid repo i = None ->
  writelog_loop repo lc cfg (i :: rest) fp st = Returned fp (set_relpath [] st).
Proof.
  intros Hci. cbn [writelog_loop]. unfold bind, modify. by rewrite Hci.
Qed.

(** [writelog] leaves the cursor empty when it returns. *)
Lemma writelog_restores_relpath fp o st r st' :
  writelog repo lc cfg fp o st = Returned r st' -> relpath st' = [].
Proof.
  unfold writelog, bind, modify, ret. intros H.
  destruct (writelog_loop _ _ _ _ _ _) as [fp1 st1|n]; [|done].
  by injection H as <- <-.
Qed.

End Log.

(** C7, as the claim states it, fails: with a budget of 5 the summary
    [add a.txt] is written as its first 4 bytes and the ellipsis, not as its
    first 5 bytes and the ellipsis. *)
Lemma writelog_summary_not_cut_at_budget :
  exists fp' st',
    writelog_loop repo0 libc0 cfg0 [oid_root] blank st_commit = Returned fp' st' /\
    f_buf fp' = log_row libc0 ci_root (fun _ => lit "add " ++ ellipsis) /\
    f_buf fp' <> log_row libc0 ci_root (budget_cell cfg0).
Proof.
  vm_compute. eexists; eexists. split; [reflexivity|].
  split; [reflexivity | discriminate].
Qed.

(** C7 (amended). In every row of the log, for a positive [summarylen], a
    summary longer than [summarylen] bytes is written as its first
    [summarylen - 1] bytes, escaped, followed by the ellipsis; a summary of
    at most [summarylen] bytes is written whole, escaped, with no ellipsis. *)
Theorem writelog_summary_clipped (repo : git_repository) (lc : libc)
    (cfg : config) (i : git_oid) (rest : list git_oid) (ci : commitinfo)
    (s : list ascii) (fp : FILE) (st : state)
    (Hpos : 0 < summarylen cfg)
    (Hci : commitinfo_getbyoid repo i = Some ci)
    (Hs : summary ci = Some s) :
  writelog_loop repo lc cfg (i :: rest) fp st =
    match printshowfile lc ci (set_relpath (lit "../") st) with
    | Returned _ st' =>
        writelog_loop repo lc cfg rest
          (fprintf (log_row lc ci (summary_cell cfg)) fp) st'
    | Exited n => Exited n
    end /\
  (summarylen cfg < strlen s ->
   summary_cell cfg s = escape (take (summarylen cfg - 1) (c_str s)) ++ ellipsis) /\
  (strlen s <= summarylen cfg -> summary_cell cfg s = escape (c_str s)).
Proof.
  split; [by apply writelog_loop_step|]. unfold summary_cell. split.
  - intros Hlt. destruct (Nat.ltb_spec (summarylen cfg) (strlen s)); [|lia].
    destruct (summarylen cfg) as [|k]; [lia|].
    cbn [sub1]. rewrite Nat.sub_succ, Nat.sub_0_r.
    unfold c_prefix, c_str. rewrite take_take.
    by rewrite (Nat.min_comm k).
  - intros Hle. destruct (Nat.ltb_spec (summarylen cfg) (strlen s)); [lia|done].
Qed.

Lemma writelog_summary_clipped_witness :
  summary_cell cfg0 (lit "add a.txt") = escape (lit "add ") ++ ellipsis.
Proof.
  refine (proj1 (proj2 (writelog_summary_clipped repo0 libc0 cfg0 oid_root []
                          ci_root (lit "add a.txt") blank st_commit _ _ _)) _).
  - vm_compute. lia.
  - reflexivity.
  - reflexivity.
  - vm_compute. lia.
Defined.

(** ** The cursor across [writeblob] *)

Lemma mkdir_fails_relpath path st :
  relpath (mkdir_fails path st).2 = relpath st.
Proof.
  unfold mkdir_fails. destruct (strlen path); [done|].
  destruct (fs st !! path); [done|].
  by destruct (parent_exists path (fs st)).
Qed.

Lemma mkdirp_loop_returns rest : forall pre st,
  exists v st', mkdirp_loop pre rest st = Returned v st' /\ relpath st' = relpath st.
Proof.
  induction rest as [|c rest IH]; intros pre st; cbn [mkdirp_loop].
  - pose proof (mkdir_fails_relpath pre st) as H.
    destruct (mkdir_fails pre st) as [failed st']. eauto.
  - destruct (Ascii.eqb c "/"); [|apply IH].
    pose proof (mkdir_fails_relpath pre st) as H.
    destruct (mkdir_fails pre st) as [[] st']; [eauto|].
    destruct (IH (pre ++ [c]) st') as (v & st'' & -> & Hr).
    exists v, st''. split; [done|]. simpl in H. congruence.
Qed.

Lemma mkdirp_returns path st :
  exists v st', mkdirp path st = Returned v st' /\ relpath st' = relpath st.
Proof.
  unfold mkdirp. destruct (snprintf PATH_MAX (c_str path)) as [|c rest].
  - apply mkdirp_loop_returns.
  - destruct c as [[] [] [] [] [] [] [] []]; apply mkdirp_loop_returns.
Qed.

(** [writeblob] leaves the cursor empty when it returns after writing the
    page, and as it found it when it gives up on [mkdirp]. *)
Lemma writeblob_restores_relpath obj fpath filename filesize st v st' :
  writeblob obj fpath filename filesize st = Returned v st' ->
  relpath st' = [] \/ (v = (-1)%Z /\ relpath st' = relpath st).
Proof.
  unfold writeblob, bind. intros H.
  destruct (mkdirp_returns (xdirname fpath) st) as (r & st1 & Hm & Hr).
  rewrite Hm in H. destruct (negb (r =? 0)%Z).
  { injection H as <- <-. right. done. }
  unfold modify at 1 in H.
  destruct (efopen fpath _) as [fp st2|n]; [|done].
  destruct (writeheader_returns fp st2) as (fp1 & Hh & _). rewrite Hh in H.
  match type of H with
  | match ?m st2 with _ => _ end = _ => destruct (m st2) as [r2 st3|n]; [|done]
  end.
  unfold fclose, modify, ret in H. injection H as <- <-. by left.
Qed.

(** ** The order of [strcmp] and of [refs_cmp] *)

Lemma uchar_nonneg c : (0 <= uchar c)%Z.
Proof. unfold uchar. lia. Qed.

Lemma uchar_inj a b : uchar a = uchar b -> a = b.
Proof.
  unfold uchar. intros H. apply Nat2Z.inj in H.
  rewrite <- (ascii_nat_embedding a), <- (ascii_nat_embedding b). by rewrite H.
Qed.

Lemma uchar_NUL : uchar NUL = 0%Z.
Proof. reflexivity. Qed.

Lemma strcmp_nil_l s : (strcmp [] s <= 0)%Z.
Proof.
  destruct s as [|b s]; cbn [strcmp]; [lia|].
  pose proof (uchar_nonneg b). rewrite uchar_NUL. lia.
Qed.

Lemma strcmp_nul_l t s : (strcmp (NUL :: t) s <= 0)%Z.
Proof.
  destruct s as [|b s]; cbn [strcmp]; [rewrite uchar_NUL; lia|].
  destruct (Ascii.eqb_spec NUL b) as [<-|_]; [done|].
  pose proof (uchar_nonneg b). rewrite uchar_NUL. lia.
Qed.

Lemma strcmp_le_trans s1 : forall s2 s3,
  (strcmp s1 s2 <= 0)%Z -> (strcmp s2 s3 <= 0)%Z -> (strcmp s1 s3 <= 0)%Z.
Proof.
  induction s1 as [|a t1 IH]; intros s2 s3 H12 H23; [apply strcmp_nil_l|].
  destruct (is_nul a) eqn:Ea.
  { apply is_nul_true in Ea as ->. apply strcmp_nul_l. }
  pose proof (is_nul_false _ Ea) as Hnul.
  assert (Hua : (0 < uchar a)%Z).
  { pose proof (uchar_nonneg a). destruct (Z.eq_dec (uchar a) 0%Z) as [E|]; [|lia].
    rewrite <- uchar_NUL in E. by apply uchar_inj in E. }
  destruct s2 as [|b t2]; cbn [strcmp] in H12; [rewrite uchar_NUL in H12; lia|].
  destruct (Ascii.eqb_spec a b) as [<-|Hab].
  - (* s2 starts with a *)
    rewrite Ea in H12.
    destruct s3 as [|c t3]; cbn [strcmp] in *; [done|].
    destruct (Ascii.eqb_spec a c) as [<-|Hac]; [|done].
    rewrite Ea in *. by apply (IH t2).
  - (* a below b *)
    assert (Hlt : (uchar a < uchar b)%Z).
    { destruct (Z.eq_dec (uchar a) (uchar b)) as [E|]; [by apply uchar_inj in E|lia]. }
    destruct s3 as [|c t3]; cbn [strcmp] in *.
    { rewrite uchar_NUL in H23. lia. }
    destruct (Ascii.eqb_spec b c) as [<-|Hbc].
    + destruct (Ascii.eqb_spec a b); [done|lia].
    + destruct (Ascii.eqb_spec a c) as [<-|Hac]; lia.
Qed.

(** ** References *)

Section Refs.

Variable repo : git_repository.
Variable lc : libc.

(** One turn of the inner loop of [writerefs]. *)
Lemma writerefs_loop_cons j ref rest count fp st :
  writerefs_loop repo lc j (ref :: rest) count fp st =
    if negb (in_class j ref) then writerefs_loop repo lc j rest count fp st
    else
      match resolve_ref repo ref with
      | Skipped => writerefs_loop repo lc j rest count fp st
      | Resolved r ci =>
          writerefs_loop repo lc j rest (S count)
            (writerefs_row lc
               (if Nat.eqb (S count) 1 then fprintf (table_open j) fp else fp) r ci)
            (set_relpath (lit "../") st)
      | NoSnapshot => Returned (LoopBreak, count, fp) st
      | Unresolved | NoTarget | Unpeeled => Returned (GotoErr, count, fp) st
      end.
Proof.
  cbn [writerefs_loop]. unfold in_class.
  rewrite negb_orb.
  destruct (negb (reference_is_branch ref && Nat.eqb j 0)
            && negb (reference_is_tag ref && Nat.eqb j 1)); [done|].
  cbn [negb]. unfold resolve_ref, resolve_target.
  destruct (reference_type ref); [done| |].
  - destruct (reference_target ref); [|done].
    destruct (git_reference_peel repo ref) as [obj|]; [|done].
    destruct (object_id obj) as [i|]; [|done].
    destruct (commitinfo_getbyoid repo i) as [ci|]; [|done].
    reflexivity.
  - destruct (git_reference_resolve repo ref) as [dref|]; [|done].
    destruct (reference_target dref); [|done].
    destruct (git_reference_peel repo dref) as [obj|]; [|done].
    destruct (object_id obj) as [i|]; [|done].
    destruct (commitinfo_getbyoid repo i) as [ci|]; [|done].
    reflexivity.
Qed.

(** The inner loop always returns; it leaves the state as it was when it
    wrote no row, and with the cursor at [../] when it wrote one. *)
Lemma writerefs_loop_state j refs : forall count fp st,
  exists how c fp',
    (writerefs_loop repo lc j refs count fp st = Returned (how, c, fp') st /\ c = count)
    \/ (writerefs_loop repo lc j refs count fp st
        = Returned (how, c, fp') (set_relpath (lit "../") st) /\ count < c).
Proof.
  induction refs as [|ref rest IH]; intros count fp st.
  - exists LoopEnd, count, fp. by left.
  - rewrite writerefs_loop_cons.
    destruct (negb (in_class j ref)); [apply IH|].
    destruct (resolve_ref repo ref) as [| | | | |r ci]; try apply IH;
      try (by eexists _, count, fp; left).
    match goal with
    | |- context [writerefs_loop _ _ _ _ ?c ?f ?s] =>
        destruct (IH c f s) as (how & c' & fp' & [[-> ->]|[-> Hc]])
    end.
    + exists how, (S count), fp'. right. split; [done|lia].
    + exists how, c', fp'. right. split; [done|lia].
Qed.

(** The references before a failure or the end are passed as if the
    list stopped there. *)
Lemma writerefs_loop_app j l1 l2 : forall count fp st c fp1 st1,
  writerefs_loop repo lc j l1 count fp st = Returned (LoopEnd, c, fp1) st1 ->
  writerefs_loop repo lc j (l1 ++ l2) count fp st
  = writerefs_loop repo lc j l2 c fp1 st1.
Proof.
  induction l1 as [|ref rest IH]; intros count fp st c fp1 st1 H.
  - cbn in H. unfold ret in H. by injection H as <- <- <-.
  - cbn [app]. rewrite writerefs_loop_cons in *.
    destruct (negb (in_class j ref)); [by apply IH|].
    destruct (resolve_ref repo ref); try done; by apply IH.
Qed.

Lemma writerefs_unfold fp st :
  writerefs repo lc fp st =
    match git_reference_list repo with
    | None => Returned (fp, (-1)%Z) st
    | Some collected =>
        match writerefs_classes repo lc 2 0
                (qsort lc git_reference refs_cmp collected) fp st with
        | Returned fp' st' => Returned (fp', 0%Z) st'
        | Exited n => Exited n
        end
    end.
Proof. unfold writerefs. by destruct (git_reference_list repo). Qed.

End Refs.

(** [writerefs] always returns; it leaves the state as it found it, or with
    the cursor at [../]. *)
Lemma writerefs_state (repo : git_repository) (lc : libc) (fp : FILE) (st : state) :
  exists r st',
    writerefs repo lc fp st = Returned r st' /\
    (st' = st \/ st' = set_relpath (lit "../") st).
Proof.
  rewrite writerefs_unfold.
  destruct (git_reference_list repo) as [collected|]; [|by eauto].
  generalize (qsort lc git_reference refs_cmp collected). intros refs.
  cbn [writerefs_classes]. unfold bind.
  destruct (writerefs_loop_state repo lc 0 refs 0 fp st)
    as (how0 & c0 & fp0 & [[-> _]|[-> _]]);
    (destruct how0; [| |by unfold ret; eauto]);
    match goal with
    | |- context [writerefs_loop _ _ 1 refs 0 ?f ?s] =>
        destruct (writerefs_loop_state repo lc 1 refs 0 f s)
          as (how1 & c1 & fp1 & [[-> _]|[-> _]])
    end;
    destruct how1; unfold ret; eauto.
Qed.

(** C1. [writerefs] does not restore the cursor: it leaves [relpath] either
    as it was or at [../], and on the repository [repo0] (one branch, one
    tag), called with an empty cursor, it returns with [relpath] equal to
    [../], not to the empty prefix.  ([writelog] and [writeblob] do leave it
    empty: [writelog_restores_relpath], [writeblob_restores_relpath].) *)
Theorem writerefs_leaves_relpath_set :
  (forall repo lc fp st,
      exists r st',
        writerefs repo lc fp st = Returned r st' /\
        (st' = st \/ st' = set_relpath (lit "../") st)) /\
  relpath st0 = [] /\
  exists fp',
    writerefs repo0 libc0 blank st0
    = Returned (fp', 0%Z) (set_relpath (lit "../") st0).
Proof.
  split; [apply writerefs_state|].
  split; [reflexivity|]. vm_compute. eexists. reflexivity.
Qed.

(** C3, as the claim states it, fails: in [repo_lost] the commit of the
    branch [lost] cannot be found, yet [writerefs] goes on to write the table
    of tags with the row of [v1] and returns 0. *)
Lemma writerefs_survives_lost_commit :
  resolve_ref repo_lost ref_lost = NoSnapshot /\
  (exists fp' st',
      writerefs repo_lost libc0 blank st0 = Returned (fp', 0%Z) st' /\
      f_buf fp' =
        table_open 1 ++ f_buf (writerefs_row libc0 blank ref_v1 ci_root) ++ table_close) /\
  ~ fails_fast repo_lost libc0 blank st0.
Proof.
  split; [reflexivity|]. split.
  { vm_compute. eexists; eexists. split; reflexivity. }
  intros H.
  destruct (H [ref_v1; ref_lost] ref_lost) as (fp' & v & st' & Hw & Hv).
  - reflexivity.
  - right. left. reflexivity.
  - reflexivity.
  - reflexivity.
  - vm_compute in Hw. injection Hw as _ Hz _. by subst v.
Qed.

(** C3 (amended). While the table of class [j] is written, a reference of
    that class whose symbolic resolution, target lookup or peeling fails
    stops the whole writer: the stream is left as it was before that
    reference, with no footer, and no later reference or class is written.
    A reference whose commit snapshot cannot be built ends only the table of
    its class, which gets its footer when it has rows, and the writer goes on
    with the next class. *)
Theorem writerefs_failure_policy (repo : git_repository) (lc : libc)
    (n j : nat) (pre post : list git_reference) (ref : git_reference)
    (fp fp1 : FILE) (st st1 : state) (c : nat)
    (Hpre : writerefs_loop repo lc j pre 0 fp st = Returned (LoopEnd, c, fp1) st1)
    (Hclass : in_class j ref = true) :
  (aborting (resolve_ref repo ref) = true ->
   writerefs_classes repo lc (S n) j (pre ++ ref :: post) fp st = Returned fp1 st1) /\
  (resolve_ref repo ref = NoSnapshot ->
   writerefs_classes repo lc (S n) j (pre ++ ref :: post) fp st =
   writerefs_classes repo lc n (S j) (pre ++ ref :: post)
     (if c is 0 then fp1 else fputs table_close fp1) st1).
Proof.
  split; intros Hres; cbn [writerefs_classes]; unfold bind;
    rewrite (writerefs_loop_app repo lc j pre (ref :: post) _ _ _ _ _ _ Hpre),
      writerefs_loop_cons,
      Hclass; cbn [negb].
  - by destruct (resolve_ref repo ref).
  - rewrite Hres. reflexivity.
Qed.

Lemma writerefs_failure_policy_witness :
  writerefs_classes repo_nopeel libc0 2 0 [ref_v1; ref_master] blank st0
  = Returned blank st0.
Proof.
  refine (proj1 (writerefs_failure_policy repo_nopeel libc0 1 0 [ref_v1] []
                   ref_master blank blank st0 st0 0 _ _) _); reflexivity.
Defined.

(** ** The tables of [writerefs] *)

Lemma writerefs_row_appends lc r ci : appends (fun fp => writerefs_row lc fp r ci).
Proof. unfold writerefs_row, printtimeshort. appends_chain. Qed.

(** The row [writerefs_row] writes is [row_text]. *)
Lemma writerefs_row_buf lc fp r ci :
  f_buf (writerefs_row lc fp r ci) = f_buf fp ++ row_text lc (r, ci).
Proof.
  unfold writerefs_row, row_text, printtimeshort. cbn [fst snd].
  destruct (author ci) as [a|];
    repeat (autorewrite with stream; cbn [f_buf]; rewrite ?printtimeformat_buf);
    closed_strings; unfold NL;
    rewrite <- ?app_assoc; cbn [app]; rewrite ?app_nil_r; reflexivity.
Qed.

Section RefTables.

Variable repo : git_repository.
Variable lc : libc.

Lemma class_rows_cons j r l :
  class_rows repo j (r :: l) =
    if in_class j r
    then match resolve_ref repo r with
         | Resolved r' ci => (r', ci) :: class_rows repo j l
         | _ => class_rows repo j l
         end
    else class_rows repo j l.
Proof.
  unfold class_rows. rewrite filter_cons.
  destruct (in_class j r) eqn:E.
  - rewrite decide_True by done. cbn [omap list_omap]. unfold resolved at 1.
    by destruct (resolve_ref repo r).
  - by rewrite decide_False by done.
Qed.

Lemma writerefs_loop_rows j refs : forall count fp st,
  Forall (no_failure repo j) refs ->
  exists fp' st',
    writerefs_loop repo lc j refs count fp st
    = Returned (LoopEnd, count + length (class_rows repo j refs), fp') st' /\
    f_buf fp' =
      f_buf fp ++
      match class_rows repo j refs with
      | [] => []
      | rows => (if count is 0 then table_open j else []) ++ flat_map (row_text lc) rows
      end.
Proof.
  induction refs as [|ref rest IH]; intros count fp st Hok.
  - exists fp, st. cbn. rewrite Nat.add_0_r, app_nil_r. done.
  - apply Forall_cons in Hok as [Hr Hok].
    rewrite writerefs_loop_cons, class_rows_cons.
    destruct (in_class j ref) eqn:Ec; cbn [negb]; [|by apply IH].
    specialize (Hr Ec).
    destruct (resolve_ref repo ref) as [| | | | |r ci]; try done; [by apply IH|].
    match goal with
    | |- context [writerefs_loop _ _ _ _ ?c ?f ?s] =>
        destruct (IH c f s Hok) as (fp' & st' & -> & Hb)
    end.
    exists fp', st'. split.
    { replace (count + length ((r, ci) :: class_rows repo j rest))
        with (S count + length (class_rows repo j rest)) by (cbn [length]; lia).
      reflexivity. }
    rewrite Hb, writerefs_row_buf.
    destruct (class_rows repo j rest) as [|x rows]; destruct count as [|count];
      cbn [Nat.eqb flat_map app];
      rewrite ?fprintf_buf, <- ?app_assoc, ?app_nil_r; reflexivity.
Qed.

Lemma writerefs_classes_tables refs fp st :
  Forall (no_failure repo 0) refs -> Forall (no_failure repo 1) refs ->
  exists fp' st',
    writerefs_classes repo lc 2 0 refs fp st = Returned fp' st' /\
    f_buf fp' =
      f_buf fp ++ table lc 0 (class_rows repo 0 refs) ++ table lc 1 (class_rows repo 1 refs).
Proof.
  intros H0 H1. cbn [writerefs_classes]. unfold bind.
  destruct (writerefs_loop_rows 0 refs 0 fp st H0) as (fp0 & st0' & -> & Hb0).
  match goal with
  | |- context [writerefs_loop _ _ 1 refs 0 ?f ?s] =>
      destruct (writerefs_loop_rows 1 refs 0 f s H1) as (fp1 & st1' & -> & Hb1)
  end.
  unfold ret. eexists _, _. split; [reflexivity|].
  cbn [Nat.add] in *.
  destruct (class_rows repo 0 refs) as [|x0 rows0], (class_rows repo 1 refs) as [|x1 rows1];
    cbn [length table] in *;
    repeat (rewrite ?Hb1, ?Hb0, ?fputs_buf, ?(c_str_closed table_close eq_refl));
    rewrite <- ?app_assoc, ?app_nil_r; reflexivity.
Qed.

End RefTables.

(** ** The order of the references *)

Lemma refs_cmp_branch_other b t :
  reference_is_branch b = true -> reference_is_branch t = false ->
  refs_cmp b t = 1%Z /\ refs_cmp t b = (-1)%Z.
Proof. unfold refs_cmp. by intros -> ->. Qed.

Lemma refs_cmp_same a b :
  reference_is_branch a = reference_is_branch b ->
  refs_cmp a b = strcmp (reference_shorthand a) (reference_shorthand b).
Proof. unfold refs_cmp. intros ->. by rewrite Z.eqb_refl. Qed.

Lemma refs_le_trans : Relations_1.Transitive refs_le.
Proof.
  intros a b c. unfold refs_le.
  destruct (reference_is_branch a) eqn:Ea, (reference_is_branch b) eqn:Eb,
    (reference_is_branch c) eqn:Ec;
    repeat match goal with
    | |- context [refs_cmp ?x ?y] =>
        first
          [ rewrite (refs_cmp_same x y) by congruence
          | rewrite (proj1 (refs_cmp_branch_other x y ltac:(done) ltac:(done)))
          | rewrite (proj2 (refs_cmp_branch_other y x ltac:(done) ltac:(done))) ]
    end; try lia; apply strcmp_le_trans.
Qed.

Lemma StronglySorted_filter_dec {A} (R : A -> A -> Prop) (P : A -> Prop)
    `{forall x, Decision (P x)} (l : list A) :
  StronglySorted R l -> StronglySorted R (filter P l).
Proof.
  induction 1 as [|x l Hl IH Hx]; [constructor|].
  rewrite filter_cons. case_decide; [|done].
  constructor; [done|].
  apply List.Forall_forall. intros y Hy.
  apply list_elem_of_In, list_elem_of_filter in Hy as [_ Hy].
  rewrite List.Forall_forall in Hx. apply Hx. by apply list_elem_of_In.
Qed.

Lemma StronglySorted_weaken {A} (R R' : A -> A -> Prop) (P : A -> Prop) (l : list A) :
  (forall a b, P a -> P b -> R a b -> R' a b) ->
  Forall P l -> StronglySorted R l -> StronglySorted R' l.
Proof.
  intros HR HP. induction 1 as [|x l Hl IH Hx]; [constructor|].
  apply Forall_cons in HP as [HPx HP].
  constructor; [by apply IH|].
  apply List.Forall_forall. intros y Hy.
  apply HR.
  - exact HPx.
  - rewrite List.Forall_forall in HP. by apply HP.
  - rewrite List.Forall_forall in Hx. by apply Hx.
Qed.

Lemma in_class_0 r : in_class 0 r = reference_is_branch r.
Proof. unfold in_class. cbn. by rewrite andb_true_r, andb_false_r, orb_false_r. Qed.

Lemma in_class_1 r : in_class 1 r = reference_is_tag r.
Proof. unfold in_class. cbn. by rewrite andb_true_r, andb_false_r. Qed.

(** C5, as the claim states it, fails: [refs_cmp] puts the branch [master]
    above the tag [v1], and the sorted array has the tag first. *)
Lemma refs_cmp_sorts_tags_first :
  refs_cmp ref_master ref_v1 = 1%Z /\
  qsort libc0 git_reference refs_cmp [ref_master; ref_v1] = [ref_v1; ref_master] /\
  ~ branches_sort_first.
Proof.
  split; [reflexivity|]. split; [reflexivity|].
  intros H. specialize (H ref_master ref_v1 eq_refl eq_refl eq_refl).
  vm_compute in H. discriminate H.
Qed.

Lemma insert_sorted_perm {A} (cmp : A -> A -> Z) (x : A) (l : list A) :
  Permutation (insert_sorted cmp x l) (x :: l).
Proof.
  induction l as [|y l IH]; cbn [insert_sorted]; [done|].
  destruct (cmp x y <=? 0)%Z; [done|].
  rewrite IH. apply perm_swap.
Qed.

Lemma insertion_sort_perm {A} (cmp : A -> A -> Z) (l : list A) :
  Permutation (insertion_sort cmp l) l.
Proof.
  induction l as [|x l IH]; cbn [insertion_sort]; [done|].
  by rewrite insert_sorted_perm, IH.
Qed.

Lemma resolve_target_not_skipped repo r : resolve_target repo r <> Skipped.
Proof.
  unfold resolve_target.
  destruct (reference_target r); [|done].
  destruct (git_reference_peel repo r) as [obj|]; [|done].
  destruct (object_id obj) as [i|]; [|done].
  by destruct (commitinfo_getbyoid repo i).
Qed.

Lemma resolved_listed repo r :
  failed (resolve_ref repo r) = false ->
  (listed r = false /\ resolved repo r = None) \/
  (listed r = true /\ exists x, resolved repo r = Some x).
Proof.
  unfold resolved, listed, resolve_ref.
  destruct (reference_type r); [by left| |]; intros H; right; (split; [done|]).
  - pose proof (resolve_target_not_skipped repo r) as Hn.
    destruct (resolve_target repo r); try done. by eexists.
  - destruct (git_reference_resolve repo r) as [d|]; [|done].
    pose proof (resolve_target_not_skipped repo d) as Hn.
    destruct (resolve_target repo d); try done. by eexists.
Qed.

(** Without failure there is one row per reference of a listed type, in
    the order of the references. *)
Lemma resolved_rows repo (l : list git_reference) :
  Forall (fun r => failed (resolve_ref repo r) = false) l ->
  Forall2 (fun r x => resolved repo r = Some x)
          (filter (fun r => listed r = true) l) (omap (resolved repo) l).
Proof.
  induction 1 as [|r l Hr _ IH]; [constructor|].
  rewrite filter_cons. cbn [omap list_omap].
  destruct (resolved_listed repo r Hr) as [[Hl ->]|[Hl [x Hx]]].
  - rewrite decide_False by congruence. exact IH.
  - rewrite decide_True by done. rewrite Hx. by constructor.
Qed.

(** What a row shows: a direct reference resolves to itself, a symbolic one
    to the reference [git_reference_resolve] gives. *)
Lemma resolved_shows repo r r' ci :
  resolved repo r = Some (r', ci) ->
  (reference_type r = GIT_REF_OID /\ r' = r) \/
  (reference_type r = GIT_REF_SYMBOLIC /\ git_reference_resolve repo r = Some r').
Proof.
  unfold resolved, resolve_ref, resolve_target. intros H.
  destruct (reference_type r); [done| |].
  - left. split; [done|].
    destruct (reference_target r); [|done].
    destruct (git_reference_peel repo r) as [obj|]; [|done].
    destruct (object_id obj) as [i|]; [|done].
    destruct (commitinfo_getbyoid repo i); [|done]. by injection H as <- _.
  - right. split; [done|].
    destruct (git_reference_resolve repo r) as [d|]; [|done].
    destruct (reference_target d); [|done].
    destruct (git_reference_peel repo d) as [obj|]; [|done].
    destruct (object_id obj) as [i|]; [|done].
    destruct (commitinfo_getbyoid repo i); [|done]. by injection H as <- _.
Qed.

(** C5 (amended). [refs_cmp] compares two references of the same kind by
    [strcmp] of their shorthand names and puts a branch above (after) any
    reference that is not a branch, so the sorted array has the tags before
    the branches.  The output still has the table of branches before the
    table of tags, because [writerefs] passes over the array once per class.
    When the array [qsort] leaves is a sorted permutation of the collected
    references, no reference is both a branch and a tag, and every reference
    of the two classes resolves to a commit whose snapshot can be built, the
    stream receives the table of the branches and then the table of the
    tags, each with one row per reference of the class (of a type that is not
    passed over), in the order of the array, which within each class is the
    lexicographic order of the shorthand names of the references listed.
    Each row is [row_text]: it shows the shorthand name of the reference the
    listed one resolves to, which is the listed one itself when it is direct
    and its target when it is symbolic, then the time and the author of the
    commit. *)
Theorem writerefs_tables_sorted (repo : git_repository) (lc : libc)
    (fp : FILE) (st : state) (collected : list git_reference)
    (Hlist : git_reference_list repo = Some collected)
    (Hperm : Permutation (qsort lc git_reference refs_cmp collected) collected)
    (Hsorted : Sorted refs_le (qsort lc git_reference refs_cmp collected))
    (Hexcl : Forall (fun r => reference_is_branch r && reference_is_tag r = false)
               collected)
    (Hok : Forall (fun r => no_failure repo 0 r /\ no_failure repo 1 r) collected) :
  let sorted := qsort lc git_reference refs_cmp collected in
  let branches := filter (fun r => in_class 0 r = true) sorted in
  let tags := filter (fun r => in_class 1 r = true) sorted in
  (forall b t, reference_is_branch b = true -> reference_is_branch t = false ->
               refs_cmp b t = 1%Z /\ refs_cmp t b = (-1)%Z) /\
  (forall a b, reference_is_branch a = reference_is_branch b ->
               refs_cmp a b = strcmp (reference_shorthand a) (reference_shorthand b)) /\
  (forall r, in_class 0 r = reference_is_branch r /\ in_class 1 r = reference_is_tag r) /\
  Permutation branches (filter (fun r => in_class 0 r = true) collected) /\
  Permutation tags (filter (fun r => in_class 1 r = true) collected) /\
  StronglySorted shorthand_le branches /\
  StronglySorted shorthand_le tags /\
  (forall r r' ci,
      resolved repo r = Some (r', ci) ->
      (reference_type r = GIT_REF_OID /\ r' = r) \/
      (reference_type r = GIT_REF_SYMBOLIC /\
       git_reference_resolve repo r = Some r')) /\
  Forall2 (fun r x => resolved repo r = Some x)
          (filter (fun r => listed r = true) branches)
          (omap (resolved repo) branches) /\
  Forall2 (fun r x => resolved repo r = Some x)
          (filter (fun r => listed r = true) tags)
          (omap (resolved repo) tags) /\
  exists fp' st',
    writerefs repo lc fp st = Returned (fp', 0%Z) st' /\
    f_buf fp' =
      f_buf fp ++ table lc 0 (omap (resolved repo) branches) ++
      table lc 1 (omap (resolved repo) tags).
Proof.
  intros sorted branches tags.
  assert (Hss : StronglySorted refs_le sorted)
    by (apply Sorted_StronglySorted; [apply refs_le_trans | exact Hsorted]).
  assert (Hexcl' : Forall (fun r => reference_is_branch r && reference_is_tag r = false)
                     sorted) by (unfold sorted; by rewrite Hperm).
  assert (Hok' : Forall (fun r => no_failure repo 0 r /\ no_failure repo 1 r) sorted)
    by (unfold sorted; by rewrite Hperm).
  split; [apply refs_cmp_branch_other|].
  split; [apply refs_cmp_same|].
  split; [intros r; split; [apply in_class_0 | apply in_class_1]|].
  split; [unfold branches, sorted; by rewrite Hperm|].
  split; [unfold tags, sorted; by rewrite Hperm|].
  split.
  { apply (StronglySorted_weaken refs_le shorthand_le
             (fun r => reference_is_branch r = true)).
    - intros a b Ha Hb. unfold refs_le, shorthand_le.
      by rewrite refs_cmp_same by congruence.
    - apply List.Forall_forall. intros r Hr.
      apply list_elem_of_In, list_elem_of_filter in Hr as [Hr _].
      by rewrite in_class_0 in Hr.
    - by apply StronglySorted_filter_dec. }
  split.
  { apply (StronglySorted_weaken refs_le shorthand_le
             (fun r => reference_is_branch r = false)).
    - intros a b Ha Hb. unfold refs_le, shorthand_le.
      by rewrite refs_cmp_same by congruence.
    - apply List.Forall_forall. intros r Hr.
      apply list_elem_of_In, list_elem_of_filter in Hr as [Hr Hin].
      rewrite in_class_1 in Hr.
      rewrite List.Forall_forall in Hexcl'.
      apply list_elem_of_In, Hexcl' in Hin. rewrite Hr, andb_true_r in Hin. done.
    - by apply StronglySorted_filter_dec. }
  split; [apply resolved_shows|].
  split.
  { apply resolved_rows. apply Forall_forall. intros r Hr.
    apply list_elem_of_filter in Hr as [Hc Hin].
    rewrite Forall_forall in Hok'. destruct (Hok' r Hin) as [H0 _]. by apply H0. }
  split.
  { apply resolved_rows. apply Forall_forall. intros r Hr.
    apply list_elem_of_filter in Hr as [Hc Hin].
    rewrite Forall_forall in Hok'. destruct (Hok' r Hin) as [_ H1]. by apply H1. }
  rewrite writerefs_unfold, Hlist. fold sorted.
  destruct (writerefs_classes_tables repo lc sorted fp st) as (fp' & st' & -> & Hb).
  - eapply Forall_impl; [exact Hok'|]. by intros r [? ?].
  - eapply Forall_impl; [exact Hok'|]. by intros r [? ?].
  - exists fp', st'. split; [done|]. exact Hb.
Qed.

Lemma writerefs_tables_sorted_witness :
  qsort libc0 git_reference refs_cmp [ref_zed; ref_v2; ref_alias; ref_v1; ref_bar]
  = [ref_v1; ref_v2; ref_alias; ref_bar; ref_zed] /\
  exists fp' st',
    writerefs repo_refs libc0 blank st0 = Returned (fp', 0%Z) st' /\
    f_buf fp' =
      table libc0 0 [(ref_zed, commit_head_info); (ref_bar, ci_root);
                     (ref_zed, commit_head_info)] ++
      table libc0 1 [(ref_v1, ci_root); (ref_v2, commit_head_info)].
Proof.
  split; [reflexivity|].
  destruct (writerefs_tables_sorted repo_refs libc0 blank st0
              [ref_zed; ref_v2; ref_alias; ref_v1; ref_bar])
    as (_ & _ & _ & _ & _ & _ & _ & _ & _ & _ & fp' & st' & Hw & Hb).
  - reflexivity.
  - apply (insertion_sort_perm refs_cmp).
  - repeat constructor; vm_compute; discriminate.
  - repeat constructor.
  - repeat constructor; intros _; reflexivity.
  - exists fp', st'. split; [exact Hw|]. exact Hb.
Defined.



(** * Further properties *)

(** ** filemode *)

Lemma land_mask m c k :
  (0 <= k)%Z -> (0 <= c < 2 ^ k)%Z -> Z.land (Z.land m (Z.ones k)) c = Z.land m c.
Proof.
  intros Hk Hc. rewrite <- Z.land_assoc. f_equal.
  rewrite Z.land_comm, Z.land_ones by lia.
  apply Z.mod_small. lia.
Qed.

Lemma set_type_char m mode : set_type m mode = <[0 := type_char m]> mode.
Proof.
  unfold set_type, type_char.
  repeat match goal with |- context [if ?b then _ else _] => destruct b end;
    reflexivity.
Qed.

Lemma filemode_split m : filemode m = filemode_from (type_char m) m.
Proof. unfold filemode, filemode_from. cbv zeta. by rewrite set_type_char. Qed.

Lemma has_bit_mask m bit :
  (0 <= bit < 2 ^ 12)%Z -> has_bit (Z.land m 0xFFF) bit = has_bit m bit.
Proof.
  intros H. unfold has_bit. change 0xFFF%Z with (Z.ones 12).
  by rewrite land_mask by lia.
Qed.

Lemma set_perm_mask m bit i c mode :
  (0 <= bit < 2 ^ 12)%Z ->
  set_perm (Z.land m 0xFFF) bit i c mode = set_perm m bit i c mode.
Proof. intros H. unfold set_perm. by rewrite has_bit_mask. Qed.

Lemma set_special_mask m bit i lo up mode :
  (0 <= bit < 2 ^ 12)%Z ->
  set_special (Z.land m 0xFFF) bit i lo up mode = set_special m bit i lo up mode.
Proof. intros H. unfold set_special. by rewrite has_bit_mask. Qed.

Lemma filemode_from_mask t m :
  filemode_from t (Z.land m 0xFFF) = filemode_from t m.
Proof.
  unfold filemode_from, filemode_perms.
  rewrite !set_special_mask, !set_perm_mask by (vm_compute; split; congruence).
  reflexivity.
Qed.

Lemma filemode_from_checked t :
  forallb (filemode_from_ok t) (map Z.of_nat (seq 0 4096)) = true.
Proof. vm_compute. reflexivity. Qed.

Lemma filemode_from_ok_all t m : filemode_from_ok t (Z.land m 0xFFF) = true.
Proof.
  pose proof (filemode_from_checked t) as H.
  rewrite forallb_forall in H. apply H.
  assert (Hr : (0 <= Z.land m 0xFFF < 4096)%Z).
  { change 0xFFF%Z with (Z.ones 12). rewrite Z.land_ones by lia.
    apply Z.mod_pos_bound. lia. }
  apply in_map_iff. exists (Z.to_nat (Z.land m 0xFFF)).
  split; [lia|]. apply in_seq. lia.
Qed.

Lemma filemode_from_ok_eq t m :
  filemode_from_ok t m
  = (mode_bits (filemode_from t m) =? m)%Z
    && Nat.eqb (length (filemode_from t m)) 10
    && forallb (fun c => negb (is_nul c)) (tail (filemode_from t m)).
Proof. reflexivity. Qed.

(** What the enumeration gives for every mode. *)
Lemma filemode_from_facts t m :
  mode_bits (filemode_from t m) = Z.land m 0xFFF /\
  length (filemode_from t m) = 10 /\
  forallb (fun c => negb (is_nul c)) (tail (filemode_from t m)) = true.
Proof.
  pose proof (filemode_from_ok_all t m) as H.
  rewrite filemode_from_ok_eq, filemode_from_mask in H.
  apply andb_prop in H as [H Hnul]. apply andb_prop in H as [Hb Hlen].
  apply Z.eqb_eq in Hb. apply Nat.eqb_eq in Hlen. done.
Qed.

Lemma set_perm_cons m bit k c t rest :
  set_perm m bit (S k) c (t :: rest) = t :: set_perm m bit k c rest.
Proof. unfold set_perm. by destruct (has_bit m bit). Qed.

Lemma set_special_cons m bit k lo up t rest :
  set_special m bit (S k) lo up (t :: rest) = t :: set_special m bit k lo up rest.
Proof. unfold set_special. by destruct (has_bit m bit). Qed.

Lemma filemode_from_head t m : exists rest, filemode_from t m = t :: rest.
Proof.
  unfold filemode_from, filemode_perms.
  change (<[0 := t]> (replicate 10 "-")) with (t :: replicate 9 "-").
  rewrite !set_perm_cons, !set_special_cons. eauto.
Qed.

Lemma type_char_not_nul m : is_nul (type_char m) = false.
Proof.
  unfold type_char.
  repeat match goal with |- context [if ?b then _ else _] => destruct b end;
    reflexivity.
Qed.

(** The mode string has ten characters and none of them is NUL. *)
Lemma filemode_ten (m : Z) :
  length (filemode m) = 10 /\ c_str (filemode m) = filemode m.
Proof.
  rewrite filemode_split.
  destruct (filemode_from_facts (type_char m) m) as (_ & Hlen & Hnul).
  split; [done|].
  apply c_str_id.
  destruct (filemode_from_head (type_char m) m) as [rest Hr].
  rewrite Hr in *. cbn [tail] in Hnul.
  constructor.
  - apply is_nul_false, type_char_not_nul.
  - rewrite forallb_forall in Hnul. apply List.Forall_forall.
    intros c Hc. apply is_nul_false. specialize (Hnul c Hc).
    by destruct (is_nul c).
Qed.

(** X1. The mode string shows the twelve permission bits of the mode and
    nothing else of it: reading the nine permission characters back (with
    [s], [S], [t], [T] for the set-id and sticky bits) gives [m & 07777]. *)
Theorem filemode_permission_bits (m : Z) :
  mode_bits (filemode m) = Z.land m 0xFFF.
Proof. rewrite filemode_split. apply filemode_from_facts. Qed.

(** X2. For every mode the string has exactly ten characters and none of
    them is NUL, so [fputs] writes all ten; the first of them tells the file
    type: it is the letter of [m & S_IFMT] for the seven types [filemode]
    knows and the question mark for any other value. *)
Theorem filemode_shape_and_type (m : Z) :
  length (filemode m) = 10 /\
  c_str (filemode m) = filemode m /\
  mode_type (filemode m)
  = if known_type (Z.land m S_IFMT) then Some (Z.land m S_IFMT) else None.
Proof.
  destruct (filemode_ten m) as [Hlen Hstr]. split; [done|]. split; [done|].
  rewrite filemode_split.
  destruct (filemode_from_head (type_char m) m) as [rest ->].
  unfold mode_type, mode_at, nth, type_char, known_type,
    S_ISREG, S_ISBLK, S_ISCHR, S_ISDIR, S_ISFIFO, S_ISLNK, S_ISSOCK.
  generalize (Z.land m S_IFMT). intros t.
  repeat match goal with
         | |- context [(t =? ?c)%Z] => destruct (Z.eqb_spec t c) as [->|?]
         end; reflexivity.
Qed.

(** ** xmlencode: what the written text looks like *)

Lemma entity_safe c : forallb (fun x => negb (markup_char x)) (entity c) = true.
Proof. destruct c as [[] [] [] [] [] [] [] []]; reflexivity. Qed.


Lemma escape_safe p : forallb (fun x => negb (markup_char x)) (escape p) = true.
Proof.
  induction p as [|c p IH]; [done|].
  unfold escape in *. cbn [flat_map]. rewrite forallb_app, entity_safe. exact IH.
Qed.


Lemma c_prefix_length s len : length (c_prefix s len) <= len.
Proof. unfold c_prefix. rewrite length_take. lia. Qed.

(** X3. Whatever bytes [xmlencode] is given, the text it appends holds
    none of the characters [<], [>], ['] and the double quote. *)
Theorem xmlencode_no_markup (fp : FILE) (s : list ascii) (len : nat) :
  exists text,
    f_buf (xmlencode fp s len) = f_buf fp ++ text /\
    Forall (fun c => markup_char c = false) text.
Proof.
  exists (escape (c_prefix s len)). split; [apply xmlencode_buf|].
  pose proof (escape_safe (c_prefix s len)) as H.
  rewrite forallb_forall in H. apply List.Forall_forall. intros c Hc.
  specialize (H c Hc). by destruct (markup_char c).
Qed.



Lemma xmlencode_app s1 : forall fp s2 n,
  Forall (fun c => c <> NUL) s1 ->
  xmlencode fp (s1 ++ s2) (length s1 + n) = xmlencode (xmlencode fp s1 (length s1)) s2 n.
Proof.
  induction s1 as [|c s1 IH]; intros fp s2 n Hn.
  - cbn. by destruct s2, n.
  - apply Forall_cons in Hn as [Hc Hn]. cbn.
    destruct (is_nul c) eqn:E; [by apply is_nul_true in E|].
    by apply IH.
Qed.

(** X5. Escaping a text piece by piece is escaping it whole: when [s1]
    holds no NUL, encoding [s1] and then up to [n] bytes of [s2] writes what
    encoding up to [length s1 + n] bytes of [s1 ++ s2] writes. *)
Theorem xmlencode_concat (fp : FILE) (s1 s2 : list ascii) (n : nat)
    (Hnul : Forall (fun c => c <> NUL) s1) :
  xmlencode (xmlencode fp s1 (length s1)) s2 n
  = xmlencode fp (s1 ++ s2) (length s1 + n).
Proof. symmetry. by apply xmlencode_app. Qed.

Lemma xmlencode_concat_witness :
  f_buf (xmlencode (xmlencode blank (lit "a<") 2) (lit "b>c") 2) = lit "a&lt;b&gt;".
Proof.
  refine (eq_trans
            (f_equal f_buf (xmlencode_concat blank (lit "a<") (lit "b>c") 2 _)) _).
  - repeat constructor; discriminate.
  - reflexivity.
Defined.

(** ** The comparison functions *)

Lemma strcmp_refl s : strcmp s s = 0%Z.
Proof.
  induction s as [|a s IH]; [done|]. cbn [strcmp].
  rewrite Ascii.eqb_refl. by destruct (is_nul a).
Qed.

Lemma strcmp_antisym s1 : forall s2, strcmp s2 s1 = (- strcmp s1 s2)%Z.
Proof.
  induction s1 as [|a s1 IH]; intros [|b s2]; cbn [strcmp]; try lia.
  rewrite (Ascii.eqb_sym b a).
  destruct (Ascii.eqb_spec a b) as [->|Hab]; [|lia].
  destruct (is_nul b); [done|]. apply IH.
Qed.

(** X6. [refs_cmp] is a comparison function as [qsort] needs one: a
    reference compares equal to itself, swapping the arguments negates the
    result, and the order it gives is transitive. *)
Theorem refs_cmp_consistent :
  (forall a, refs_cmp a a = 0%Z) /\
  (forall a b, refs_cmp b a = (- refs_cmp a b)%Z) /\
  (forall a b c, (refs_cmp a b <= 0)%Z -> (refs_cmp b c <= 0)%Z ->
                 (refs_cmp a c <= 0)%Z).
Proof.
  split; [|split].
  - intros a. rewrite refs_cmp_same by done. apply strcmp_refl.
  - intros a b. unfold refs_cmp.
    destruct (reference_is_branch a), (reference_is_branch b); cbn;
      try reflexivity; apply strcmp_antisym.
  - apply refs_le_trans.
Qed.

(** ** Snapshots *)

(** X7. A parent that is named but cannot be looked up is tolerated: the
    snapshot is built, it keeps the hexadecimal id of the parent, and its
    diff is the one against the empty (NULL) tree, as for a root commit. *)
Theorem commitinfo_missing_parent (repo : git_repository) (i pid : git_oid)
    (rest : list git_oid) (c : git_commit) (ctree : git_tree) (d : git_diff)
    (s : git_diff_stats)
    (Hc : git_commit_lookup repo i = Some c)
    (Hp : commit_parent_ids c = pid :: rest)
    (Hlost : git_commit_lookup repo pid = None)
    (Htree : git_tree_lookup repo (commit_tree_id c) = Some ctree)
    (Hdiff : git_diff_tree_to_tree repo None (Some ctree) diff_opts = Some d)
    (Hstats : git_diff_get_stats repo d = Some s) :
  exists ci,
    commitinfo_getbyoid repo i = Some ci /\
    parentoid ci = git_oid_tostr (GIT_OID_HEXSZ + 1) (Some pid) /\
    parent ci = None /\ parent_tree ci = None /\ diff ci = d.
Proof.
  unfold commitinfo_getbyoid, git_commit_tree, git_commit_parent.
  rewrite Hc, Htree, Hp. cbn [lookup list_lookup]. rewrite Hlost.
  unfold commitinfo_diff, git_commit_parent_id.
  change (mkOpts _) with diff_opts. rewrite Hdiff, Hstats, Hp.
  eexists. split; [reflexivity|]. by cbn.
Qed.

Lemma commitinfo_missing_parent_witness :
  exists ci,
    commitinfo_getbyoid repo_cut oid_cut = Some ci /\
    parentoid ci = oid_lost /\ parent_tree ci = None.
Proof.
  destruct (commitinfo_missing_parent repo_cut oid_cut oid_lost [] commit_cut
              (lit "cccc") diff0 stats0 eq_refl eq_refl eq_refl eq_refl
              eq_refl eq_refl) as (ci & H1 & H2 & _ & H3 & _).
  exists ci. split; [exact H1|]. split; [exact H2 | exact H3].
Defined.

(** X8. A parent that is found but whose tree cannot be read makes the
    snapshot fail, although the tree of the commit itself is read. *)
Theorem commitinfo_parent_tree_unreadable (repo : git_repository)
    (i pid : git_oid) (rest : list git_oid) (c p : git_commit) (ctree : git_tree)
    (Hc : git_commit_lookup repo i = Some c)
    (Hp : commit_parent_ids c = pid :: rest)
    (Hparent : git_commit_lookup repo pid = Some p)
    (Htree : git_tree_lookup repo (commit_tree_id c) = Some ctree)
    (Hptree : git_tree_lookup repo (commit_tree_id p) = None) :
  commitinfo_getbyoid repo i = None.
Proof.
  unfold commitinfo_getbyoid, git_commit_tree, git_commit_parent.
  rewrite Hc, Htree, Hp. cbn [lookup list_lookup]. by rewrite Hparent, Hptree.
Qed.

Lemma commitinfo_parent_tree_unreadable_witness :
  commitinfo_getbyoid repo_badtree oid_head = None.
Proof.
  exact (commitinfo_parent_tree_unreadable repo_badtree oid_head oid_root []
           commit_head commit_root (lit "bbbb") eq_refl eq_refl eq_refl eq_refl
           eq_refl).
Defined.

Lemma git_oid_tostr_length n o : length (git_oid_tostr n o) <= GIT_OID_HEXSZ.
Proof.
  destruct o as [h|]; cbn; [|lia]. rewrite length_take. unfold GIT_OID_HEXSZ. lia.
Qed.

Lemma c_str_take n s : c_str (take n (c_str s)) = take n (c_str s).
Proof.
  apply c_str_id, Forall_take, c_str_no_nul.
Qed.

Lemma git_oid_tostr_c_str n o : c_str (git_oid_tostr n o) = git_oid_tostr n o.
Proof. destruct o as [h|]; [apply c_str_take | done]. Qed.

(** What a snapshot that is built holds. *)
Lemma commitinfo_getbyoid_spec (repo : git_repository) (i : git_oid)
    (ci : commitinfo)
    (Hci : commitinfo_getbyoid repo i = Some ci) :
  id ci = i /\
  git_commit_lookup repo i = Some (commit ci) /\
  oid ci = git_oid_tostr (GIT_OID_HEXSZ + 1) (Some (commit_id (commit ci))) /\
  commit_tree ci = git_commit_tree repo (commit ci) /\
  git_diff_tree_to_tree repo (parent_tree ci) (commit_tree ci) diff_opts
  = Some (diff ci) /\
  exists s,
    stats ci = Some s /\ git_diff_get_stats repo (diff ci) = Some s /\
    addcount ci = insertions s /\ delcount ci = deletions s /\
    filecount ci = files_changed s.
Proof.
  unfold commitinfo_getbyoid in Hci.
  destruct (git_commit_lookup repo i) as [c|] eqn:Hc; [|done].
  destruct (git_commit_tree repo c) as [ctree|] eqn:Ht; [|done].
  assert (Hd : exists p ptree, commitinfo_diff repo i c ctree p ptree = Some ci).
  { destruct (git_commit_parent repo c 0) as [p|]; [|by eauto].
    destruct (git_commit_tree repo p) as [ptree|]; [by eauto|done]. }
  destruct Hd as (p & ptree & Hd). unfold commitinfo_diff in Hd.
  change (mkOpts _) with diff_opts in Hd.
  destruct (git_diff_tree_to_tree repo ptree (Some ctree) diff_opts) as [d|] eqn:Hdiff;
    [|done].
  destruct (git_diff_get_stats repo d) as [s|] eqn:Hs; [|done].
  injection Hd as <-. cbn. repeat split; try done.
  exists s. by repeat split.
Qed.

(** X9. A snapshot that is built is consistent: it is the snapshot of the
    commit asked for, its diff is the diff from its parent tree to its tree
    with pathspec matching disabled, and its three counts are those of the
    statistics of that diff. *)
Theorem commitinfo_consistent (repo : git_repository) (i : git_oid)
    (ci : commitinfo)
    (Hci : commitinfo_getbyoid repo i = Some ci) :
  id ci = i /\
  git_commit_lookup repo i = Some (commit ci) /\
  oid ci = git_oid_tostr (GIT_OID_HEXSZ + 1) (Some (commit_id (commit ci))) /\
  commit_tree ci = git_commit_tree repo (commit ci) /\
  git_diff_tree_to_tree repo (parent_tree ci) (commit_tree ci) diff_opts
  = Some (diff ci) /\
  exists s,
    stats ci = Some s /\ git_diff_get_stats repo (diff ci) = Some s /\
    addcount ci = insertions s /\ delcount ci = deletions s /\
    filecount ci = files_changed s.
Proof. by apply commitinfo_getbyoid_spec. Qed.

Lemma commitinfo_consistent_witness :
  addcount ci_root = 1 /\ filecount ci_root = 1.
Proof.
  destruct (commitinfo_consistent repo0 oid_root ci_root eq_refl)
    as (_ & _ & _ & _ & _ & s & Hs & _ & Ha & _ & Hf).
  injection Hs as <-. split; [exact Ha | exact Hf].
Defined.

(** X10. The path of the page of a snapshot is never cut by [snprintf]: it
    is [commit/], the hexadecimal id and [.html], at most 52 bytes. *)
Theorem commit_path_exact (repo : git_repository) (i : git_oid) (ci : commitinfo)
    (Hci : commitinfo_getbyoid repo i = Some ci) :
  commit_path (oid ci) = lit "commit/" ++ oid ci ++ lit ".html" /\
  length (commit_path (oid ci)) <= 52.
Proof.
  destruct (commitinfo_getbyoid_spec repo i ci Hci) as (_ & _ & Ho & _).
  pose proof (git_oid_tostr_length (GIT_OID_HEXSZ + 1) (Some (commit_id (commit ci)))) as Hl.
  rewrite <- Ho in Hl. unfold GIT_OID_HEXSZ in Hl.
  assert (Hc : c_str (oid ci) = oid ci) by (rewrite Ho; apply git_oid_tostr_c_str).
  unfold commit_path, snprintf. rewrite Hc.
  assert (Hlen : length (lit "commit/" ++ oid ci ++ lit ".html") <= 52).
  { rewrite !length_app. cbn [lit list_ascii_of_string length]. lia. }
  rewrite take_ge by (unfold PATH_MAX; lia). done.
Qed.

Lemma commit_path_exact_witness :
  commit_path (oid ci_root) = lit "commit/" ++ oid_root ++ lit ".html".
Proof.
  exact (proj1 (commit_path_exact repo0 oid_root ci_root eq_refl)).
Defined.

(** ** mkdirp *)

Lemma mkdir_fails_spec path st :
  fs st ⊆ fs (mkdir_fails path st).2 /\
  only_new_dirs (fs st) (fs (mkdir_fails path st).2) /\
  globals_of (mkdir_fails path st).2 = globals_of st /\
  ((mkdir_fails path st).1 = false ->
   is_Some (fs (mkdir_fails path st).2 !! path) /\ strlen path <> 0).
Proof.
  unfold mkdir_fails, only_new_dirs.
  destruct (strlen path) as [|k]; cbn.
  { repeat split; eauto; done. }
  destruct (fs st !! path) as [n|] eqn:E; cbn.
  { rewrite E. repeat split; eauto. }
  destruct (parent_exists path (fs st)); cbn.
  - repeat split.
    + by apply insert_subseteq.
    + intros p n Hp. destruct (decide (path = p)) as [<-|Hne].
      * rewrite lookup_insert_eq in Hp. injection Hp as <-. by right.
      * rewrite lookup_insert_ne in Hp by done. by left.
    + rewrite lookup_insert_eq. by eexists.
    + done.
  - repeat split; eauto; done.
Qed.

Lemma mkdir_fails_present path st :
  strlen path <> 0 -> is_Some (fs st !! path) -> mkdir_fails path st = (false, st).
Proof.
  intros Hp [n Hn]. unfold mkdir_fails.
  destruct (strlen path); [done|]. by rewrite Hn.
Qed.

Lemma only_new_dirs_refl m : only_new_dirs m m.
Proof. intros p n H. by left. Qed.

Lemma only_new_dirs_trans m1 m2 m3 :
  m1 ⊆ m2 -> only_new_dirs m1 m2 -> only_new_dirs m2 m3 -> only_new_dirs m1 m3.
Proof.
  intros Hsub H12 H23 p n Hp.
  destruct (H23 p n Hp) as [H2|[H2 ->]].
  - by apply H12.
  - destruct (m1 !! p) as [n1|] eqn:E1; [|by right].
    apply (lookup_weaken _ _ _ _ E1) in Hsub. congruence.
Qed.

Lemma mkdirp_loop_spec rest : forall pre st,
  exists v st',
    mkdirp_loop pre rest st = Returned v st' /\
    (v = 0%Z \/ v = (-1)%Z) /\
    fs st ⊆ fs st' /\ only_new_dirs (fs st) (fs st') /\
    globals_of st' = globals_of st /\
    (v = 0%Z -> is_Some (fs st' !! (pre ++ rest))).
Proof.
  induction rest as [|c rest IH]; intros pre st; cbn [mkdirp_loop].
  - destruct (mkdir_fails_spec pre st) as (Hs & Hn & Hg & He).
    destruct (mkdir_fails pre st) as [failed st'] eqn:E. cbn in *.
    exists (if failed then (-1)%Z else 0%Z), st'. rewrite app_nil_r.
    destruct failed; repeat split; eauto; try done. intros _. by apply He.
  - destruct (Ascii.eqb c "/").
    + destruct (mkdir_fails_spec pre st) as (Hs & Hn & Hg & He).
      destruct (mkdir_fails pre st) as [failed st1] eqn:E. cbn in *.
      destruct failed.
      { exists (-1)%Z, st1. repeat split; eauto. done. }
      destruct (IH (pre ++ [c]) st1) as (v & st' & -> & Hv & Hs' & Hn' & Hg' & He').
      exists v, st'. rewrite <- app_assoc in He'.
      repeat split; eauto.
      * by etransitivity.
      * by eapply only_new_dirs_trans.
      * congruence.
    + destruct (IH (pre ++ [c]) st) as (v & st' & -> & Hv & Hs' & Hn' & Hg' & He').
      exists v, st'. rewrite <- app_assoc in He'. repeat split; eauto.
Qed.

Lemma mkdirp_loop_again rest : forall pre st st' st2,
  mkdirp_loop pre rest st = Returned 0%Z st' ->
  fs st' ⊆ fs st2 ->
  mkdirp_loop pre rest st2 = Returned 0%Z st2.
Proof.
  induction rest as [|c rest IH]; intros pre st st' st2 H Hsub;
    cbn [mkdirp_loop] in *.
  - destruct (mkdir_fails_spec pre st) as (_ & _ & _ & He).
    destruct (mkdir_fails pre st) as [[] st1]; [done|]. cbn in He.
    injection H as <-. destruct (He eq_refl) as [[n Hn] Hne].
    rewrite mkdir_fails_present; [done|done|].
    exists n. by eapply lookup_weaken.
  - destruct (Ascii.eqb c "/"); [|by eapply IH].
    destruct (mkdir_fails_spec pre st) as (_ & _ & _ & He).
    destruct (mkdir_fails pre st) as [[] st1]; [done|]. cbn in He.
    destruct (He eq_refl) as [[n Hn] Hne].
    destruct (mkdirp_loop_spec rest (pre ++ [c]) st1)
      as (v & st'' & Hl & _ & Hs1 & _).
    rewrite Hl in H. injection H as -> ->.
    rewrite mkdir_fails_present.
    + by eapply IH.
    + done.
    + exists n. eapply lookup_weaken; [|exact Hsub].
      by eapply lookup_weaken.
Qed.

(** The path [mkdirp] works on: its argument as far as it fits [tmp]. *)
Lemma mkdirp_unfold path :
  exists pre rest,
    pre ++ rest = snprintf PATH_MAX (c_str path) /\
    forall st, mkdirp path st = mkdirp_loop pre rest st.
Proof.
  unfold mkdirp. destruct (snprintf PATH_MAX (c_str path)) as [|c rest] eqn:E.
  - by exists [], [].
  - destruct (Ascii.eqb_spec c "/") as [->|Hc].
    + by exists ["/"], rest.
    + exists [], (c :: rest). split; [done|]. intros st.
      destruct c as [[] [] [] [] [] [] [] []]; try reflexivity. done.
Qed.

Lemma mkdirp_spec path st :
  exists v st',
    mkdirp path st = Returned v st' /\
    (v = 0%Z \/ v = (-1)%Z) /\
    fs st ⊆ fs st' /\ only_new_dirs (fs st) (fs st') /\
    globals_of st' = globals_of st.
Proof.
  destruct (mkdirp_unfold path) as (pre & rest & _ & Hu). rewrite Hu.
  destruct (mkdirp_loop_spec rest pre st) as (v & st' & H & Hv & Hs & Hn & Hg & _).
  exists v, st'. by repeat split.
Qed.

(** X11. [mkdirp] always returns, with 0 or -1; it never changes or
    removes what is in the directory, whatever it adds is a directory, and it
    leaves the variables of the program alone. *)
Theorem mkdirp_only_adds_directories (path : list ascii) (st : state) :
  exists v st',
    mkdirp path st = Returned v st' /\
    (v = 0%Z \/ v = (-1)%Z) /\
    fs st ⊆ fs st' /\ only_new_dirs (fs st) (fs st') /\
    globals_of st' = globals_of st.
Proof. apply mkdirp_spec. Qed.

(** X12. When [mkdirp] returns 0, something exists at the path (as far as
    it fits [PATH_MAX]), and calling it again returns 0 and changes nothing:
    components that exist already are not an error. *)
Theorem mkdirp_idempotent (path : list ascii) (st st' : state)
    (Hok : mkdirp path st = Returned 0%Z st') :
  is_Some (fs st' !! snprintf PATH_MAX (c_str path)) /\
  mkdirp path st' = Returned 0%Z st'.
Proof.
  destruct (mkdirp_unfold path) as (pre & rest & Hp & Hu).
  rewrite Hu in Hok. rewrite Hu. split.
  - destruct (mkdirp_loop_spec rest pre st) as (v & st'' & H & _ & _ & _ & _ & He).
    rewrite H in Hok. injection Hok as -> ->. rewrite <- Hp. by apply He.
  - by eapply mkdirp_loop_again.
Qed.

Lemma mkdirp_idempotent_witness :
  is_Some (fs (set_fs (<[lit "file" := Dir]> (<[lit "file/src" := Dir]> (fs st0))) st0)
             !! lit "file/src") /\
  mkdirp (lit "file/src")
    (set_fs (<[lit "file" := Dir]> (<[lit "file/src" := Dir]> (fs st0))) st0)
  = Returned 0%Z
      (set_fs (<[lit "file" := Dir]> (<[lit "file/src" := Dir]> (fs st0))) st0).
Proof.
  exact (mkdirp_idempotent (lit "file/src") st0 _ eq_refl).
Defined.

(** ** writeblob *)

Lemma take_take_app {A} n (l k : list A) :
  take n (take n l ++ k) = take n (l ++ k).
Proof.
  destruct (decide (length l <= n)) as [Hle|Hgt].
  - by rewrite (take_ge l n) by lia.
  - rewrite !take_app_le by (rewrite ?length_take; lia).
    by rewrite take_take, Nat.min_id.
Qed.

Lemma writeblob_tmp_spec p : forall tmp,
  writeblob_tmp p (take (PATH_MAX - 1) tmp)
  = take (PATH_MAX - 1) (tmp ++ up_dirs (slashes p)).
Proof.
  unfold slashes, up_dirs. remember (PATH_MAX - 1) as n eqn:En.
  induction p as [|c p IH]; intros tmp; cbn [writeblob_tmp List.filter].
  - cbn. by rewrite app_nil_r.
  - destruct (Ascii.eqb c "/"); [|apply IH].
    unfold strlcat. rewrite <- En. change (c_str (lit "../")) with (lit "../").
    rewrite take_take_app, IH. cbn [length replicate concat].
    by rewrite <- app_assoc.
Qed.

(** X13. The prefix [writeblob] sets as [relpath] while it writes the page
    of a file is one [../] per slash of the path of the page, as far as that
    fits [PATH_MAX]; for a path of fewer than 1365 slashes nothing is cut. *)
Theorem writeblob_relpath_depth (fpath : list ascii) :
  writeblob_tmp (c_str fpath) []
  = take (PATH_MAX - 1) (up_dirs (slashes (c_str fpath))) /\
  (3 * slashes (c_str fpath) < PATH_MAX ->
   writeblob_tmp (c_str fpath) [] = up_dirs (slashes (c_str fpath))).
Proof.
  assert (H : writeblob_tmp (c_str fpath) []
              = take (PATH_MAX - 1) (up_dirs (slashes (c_str fpath)))).
  { pose proof (writeblob_tmp_spec (c_str fpath) []) as H0.
    rewrite take_nil in H0. exact H0. }
  split; [done|]. intros Hk. rewrite H. apply take_ge.
  assert (Hlen : forall k, length (up_dirs k) = 3 * k).
  { induction k as [|k IHk]; [done|]. unfold up_dirs in *. cbn [replicate concat].
    rewrite length_app, IHk. cbn [length lit]. cbn. lia. }
  rewrite Hlen. unfold PATH_MAX in *. lia.
Qed.

(** The three ways [writeblob] ends: it gives up on the directory, the
    process ends on the page that cannot be opened, or the page is written. *)
Lemma writeblob_outcome obj fpath filename filesize st :
  exists r st1,
    mkdirp (xdirname fpath) st = Returned r st1 /\
    ((r <> 0%Z /\
      writeblob obj fpath filename filesize st = Returned (-1)%Z st1) \/
     (r = 0%Z /\
      fopen_w fpath (set_relpath (writeblob_tmp (c_str fpath) []) st1) = None /\
      writeblob obj fpath filename filesize st = Exited 1%Z) \/
     (r = 0%Z /\
      is_Some (fopen_w fpath (set_relpath (writeblob_tmp (c_str fpath) []) st1)) /\
      exists text,
        writeblob obj fpath filename filesize st
        = Returned (if blob_is_binary obj then 0%Z
                    else int_of_size_t (line_count (blob_rawcontent obj)))
                   (set_relpath [] (set_fs (<[fpath := File text]> (fs st1)) st1)))).
Proof.
  destruct (mkdirp_spec (xdirname fpath) st) as (r & st1 & Hm & _).
  exists r, st1. split; [done|].
  unfold writeblob, bind. rewrite Hm.
  destruct (Z.eqb_spec r 0) as [->|Hr]; cbn [negb]; [|by left].
  right.
  destruct (fopen_w fpath (set_relpath (writeblob_tmp (c_str fpath) []) st1))
    as [[fp st2]|] eqn:Hopen; [right|left].
  2: { unfold modify at 1. unfold efopen. by rewrite Hopen. }
  split; [done|]. split; [by eexists|].
  unfold modify at 1. unfold efopen. rewrite Hopen.
  pose proof (fopen_w_fresh _ _ _ _ Hopen) as ->.
  assert (Hst2 : st2 = set_fs (<[fpath := File []]> (fs st1))
                         (set_relpath (writeblob_tmp (c_str fpath) []) st1)).
  { unfold fopen_w in Hopen. cbn [fs set_relpath] in Hopen.
    destruct (fs st1 !! fpath) as [[]|];
      destruct (parent_exists fpath (fs st1)); congruence. }
  destruct (writeheader_returns (mkFILE fpath [] false) st2) as (fp1 & -> & Hp & He).
  cbn [f_err f_path] in *.
  set (fp2 := fputs (lit "</p><hr/>") _).
  assert (He2 : f_err fp2 = false) by (subst fp2; same_stream; exact He).
  assert (Hp2 : f_path fp2 = fpath) by (subst fp2; same_stream; exact Hp).
  clearbody fp2.
  destruct (blob_is_binary obj).
  - unfold ret, fclose, modify. cbn [fst snd]. eexists. f_equal.
    rewrite Hst2. unfold set_relpath, set_fs. cbn [fs relpath name stripped_name
      description cloneurl hasreadme haslicense]. f_equal.
    unfold writefooter. cbn [f_path fputs]. rewrite Hp2.
    rewrite insert_insert_eq. reflexivity.
  - rewrite writeblobhtml_spec. unfold ferror. cbn [fst snd f_err].
    rewrite He2. unfold ret, fclose, modify. cbn [fst snd]. eexists. f_equal.
    rewrite Hst2. unfold set_relpath, set_fs. cbn [fs relpath name stripped_name
      description cloneurl hasreadme haslicense]. f_equal.
    unfold writefooter. cbn [f_path fputs]. rewrite Hp2.
    rewrite insert_insert_eq. reflexivity.
Qed.

(** X15. The content of a binary blob never reaches its page: two binary
    blobs give the same page, the same value and the same state. *)
Theorem writeblob_binary_ignores_content (o1 o2 : git_blob)
    (fpath filename : list ascii) (filesize : nat) (st : state)
    (Hb1 : blob_is_binary o1 = true) (Hb2 : blob_is_binary o2 = true) :
  writeblob o1 fpath filename filesize st
  = writeblob o2 fpath filename filesize st.
Proof. unfold writeblob. by rewrite Hb1, Hb2. Qed.

Lemma writeblob_binary_ignores_content_witness :
  writeblob blob_bin (lit "file/a.txt.html") (lit "a.txt") 5 st0
  = writeblob blob_bin' (lit "file/a.txt.html") (lit "a.txt") 5 st0.
Proof.
  exact (writeblob_binary_ignores_content blob_bin blob_bin'
           (lit "file/a.txt.html") (lit "a.txt") 5 st0 eq_refl eq_refl).
Defined.

(** ** writelog *)

(** The three ways [printshowfile] ends. *)
Lemma printshowfile_cases lc ci st :
  (is_Some (fs st !! commit_path (oid ci)) /\
   printshowfile lc ci st = Returned tt st) \/
  (fs st !! commit_path (oid ci) = None /\
   parent_exists (commit_path (oid ci)) (fs st) = false /\
   printshowfile lc ci st = Exited 1%Z) \/
  (fs st !! commit_path (oid ci) = None /\
   exists text,
     printshowfile lc ci st
     = Returned tt (set_fs (<[commit_path (oid ci) := File text]> (fs st)) st)).
Proof.
  destruct (fs st !! commit_path (oid ci)) as [n|] eqn:E.
  - left. split; [by eexists|]. apply printshowfile_present. by eexists.
  - right. destruct (parent_exists (commit_path (oid ci)) (fs st)) eqn:Hpar.
    + right. split; [done|]. by apply printshowfile_absent.
    + left. split; [done|]. split; [done|].
      unfold printshowfile, bind, access, gets.
      rewrite bool_decide_false by (rewrite E; by intros [? ?]).
      cbn [Z.eqb]. unfold efopen, fopen_w. by rewrite E, Hpar.
Qed.

Lemma writelog_loop_spec repo lc cfg ids : forall fp st fp' st',
  writelog_loop repo lc cfg ids fp st = Returned fp' st' ->
  fp' = fprintf (log_rows repo lc cfg ids) fp /\
  fs st ⊆ fs st' /\
  only_new_pages repo ids (fs st) (fs st') /\
  pages_present repo ids (fs st') /\
  meta_of st' = meta_of st.
Proof.
  unfold log_rows, pages_present, only_new_pages.
  induction ids as [|i rest IH]; intros fp st fp' st' H.
  - cbn in H. injection H as <- <-. cbn [snapshots flat_map].
    repeat split; eauto.
    apply FILE_eq; autorewrite with stream; by rewrite ?app_nil_r.
  - destruct (commitinfo_getbyoid repo i) as [ci|] eqn:Hci.
    2: { rewrite writelog_loop_stop in H by done. injection H as <- <-.
         cbn [snapshots flat_map]. rewrite Hci. cbn [flat_map].
         repeat split; eauto.
         apply FILE_eq; autorewrite with stream; by rewrite ?app_nil_r. }
    rewrite (writelog_loop_step _ _ _ _ _ _ _ _ Hci) in H.
    cbn [snapshots]. rewrite Hci. cbn [flat_map].
    destruct (printshowfile_cases lc ci (set_relpath (lit "../") st))
      as [(Hpres & Hp)|[(_ & _ & Hp)|(Hnone & text & Hp)]];
      rewrite Hp in H; [| done |].
    + destruct (IH _ _ _ _ H) as (-> & Hs & Hn & Hpg & Hm).
      cbn [fs set_relpath] in *. repeat split; eauto.
      * apply FILE_eq; autorewrite with stream; by rewrite ?app_assoc.
      * intros p n Hp'. destruct (Hn p n Hp') as [|(? & c & t & ? & ? & ?)];
          [by left|right]. split; [done|]. exists c, t. by repeat split; [right|..].
      * constructor; [|done]. destruct Hpres as [n Hn']. exists n.
        by eapply lookup_weaken.
    + destruct (IH _ _ _ _ H) as (-> & Hs & Hn & Hpg & Hm).
      cbn [fs set_relpath set_fs] in *.
      assert (Hsub : fs st ⊆ <[commit_path (oid ci) := File text]> (fs st))
        by by apply insert_subseteq.
      repeat split; eauto.
      * apply FILE_eq; autorewrite with stream; by rewrite ?app_assoc.
      * by etransitivity.
      * intros p n Hp'. destruct (Hn p n Hp') as [Hin|(Hnone' & c & t & ? & ? & ?)].
        -- destruct (decide (commit_path (oid ci) = p)) as [<-|Hne].
           ++ rewrite lookup_insert_eq in Hin. injection Hin as <-.
              right. split; [done|]. exists ci, text. by repeat split; [left|..].
           ++ rewrite lookup_insert_ne in Hin by done. by left.
        -- right. split.
           ++ destruct (fs st !! p) eqn:E; [|done].
              apply (lookup_weaken _ _ _ _ E) in Hsub. congruence.
           ++ exists c, t. by repeat split; [right|..].
      * constructor; [|done]. exists (File text).
        eapply lookup_weaken; [|exact Hs]. apply lookup_insert_eq.
Qed.

(** With every page there already, the loop writes the rows and changes
    nothing but the cursor. *)
Lemma writelog_loop_again repo lc cfg ids : forall fp st,
  pages_present repo ids (fs st) ->
  exists rp,
    writelog_loop repo lc cfg ids fp st
    = Returned (fprintf (log_rows repo lc cfg ids) fp) (set_relpath rp st).
Proof.
  unfold log_rows, pages_present.
  induction ids as [|i rest IH]; intros fp st Hpg.
  - exists (relpath st). cbn. unfold ret. f_equal.
    + apply FILE_eq; autorewrite with stream; by rewrite ?app_nil_r.
    + by destruct st.
  - destruct (commitinfo_getbyoid repo i) as [ci|] eqn:Hci.
    2: { exists []. rewrite writelog_loop_stop by done.
         cbn [snapshots flat_map]. rewrite Hci. cbn [flat_map]. f_equal.
         apply FILE_eq; autorewrite with stream; by rewrite ?app_nil_r. }
    rewrite (writelog_loop_step _ _ _ _ _ _ _ _ Hci).
    cbn [snapshots] in *. rewrite Hci in *. cbn [flat_map].
    apply Forall_cons in Hpg as [Hhere Hrest].
    rewrite printshowfile_present by done.
    destruct (IH (fprintf (log_row lc ci (summary_cell cfg)) fp)
                 (set_relpath (lit "../") st) Hrest) as (rp & ->).
    exists rp. f_equal.
    apply FILE_eq; autorewrite with stream; by rewrite ?app_assoc.
Qed.

(** X16. When [writelog] returns, the value is 0, the stream has received
    the head of the table, one row per snapshot of the walk and the end of
    the table, the cursor is empty, every snapshot of the walk has its page,
    no entry of the directory was changed or removed, and what is new is the
    page of a snapshot of the walk. *)
Theorem writelog_writes_rows_and_pages (repo : git_repository) (lc : libc)
    (cfg : config) (fp : FILE) (o : git_oid) (st st' : state) (r : FILE * Z)
    (Hret : writelog repo lc cfg fp o st = Returned r st') :
  let ids := git_revwalk_ids repo (log_walk o) in
  r = (fprintf (log_open ++ log_rows repo lc cfg ids ++ log_close) fp, 0%Z) /\
  relpath st' = [] /\
  meta_of st' = meta_of st /\
  fs st ⊆ fs st' /\
  only_new_pages repo ids (fs st) (fs st') /\
  pages_present repo ids (fs st').
Proof.
  intros ids. unfold writelog, bind in Hret. fold (log_walk o) in Hret. fold ids in Hret.
  destruct (writelog_loop repo lc cfg ids _ st) as [fp1 st1|n] eqn:Hl; [|done].
  apply writelog_loop_spec in Hl as (-> & Hs & Hn & Hpg & Hm).
  unfold modify, ret in Hret. injection Hret as <- <-.
  cbn [relpath fs set_relpath]. repeat split; eauto.
  f_equal. apply FILE_eq; autorewrite with stream; try done.
  by rewrite <- !app_assoc.
Qed.

Lemma writelog_writes_rows_and_pages_witness :
  pages_present repo0 [oid_head; oid_root] (fs st_log).
Proof.
  refine (proj2 (proj2 (proj2 (proj2 (proj2
    (writelog_writes_rows_and_pages repo0 libc0 cfg0 blank oid_head st_commit
       st_log r_log _)))))).
  vm_cast_no_check (eq_refl (Returned r_log st_log)).
Defined.

(** X17. Running [writelog] again on the directory it has left writes the
    same table and leaves the directory and the whole state as they are:
    the pages that exist are not written again. *)
Theorem writelog_second_run (repo : git_repository) (lc : libc)
    (cfg : config) (fp : FILE) (o : git_oid) (st st' : state) (r : FILE * Z)
    (Hret : writelog repo lc cfg fp o st = Returned r st') :
  writelog repo lc cfg fp o st' = Returned r st'.
Proof.
  assert (H := Hret). unfold writelog, bind in H.
  fold (log_walk o) in H.
  destruct (writelog_loop repo lc cfg _ _ st) as [fp1 st1|n] eqn:Hl; [|done].
  apply writelog_loop_spec in Hl as (-> & Hs & Hn & Hpg & Hm).
  unfold modify, ret in H. injection H as <- <-.
  unfold writelog, bind. fold (log_walk o).
  destruct (writelog_loop_again repo lc cfg (git_revwalk_ids repo (log_walk o))
              (fputs log_open fp) (set_relpath [] st1) Hpg) as (rp & Hag).
  unfold log_open in Hag. rewrite Hag. unfold modify, ret. by destruct st1.
Qed.

Lemma writelog_second_run_witness :
  writelog repo0 libc0 cfg0 blank oid_head st_log = Returned r_log st_log.
Proof.
  refine (writelog_second_run repo0 libc0 cfg0 blank oid_head st_commit
            st_log r_log _).
  vm_cast_no_check (eq_refl (Returned r_log st_log)).
Defined.

(** ** writefilestree and writefiles *)

(** Induction on a tree, with the property at hand for the trees among
    its entries. *)
Lemma git_tree_data_induction (P : git_tree_data -> Prop) :
  (forall entries,
      Forall (fun e => match e with
                       | mkEntry _ _ (Some (ObjTree t)) => P t
                       | _ => True
                       end) entries ->
      P (TreeData entries)) ->
  forall t, P t.
Proof.
  intros H. fix IH 1. intros [entries]. apply H.
  induction entries as [|e rest IHrest]; constructor; [|exact IHrest].
  destruct e as [nm mode [[b|t|]|]]; try exact I. apply IH.
Qed.

Section FilesFacts.

Variable cfg : config.

Lemma writefilestree_nil fp branch path :
  writefilestree cfg fp (TreeData []) branch path = ret (fp, 0%Z).
Proof. reflexivity. Qed.

Lemma writefilestree_failed fp nm mode rest branch path :
  writefilestree cfg fp (TreeData (mkEntry nm mode None :: rest)) branch path
  = ret (fp, (-1)%Z).
Proof. reflexivity. Qed.

Lemma writefilestree_other fp nm mode rest branch path :
  writefilestree cfg fp (TreeData (mkEntry nm mode (Some ObjOther) :: rest)) branch path
  = writefilestree cfg fp (TreeData rest) branch path.
Proof. reflexivity. Qed.

Lemma writefilestree_tree fp nm mode sub rest branch path :
  writefilestree cfg fp (TreeData (mkEntry nm mode (Some (ObjTree sub)) :: rest))
    branch path
  = (do r <- writefilestree cfg fp sub branch (entrypath path nm);
     if negb (snd r =? 0)%Z then ret r
     else writefilestree cfg (fst r) (TreeData rest) branch path).
Proof. reflexivity. Qed.

Lemma writefilestree_blob fp nm mode blob rest branch path :
  writefilestree cfg fp (TreeData (mkEntry nm mode (Some (ObjBlob blob)) :: rest))
    branch path
  = (do lc <- writeblob blob (filepath path nm) nm (git_blob_rawsize blob);
     do fp <- writefilestree_row cfg fp mode path nm (git_blob_rawsize blob) lc;
     writefilestree cfg fp (TreeData rest) branch path).
Proof. reflexivity. Qed.

End FilesFacts.

Lemma filemode_c_str m : c_str (filemode m) = filemode m.
Proof. apply filemode_ten. Qed.

Lemma c_str_lit_app_no_nul a b :
  Forall (fun c => c <> NUL) a -> Forall (fun c => c <> NUL) b ->
  Forall (fun c => c <> NUL) (a ++ b).
Proof. intros. by apply Forall_app. Qed.

Lemma snprintf_no_nul n s :
  Forall (fun c => c <> NUL) s -> Forall (fun c => c <> NUL) (snprintf n s).
Proof. intros. by apply Forall_take. Qed.

Lemma path_sep_no_nul p : Forall (fun c => c <> NUL) (path_sep p).
Proof.
  destruct p as [|c p]; cbn; [constructor|].
  destruct (is_nul c); repeat constructor; done.
Qed.

Lemma entrypath_c_str path nm : c_str (entrypath path nm) = entrypath path nm.
Proof.
  apply c_str_id, snprintf_no_nul.
  repeat apply Forall_app_2; auto using c_str_no_nul, path_sep_no_nul.
Qed.

Lemma filepath_c_str path nm : c_str (filepath path nm) = filepath path nm.
Proof.
  apply c_str_id. unfold filepath.
  assert (H5 : Forall (fun c => c <> NUL) (lit "file/")) by (repeat constructor; done).
  assert (Hh : Forall (fun c => c <> NUL) (lit ".html")) by (repeat constructor; done).
  assert (Hs : Forall (fun c => c <> NUL) (lit "/")) by (repeat constructor; done).
  destruct path as [|c p]; [|destruct (is_nul c)];
    apply snprintf_no_nul; repeat apply Forall_app_2; auto using c_str_no_nul.
Qed.

Section FilesRows.

Variable cfg : config.

Lemma writefilestree_row_spec fp mode path nm filesize lc st :
  writefilestree_row cfg fp mode path nm filesize lc st
  = Returned (fprintf (files_row cfg mode (relpath st) path nm filesize lc) fp) st.
Proof.
  unfold writefilestree_row, bind, gets, ret. f_equal.
  apply FILE_eq.
  - destruct (showlinecount cfg && (0 <? lc)%Z); by autorewrite with stream.
  - unfold files_row, size_cell.
    destruct (showlinecount cfg && (0 <? lc)%Z);
      autorewrite with stream; rewrite filemode_c_str, filepath_c_str, entrypath_c_str;
      rewrite ?c_str_closed by reflexivity; unfold DQ, NL;
      rewrite <- ?app_assoc; reflexivity.
  - destruct (showlinecount cfg && (0 <? lc)%Z); by autorewrite with stream.
Qed.

End FilesRows.

Lemma same_kind_refl n : same_kind n n = true.
Proof. by destruct n. Qed.

Lemma same_kind_trans a b c :
  same_kind a b = true -> same_kind b c = true -> same_kind a c = true.
Proof. by destruct a, b, c. Qed.

Lemma kinds_kept_refl m : kinds_kept m m.
Proof. intros p n H. exists n. by rewrite same_kind_refl. Qed.

Lemma kinds_kept_trans m1 m2 m3 :
  kinds_kept m1 m2 -> kinds_kept m2 m3 -> kinds_kept m1 m3.
Proof.
  intros H12 H23 p n H. destruct (H12 p n H) as (n2 & H2 & K2).
  destruct (H23 p n2 H2) as (n3 & H3 & K3). exists n3.
  split; [done|]. by eapply same_kind_trans.
Qed.

Lemma kinds_kept_subseteq (m m' : gmap (list ascii) node) :
  m ⊆ m' -> kinds_kept m m'.
Proof.
  intros Hs p n H. exists n. rewrite same_kind_refl.
  split; [by eapply lookup_weaken|done].
Qed.

(** What [writeblob] leaves, however it ends. *)
Lemma writeblob_facts obj fpath filename filesize st :
  match writeblob obj fpath filename filesize st with
  | Returned v st' =>
      meta_of st' = meta_of st /\
      (relpath st' = [] \/ relpath st' = relpath st) /\
      kinds_kept (fs st) (fs st')
  | Exited n => n = 1%Z
  end.
Proof.
  destruct (writeblob_outcome obj fpath filename filesize st)
    as (r & st1 & Hm & Hcase).
  destruct (mkdirp_spec (xdirname fpath) st) as (r' & st1' & Hm' & _ & Hs & _ & Hg).
  rewrite Hm in Hm'. injection Hm' as <- <-.
  assert (Hmeta : meta_of st1 = meta_of st).
  { unfold globals_of in Hg. unfold meta_of. congruence. }
  assert (Hrel : relpath st1 = relpath st).
  { unfold globals_of in Hg. congruence. }
  destruct Hcase as [(Hr & ->)|[(Hr & Ho & ->)|(Hr & Ho & text & ->)]]; [|done|].
  - repeat split; eauto. by apply kinds_kept_subseteq.
  - cbn [fs relpath set_relpath set_fs]. repeat split; eauto.
    eapply kinds_kept_trans; [by apply kinds_kept_subseteq|].
    intros p n Hp. destruct (decide (fpath = p)) as [<-|Hne].
    + exists (File text). rewrite lookup_insert_eq. split; [done|].
      destruct Ho as [[fp0 st2] Ho]. unfold fopen_w in Ho.
      cbn [fs set_relpath] in Ho. rewrite Hp in Ho. by destruct n.
    + exists n. rewrite lookup_insert_ne by done. by rewrite same_kind_refl.
Qed.

(** X14. [writeblob] removes no entry of the output directory and turns
    none into another kind, and the variables of the program other than the
    cursor are as before.  When it returns it has either given up before
    opening the page (the value is -1, the cursor and every entry that was
    there are as before, and what is new is a directory), or written the
    page: then the cursor is empty again, the page is a file, and the value
    is 0 for a binary blob and the counted lines, as an int, otherwise.
    Nothing is said of the content of the other files: a page path may name,
    through [..], a file that has another spelling. *)
Theorem writeblob_keeps_entries (obj : git_blob) (fpath filename : list ascii)
    (filesize : nat) (st st' : state) (v : Z)
    (Hret : writeblob obj fpath filename filesize st = Returned v st') :
  kinds_kept (fs st) (fs st') /\
  meta_of st' = meta_of st /\
  ((v = (-1)%Z /\ relpath st' = relpath st /\
    fs st ⊆ fs st' /\ only_new_dirs (fs st) (fs st') /\
    exists r, r <> 0%Z /\ mkdirp (xdirname fpath) st = Returned r st') \/
   (relpath st' = [] /\ is_file fpath st' /\
    v = (if blob_is_binary obj then 0%Z
         else int_of_size_t (line_count (blob_rawcontent obj))) /\
    exists st1, mkdirp (xdirname fpath) st = Returned 0%Z st1 /\
                kinds_kept (fs st1) (fs st'))).
Proof.
  pose proof (writeblob_facts obj fpath filename filesize st) as Hf.
  rewrite Hret in Hf. destruct Hf as (Hmeta & _ & Hk).
  split; [exact Hk|]. split; [exact Hmeta|].
  destruct (writeblob_outcome obj fpath filename filesize st)
    as (r & st1 & Hm & Hcase).
  destruct (mkdirp_spec (xdirname fpath) st) as (r' & st1' & Hm' & _ & Hs & Hn & Hg).
  rewrite Hm in Hm'. injection Hm' as <- <-.
  destruct Hcase as [(Hr & Hw)|[(Hr & Ho & Hw)|(Hr & Ho & text & Hw)]];
    rewrite Hw in Hret; [|done|]; injection Hret as <- <-.
  - left. repeat split; eauto.
    unfold globals_of in Hg. congruence.
  - right. subst r. cbn [fs relpath set_relpath set_fs].
    split; [done|]. split.
    { exists text. cbn [fs set_relpath set_fs]. by rewrite lookup_insert_eq. }
    split; [done|]. exists st1. split; [done|].
    intros p n Hp. destruct (decide (fpath = p)) as [<-|Hne].
    + exists (File text). rewrite lookup_insert_eq. split; [done|].
      destruct Ho as [[fp0 st2] Ho]. unfold fopen_w in Ho.
      cbn [fs set_relpath] in Ho. rewrite Hp in Ho. by destruct n.
    + exists n. rewrite lookup_insert_ne by done. by rewrite same_kind_refl.
Qed.

Lemma writeblob_keeps_entries_witness :
  exists st',
    writeblob blob_bin (lit "file/a.txt.html") (lit "a.txt") 5 st0
    = Returned 0%Z st' /\
    kinds_kept (fs st0) (fs st') /\
    meta_of st' = meta_of st0.
Proof.
  eexists. split; [vm_compute; reflexivity|].
  refine ((fun H => conj (proj1 H) (proj1 (proj2 H)))
            (writeblob_keeps_entries blob_bin
               (lit "file/a.txt.html") (lit "a.txt") 5 st0 _ 0%Z _)).
  vm_compute. reflexivity.
Defined.

Section FilesInvariant.

Variable cfg : config.

Lemma writefilestree_spec : forall t fp branch path st,
  match writefilestree cfg fp t branch path st with
  | Returned r st' =>
      (snd r = 0%Z \/ snd r = (-1)%Z) /\
      (exists text, fst r = fprintf text fp) /\
      meta_of st' = meta_of st /\
      (relpath st' = [] \/ relpath st' = relpath st) /\
      kinds_kept (fs st) (fs st')
  | Exited n => n = 1%Z
  end.
Proof.
  intros t. induction t as [entries HF] using git_tree_data_induction.
  induction entries as [|e rest IH]; intros fp branch path st.
  { rewrite writefilestree_nil. unfold ret. cbn [fst snd].
    repeat split; eauto using kinds_kept_refl.
    exists []. apply FILE_eq; autorewrite with stream; by rewrite ?app_nil_r. }
  apply Forall_cons in HF as [He HF]. specialize (IH HF).
  destruct e as [nm mode [[blob|sub|]|]].
  - rewrite writefilestree_blob. unfold bind.
    pose proof (writeblob_facts blob (filepath path nm) nm
                  (git_blob_rawsize blob) st) as Hb.
    destruct (writeblob _ _ _ _ st) as [lc st1|n]; [|done].
    destruct Hb as (Hm1 & Hr1 & Hk1).
    rewrite writefilestree_row_spec.
    specialize (IH (fprintf (files_row cfg mode (relpath st1) path nm
                               (git_blob_rawsize blob) lc) fp) branch path st1).
    destruct (writefilestree _ _ _ _ _ st1) as [r st2|n]; [|done].
    destruct IH as (Hv & (text & Ht) & Hm2 & Hr2 & Hk2).
    split; [done|]. split.
    { eexists. rewrite Ht. apply FILE_eq; autorewrite with stream; try done.
      by rewrite <- app_assoc. }
    split; [congruence|]. split.
    { destruct Hr2 as [|Hr2]; [by left|]. rewrite Hr2. exact Hr1. }
    by eapply kinds_kept_trans.
  - rewrite writefilestree_tree. unfold bind.
    specialize (He fp branch (entrypath path nm) st).
    destruct (writefilestree cfg fp sub _ _ st) as [r st1|n]; [|done].
    destruct He as (Hv & (text & Ht) & Hm1 & Hr1 & Hk1).
    destruct (Z.eqb_spec (snd r) 0) as [Hz|Hnz]; cbn [negb].
    + specialize (IH (fst r) branch path st1).
      destruct (writefilestree _ _ _ _ _ st1) as [r2 st2|n]; [|done].
      destruct IH as (Hv2 & (text2 & Ht2) & Hm2 & Hr2 & Hk2).
      split; [done|]. split.
      { eexists. rewrite Ht2, Ht. apply FILE_eq; autorewrite with stream; try done.
        by rewrite <- app_assoc. }
      split; [congruence|]. split.
      { destruct Hr2 as [|Hr2]; [by left|]. rewrite Hr2. exact Hr1. }
      by eapply kinds_kept_trans.
    + unfold ret. repeat split; eauto.
  - rewrite writefilestree_other. apply IH.
  - rewrite writefilestree_failed. unfold ret. cbn [fst snd].
    repeat split; eauto using kinds_kept_refl.
    exists []. apply FILE_eq; autorewrite with stream; by rewrite ?app_nil_r.
Qed.

End FilesInvariant.

Section FilesTheorems.

Variable cfg : config.

(** The listing of the entries [es1 ++ es2] is the listing of [es1]
    followed, when that returned 0, by the listing of [es2]. *)
Lemma writefilestree_app es1 es2 branch path : forall fp st,
  writefilestree cfg fp (TreeData (es1 ++ es2)) branch path st
  = match writefilestree cfg fp (TreeData es1) branch path st with
    | Returned r st' =>
        if negb (snd r =? 0)%Z then Returned r st'
        else writefilestree cfg (fst r) (TreeData es2) branch path st'
    | Exited n => Exited n
    end.
Proof.
  induction es1 as [|e rest IH]; intros fp st; cbn [app].
  { by rewrite writefilestree_nil. }
  destruct e as [nm mode [[blob|sub|]|]].
  - rewrite !writefilestree_blob. unfold bind.
    destruct (writeblob _ _ _ _ st) as [lc st1|n]; [|done].
    rewrite writefilestree_row_spec. apply IH.
  - rewrite !writefilestree_tree. unfold bind.
    destruct (writefilestree cfg fp sub _ _ st) as [r st1|n]; [|done].
    destruct (Z.eqb_spec (snd r) 0) as [Hz|Hnz]; cbn [negb].
    + apply IH.
    + unfold ret. destruct (Z.eqb_spec (snd r) 0); [done|]. done.
  - rewrite !writefilestree_other. apply IH.
  - by rewrite !writefilestree_failed.
Qed.

End FilesTheorems.

(** X18. However [writefilestree] returns, the value is 0 or -1, the stream
    has only been appended to, the variables of the program other than the
    cursor are as before, the cursor is empty or as before, and no entry of
    the directory has been removed or has changed its kind; when the process
    ends instead, the status is 1. *)
Theorem writefilestree_keeps_directory (cfg : config) (fp : FILE)
    (tree : git_tree_data) (branch path : list ascii) (st : state) :
  match writefilestree cfg fp tree branch path st with
  | Returned r st' =>
      (snd r = 0%Z \/ snd r = (-1)%Z) /\
      (exists text, fst r = fprintf text fp) /\
      meta_of st' = meta_of st /\
      (relpath st' = [] \/ relpath st' = relpath st) /\
      kinds_kept (fs st) (fs st')
  | Exited n => n = 1%Z
  end.
Proof. apply writefilestree_spec. Qed.

(** X19. An entry whose object is neither a blob nor a tree leaves no
    trace: the listing is that of the tree without the entry. *)
Theorem writefilestree_skips_other_objects (cfg : config) (fp : FILE)
    (es1 es2 : list git_tree_entry) (nm : list ascii) (mode : Z)
    (branch path : list ascii) (st : state) :
  writefilestree cfg fp (TreeData (es1 ++ mkEntry nm mode (Some ObjOther) :: es2))
    branch path st
  = writefilestree cfg fp (TreeData (es1 ++ es2)) branch path st.
Proof.
  rewrite !writefilestree_app.
  destruct (writefilestree cfg fp (TreeData es1) branch path st) as [r st1|n];
    [|done].
  by rewrite writefilestree_other.
Qed.

Lemma entries_of_eta t : TreeData (entries_of t) = t.
Proof. by destruct t. Qed.

Lemma has_failure_nil : has_failure (TreeData []) = false.
Proof. reflexivity. Qed.

Lemma has_failure_failed nm mode rest :
  has_failure (TreeData (mkEntry nm mode None :: rest)) = true.
Proof. reflexivity. Qed.

Lemma has_failure_tree nm mode sub rest :
  has_failure (TreeData (mkEntry nm mode (Some (ObjTree sub)) :: rest))
  = has_failure sub || has_failure (TreeData rest).
Proof. reflexivity. Qed.

Lemma has_failure_blob nm mode blob rest :
  has_failure (TreeData (mkEntry nm mode (Some (ObjBlob blob)) :: rest))
  = has_failure (TreeData rest).
Proof. reflexivity. Qed.

Lemma has_failure_other nm mode rest :
  has_failure (TreeData (mkEntry nm mode (Some ObjOther) :: rest))
  = has_failure (TreeData rest).
Proof. reflexivity. Qed.

Lemma cut_nil : cut (TreeData []) = TreeData [].
Proof. reflexivity. Qed.

Lemma cut_failed nm mode rest :
  cut (TreeData (mkEntry nm mode None :: rest)) = TreeData [mkEntry nm mode None].
Proof. reflexivity. Qed.

Lemma cut_tree nm mode sub rest :
  cut (TreeData (mkEntry nm mode (Some (ObjTree sub)) :: rest))
  = TreeData (if has_failure sub
              then [mkEntry nm mode (Some (ObjTree (cut sub)))]
              else mkEntry nm mode (Some (ObjTree sub))
                   :: entries_of (cut (TreeData rest))).
Proof. reflexivity. Qed.

Lemma cut_blob nm mode blob rest :
  cut (TreeData (mkEntry nm mode (Some (ObjBlob blob)) :: rest))
  = TreeData (mkEntry nm mode (Some (ObjBlob blob))
              :: entries_of (cut (TreeData rest))).
Proof. reflexivity. Qed.

Lemma cut_other nm mode rest :
  cut (TreeData (mkEntry nm mode (Some ObjOther) :: rest))
  = TreeData (mkEntry nm mode (Some ObjOther)
              :: entries_of (cut (TreeData rest))).
Proof. reflexivity. Qed.

(** The tree cut at [src/lib/gone]: [y.c] beside it, [z.c] one directory
    up and [b.txt] at the root are left out. *)
Lemma cut_tree_broken :
  has_failure tree_broken = true /\
  cut tree_broken
  = TreeData
      [mkEntry (lit "a.txt") 33188%Z (Some (ObjBlob blob_hi_bye));
       mkEntry (lit "src") 16384%Z (Some (ObjTree (TreeData
         [mkEntry (lit "lib") 16384%Z (Some (ObjTree (TreeData
            [mkEntry (lit "x.c") 33188%Z (Some (ObjBlob blob_hi_bye));
             mkEntry (lit "gone") 33188%Z None])))])))].
Proof. split; reflexivity. Qed.

Section FilesCut.

Variable cfg : config.

(** The listing of a tree is the listing of the tree cut at its first
    failing entry, and the value tells whether there was one. *)
Lemma writefilestree_cut : forall t fp branch path st,
  writefilestree cfg fp t branch path st
  = writefilestree cfg fp (cut t) branch path st /\
  forall r st',
    writefilestree cfg fp t branch path st = Returned r st' ->
    snd r = if has_failure t then (-1)%Z else 0%Z.
Proof.
  intros t. induction t as [entries HF] using git_tree_data_induction.
  induction entries as [|e rest IH]; intros fp branch path st.
  { rewrite cut_nil, has_failure_nil, writefilestree_nil. split; [done|].
    unfold ret. by intros r st' [= <- <-]. }
  apply Forall_cons in HF as [He HF]. specialize (IH HF).
  destruct e as [nm mode [[blob|sub|]|]].
  - rewrite cut_blob, has_failure_blob, !writefilestree_blob, entries_of_eta.
    unfold bind.
    destruct (writeblob _ _ _ _ st) as [lc st1|n]; [|done].
    rewrite writefilestree_row_spec. apply IH.
  - rewrite cut_tree, has_failure_tree.
    destruct (He fp branch (entrypath path nm) st) as [Heq Hval].
    destruct (has_failure sub) eqn:Hsub; cbn [orb].
    + rewrite !writefilestree_tree. unfold bind. rewrite <- Heq.
      destruct (writefilestree cfg fp sub _ _ st) as [r st1|n]; [|done].
      rewrite (Hval r st1 eq_refl). cbn [negb Z.eqb]. unfold ret.
      split; [done|]. intros r' st' [= <- <-]. by apply (Hval r st1).
    + rewrite !writefilestree_tree, entries_of_eta. unfold bind.
      destruct (writefilestree cfg fp sub _ _ st) as [r st1|n]; [|done].
      rewrite (Hval r st1 eq_refl). cbn [negb Z.eqb]. apply IH.
  - rewrite cut_other, has_failure_other, !writefilestree_other, entries_of_eta.
    apply IH.
  - rewrite cut_failed, has_failure_failed, !writefilestree_failed.
    split; [done|]. unfold ret. by intros r st' [= <- <-].
Qed.

End FilesCut.

(** X20. The listing stops with -1 at the first entry whose object cannot
    be loaded, in the tree or in a directory at any depth below it: the
    listing of a tree is the listing of the tree cut after that entry, so
    the rows and pages of what comes before it in the walk are written and
    what comes after it, in its directory and in the directories above,
    leaves no trace; when the listing returns, the value is -1 if there is
    such an entry and 0 if there is none.  For a failing entry of the tree
    itself, the listing is that of the entries before it, with -1. *)
Theorem writefilestree_stops_at_failure (cfg : config) (fp : FILE)
    (tree : git_tree_data) (branch path : list ascii) (st : state) :
  writefilestree cfg fp tree branch path st
  = writefilestree cfg fp (cut tree) branch path st /\
  (forall r st',
      writefilestree cfg fp tree branch path st = Returned r st' ->
      snd r = if has_failure tree then (-1)%Z else 0%Z) /\
  (forall es1 es2 nm mode,
      tree = TreeData (es1 ++ mkEntry nm mode None :: es2) ->
      writefilestree cfg fp tree branch path st
      = match writefilestree cfg fp (TreeData es1) branch path st with
        | Returned r st' => Returned (fst r, (-1)%Z) st'
        | Exited n => Exited n
        end).
Proof.
  destruct (writefilestree_cut cfg tree fp branch path st) as [Hcut Hval].
  split; [exact Hcut|]. split; [exact Hval|].
  intros es1 es2 nm mode ->.
  rewrite writefilestree_app.
  pose proof (writefilestree_spec cfg (TreeData es1) fp branch path st) as H.
  destruct (writefilestree cfg fp (TreeData es1) branch path st) as [[fp1 v] st1|n];
    [|done].
  destruct H as ([Hv|Hv] & _); cbn [fst snd] in *; subst v; cbn [negb Z.eqb].
  - by rewrite writefilestree_failed.
  - done.
Qed.

(** X21. For a blob the page is written first and the row after it, with
    the cursor [writeblob] has left, and the listing goes on whatever
    [writeblob] returned; the size cell counts lines only when
    [showlinecount] is set and [writeblob] returned a positive count, and
    bytes otherwise, so also for a page that could not be made. *)
Theorem writefilestree_blob_row (cfg : config) (fp : FILE)
    (nm : list ascii) (mode : Z) (blob : git_blob)
    (rest : list git_tree_entry) (branch path : list ascii) (st : state) :
  writefilestree cfg fp (TreeData (mkEntry nm mode (Some (ObjBlob blob)) :: rest))
    branch path st
  = match writeblob blob (filepath path nm) nm (git_blob_rawsize blob) st with
    | Returned lc st' =>
        writefilestree cfg
          (fprintf (files_row cfg mode (relpath st') path nm
                      (git_blob_rawsize blob) lc) fp)
          (TreeData rest) branch path st'
    | Exited n => Exited n
    end /\
  (forall filesize lc,
      showlinecount cfg = false \/ (lc <= 0)%Z ->
      size_cell cfg filesize lc = fmt_u filesize ++ lit "B") /\
  (forall filesize lc,
      showlinecount cfg = true -> (0 < lc)%Z ->
      size_cell cfg filesize lc = fmt_d lc ++ lit "L").
Proof.
  split; [|split].
  - rewrite writefilestree_blob. unfold bind.
    destruct (writeblob _ _ _ _ st) as [lc st1|n]; [|done].
    by rewrite writefilestree_row_spec.
  - intros filesize lc H. unfold size_cell.
    destruct H as [->|H]; [done|].
    destruct (Z.ltb_spec 0 lc); [lia|]. by rewrite andb_false_r.
  - intros filesize lc Hs Hl. unfold size_cell. rewrite Hs.
    by destruct (Z.ltb_spec 0 lc); [|lia].
Qed.

Lemma snprintf_fits s : length s < PATH_MAX -> snprintf PATH_MAX s = s.
Proof. intros H. unfold snprintf. apply take_ge. lia. Qed.

Lemma slashes_app a b : slashes (a ++ b) = slashes a + slashes b.
Proof. unfold slashes. by rewrite List.filter_app, length_app. Qed.

Lemma up_dirs_length k : length (up_dirs k) = 3 * k.
Proof.
  induction k as [|k IH]; [done|]. unfold up_dirs in *. cbn [replicate concat].
  rewrite length_app, IH. cbn [length lit]. cbn. lia.
Qed.

Lemma path_sep_slash p :
  p <> [] -> Forall (fun c => c <> NUL) p -> path_sep p = lit "/".
Proof.
  intros Hne Hp. destruct p as [|c p']; [done|]. cbn [path_sep].
  apply Forall_cons in Hp as [Hc _]. destruct (is_nul c) eqn:E; [|done].
  by apply is_nul_true in E.
Qed.

Lemma entrypath_top d :
  Forall (fun c => c <> NUL) d -> length d < PATH_MAX -> entrypath [] d = d.
Proof.
  intros Hd Hlen. unfold entrypath. cbn [c_str strlen take path_sep app].
  rewrite (c_str_id d Hd). by apply snprintf_fits.
Qed.

Lemma entrypath_under p d :
  p <> [] -> Forall (fun c => c <> NUL) p -> Forall (fun c => c <> NUL) d ->
  length p + 1 + length d < PATH_MAX ->
  entrypath p d = p ++ lit "/" ++ d.
Proof.
  intros Hne Hp Hd Hlen. unfold entrypath.
  rewrite (path_sep_slash p Hne Hp), (c_str_id p Hp), (c_str_id d Hd).
  apply snprintf_fits. rewrite !length_app. cbn [length lit]. cbn. lia.
Qed.

Lemma filepath_top b :
  Forall (fun c => c <> NUL) b -> length b + 10 < PATH_MAX ->
  filepath [] b = lit "file/" ++ b ++ lit ".html".
Proof.
  intros Hb Hlen. unfold filepath. rewrite (c_str_id b Hb).
  apply snprintf_fits. rewrite !length_app. cbn [length lit]. cbn. lia.
Qed.

Lemma filepath_under p b :
  p <> [] -> Forall (fun c => c <> NUL) p -> Forall (fun c => c <> NUL) b ->
  length p + length b + 11 < PATH_MAX ->
  filepath p b = lit "file/" ++ p ++ lit "/" ++ b ++ lit ".html".
Proof.
  intros Hne Hp Hb Hlen. unfold filepath. destruct p as [|c p']; [done|].
  pose proof Hp as Hp'. apply Forall_cons in Hp' as [Hc _].
  destruct (is_nul c) eqn:E; [by apply is_nul_true in E|].
  rewrite (c_str_id (c :: p') Hp), (c_str_id b Hb). apply snprintf_fits.
  rewrite !length_app. cbn [length lit] in *. cbn in *. lia.
Qed.

Lemma files_row_listing cfg mode rp path nm filesize lc :
  files_row cfg mode rp path nm filesize lc
  = listing_row cfg mode rp (filepath path nm) (entrypath path nm) filesize lc.
Proof. reflexivity. Qed.

Lemma dir_prefix_cons d mode ds :
  dir_prefix ((d, mode) :: ds) = d ++ lit "/" ++ dir_prefix ds.
Proof. unfold dir_prefix. cbn [map concat fst]. by rewrite <- app_assoc. Qed.

Section FilesNested.

Variable cfg : config.
Variables (b : list ascii) (mode : Z) (blob : git_blob) (branch : list ascii).
Hypothesis Hb : Forall (fun c => c <> NUL) b.

(** The listing of a file below the directories [ds], from within the
    directory [p]. *)
Lemma writefilestree_nest_under : forall ds p fp st,
  p <> [] -> Forall (fun c => c <> NUL) p ->
  Forall (fun d => d.1 <> [] /\ Forall (fun c => c <> NUL) d.1) ds ->
  length p + 1 + length (dir_prefix ds) + length b + 10 < PATH_MAX ->
  writefilestree cfg fp
    (TreeData [nest ds (mkEntry b mode (Some (ObjBlob blob)))]) branch p st
  = match writeblob blob
            (lit "file/" ++ p ++ lit "/" ++ dir_prefix ds ++ b ++ lit ".html")
            b (git_blob_rawsize blob) st with
    | Returned lc st' =>
        Returned (fprintf (listing_row cfg mode (relpath st')
                             (lit "file/" ++ p ++ lit "/" ++ dir_prefix ds ++ b ++
                              lit ".html")
                             (p ++ lit "/" ++ dir_prefix ds ++ b)
                             (git_blob_rawsize blob) lc) fp, 0%Z) st'
    | Exited n => Exited n
    end.
Proof.
  induction ds as [|[d m] ds IH]; intros p fp st Hne Hp Hds Hlen.
  - cbn [nest]. change (dir_prefix []) with (@nil ascii) in *.
    cbn [app length] in *.
    rewrite writefilestree_blob. unfold bind.
    rewrite (filepath_under p b Hne Hp Hb) by lia.
    destruct (writeblob _ _ _ _ st) as [lc st1|n]; [|done].
    rewrite writefilestree_row_spec, writefilestree_nil, files_row_listing.
    rewrite (filepath_under p b Hne Hp Hb) by lia.
    rewrite (entrypath_under p b Hne Hp Hb) by lia.
    reflexivity.
  - apply Forall_cons in Hds as [[Hdne Hd] Hds]. cbn [fst] in *.
    rewrite dir_prefix_cons in *. rewrite !length_app in Hlen.
    cbn [length lit] in Hlen. cbn in Hlen.
    cbn [nest]. rewrite writefilestree_tree. unfold bind.
    rewrite (entrypath_under p d Hne Hp Hd) by lia.
    rewrite IH; [| |repeat apply Forall_app_2; auto; repeat constructor; done
                | done |rewrite !length_app; cbn [length lit]; cbn; lia].
    2: { intros H. apply app_eq_nil in H as [H _]. done. }
    rewrite <- !app_assoc. cbn [app].
    destruct (writeblob _ _ _ _ st) as [lc st1|n]; [|done].
    cbn [fst snd negb Z.eqb]. by rewrite writefilestree_nil.
Qed.

End FilesNested.

(** X22. Names nest as paths through the recursion of [writefilestree].
    For a file [b] below the directories [ds], one inside the other from the
    root of the tree, with names that have no NUL, those of the directories
    not empty, and a path that fits [PATH_MAX]: the listing writes the page
    of the file at [file/], the names of the directories each with a slash,
    [b] and [.html]; it then writes one row, which links to that page from
    the cursor [writeblob] has left and shows the names of the directories
    each with a slash and then [b]; and it returns 0.  The cursor of the
    page is one [../] for [file] and one for every slash of what is
    shown, when that fits [PATH_MAX]. *)
Theorem writefilestree_nested_paths (cfg : config) (fp : FILE)
    (ds : list (list ascii * Z)) (b : list ascii) (mode : Z) (blob : git_blob)
    (branch : list ascii) (st : state)
    (Hds : Forall (fun d => d.1 <> [] /\ Forall (fun c => c <> NUL) d.1) ds)
    (Hb : Forall (fun c => c <> NUL) b)
    (Hlen : length (dir_prefix ds) + length b + 10 < PATH_MAX) :
  let page := lit "file/" ++ dir_prefix ds ++ b ++ lit ".html" in
  let shown := dir_prefix ds ++ b in
  writefilestree cfg fp
    (TreeData [nest ds (mkEntry b mode (Some (ObjBlob blob)))]) branch [] st
  = match writeblob blob page b (git_blob_rawsize blob) st with
    | Returned lc st' =>
        Returned (fprintf (listing_row cfg mode (relpath st') page shown
                             (git_blob_rawsize blob) lc) fp, 0%Z) st'
    | Exited n => Exited n
    end /\
  (3 * (1 + slashes shown) < PATH_MAX ->
   writeblob_tmp (c_str page) [] = up_dirs (1 + slashes shown)).
Proof.
  cbv zeta. split.
  - destruct ds as [|[d m] ds].
    + cbn [nest]. change (dir_prefix []) with (@nil ascii) in *.
      cbn [app length] in *.
      rewrite writefilestree_blob. unfold bind.
      rewrite (filepath_top b Hb) by lia.
      destruct (writeblob _ _ _ _ st) as [lc st1|n]; [|done].
      rewrite writefilestree_row_spec, writefilestree_nil, files_row_listing.
      rewrite (filepath_top b Hb) by lia.
      rewrite (entrypath_top b Hb) by lia.
      reflexivity.
    + apply Forall_cons in Hds as [[Hdne Hd] Hds]. cbn [fst] in *.
      rewrite dir_prefix_cons in *. rewrite !length_app in Hlen.
      cbn [length lit] in Hlen. cbn in Hlen.
      cbn [nest]. rewrite writefilestree_tree. unfold bind.
      rewrite (entrypath_top d Hd) by lia.
      rewrite (writefilestree_nest_under cfg b mode blob branch Hb ds d fp st
                 Hdne Hd Hds) by lia.
      rewrite <- !app_assoc. cbn [app].
      destruct (writeblob _ _ _ _ st) as [lc st1|n]; [|done].
      cbn [fst snd negb Z.eqb]. by rewrite writefilestree_nil.
  - intros Hdepth.
    assert (Hp : Forall (fun c => c <> NUL) (dir_prefix ds)).
    { unfold dir_prefix. clear Hlen Hdepth.
      induction Hds as [|d ds [_ Hd] _ IH]; cbn [map concat]; [constructor|].
      repeat apply Forall_app_2; auto; repeat constructor; done. }
    assert (Hn : Forall (fun c => c <> NUL)
                   (lit "file/" ++ dir_prefix ds ++ b ++ lit ".html")).
    { repeat apply Forall_app_2; auto; repeat constructor; done. }
    rewrite (c_str_id _ Hn).
    pose proof (writeblob_tmp_spec
                  (lit "file/" ++ dir_prefix ds ++ b ++ lit ".html") []) as H0.
    rewrite take_nil in H0. rewrite H0. cbn [app].
    rewrite !slashes_app in *.
    change (slashes (lit "file/")) with 1. change (slashes (lit ".html")) with 0.
    replace (1 + (slashes (dir_prefix ds) + (slashes b + 0)))
      with (1 + (slashes (dir_prefix ds) + slashes b)) by lia.
    apply take_ge. rewrite up_dirs_length. unfold PATH_MAX in *. lia.
Qed.

Lemma writefilestree_nested_paths_witness :
  writefilestree cfg0 blank tree_nested (lit "master") [] st0
  = match writeblob blob_hi_bye (lit "file/src/lib/main.c.html") (lit "main.c")
            (git_blob_rawsize blob_hi_bye) st0 with
    | Returned lc st' =>
        Returned (fprintf (listing_row cfg0 33188%Z (relpath st')
                             (lit "file/src/lib/main.c.html") (lit "src/lib/main.c")
                             (git_blob_rawsize blob_hi_bye) lc) blank, 0%Z) st'
    | Exited n => Exited n
    end /\
  writeblob_tmp (c_str (lit "file/src/lib/main.c.html")) [] = lit "../../../".
Proof.
  assert (Hds : Forall (fun d : list ascii * Z =>
                          d.1 <> [] /\ Forall (fun c => c <> NUL) d.1)
                  [(lit "src", 16384%Z); (lit "lib", 16384%Z)]).
  { repeat constructor; done. }
  assert (Hb : Forall (fun c => c <> NUL) (lit "main.c")) by (repeat constructor; done).
  assert (Hlen : length (dir_prefix [(lit "src", 16384%Z); (lit "lib", 16384%Z)]) +
                 length (lit "main.c") + 10 < PATH_MAX)
    by (unfold PATH_MAX; cbn; lia).
  pose proof (writefilestree_nested_paths cfg0 blank
                [(lit "src", 16384%Z); (lit "lib", 16384%Z)] (lit "main.c") 33188%Z
                blob_hi_bye (lit "master") st0 Hds Hb Hlen) as [H1 H2].
  split; [exact H1|]. apply H2. unfold PATH_MAX. cbn. lia.
Defined.

Lemma writefiles_spec (repo : git_repository) (cfg : config)
    (git_tree_entries : git_tree -> git_tree_data)
    (fp : FILE) (id : git_oid) (branch : list ascii) (st : state) :
  match writefiles repo cfg git_tree_entries fp id branch st with
  | Returned r st' =>
      (snd r = 0%Z \/ snd r = (-1)%Z) /\
      (exists rows, fst r = fprintf (files_open ++ rows ++ files_close) fp) /\
      meta_of st' = meta_of st /\
      kinds_kept (fs st) (fs st') /\
      (match git_commit_lookup repo id with
       | Some commit => git_commit_tree repo commit = None
       | None => True
       end ->
       r = (fprintf (files_open ++ files_close) fp, (-1)%Z) /\ st' = st)
  | Exited n => n = 1%Z
  end.
Proof.
  unfold writefiles, bind.
  assert (Hfail : forall fp0,
    fputs (lit "</tbody></table>") (fputs files_open fp0)
    = fprintf (files_open ++ files_close) fp0).
  { intros fp0. apply FILE_eq; autorewrite with stream; try done;
      by rewrite <- ?app_assoc. }
  fold files_open.
  destruct (git_commit_lookup repo id) as [commit|].
  2: { unfold ret. cbn [fst snd]. rewrite Hfail.
       repeat split; eauto using kinds_kept_refl. }
  destruct (git_commit_tree repo commit) as [tree|].
  2: { unfold ret. cbn [fst snd]. rewrite Hfail.
       repeat split; eauto using kinds_kept_refl. }
  pose proof (writefilestree_spec cfg (git_tree_entries tree) (fputs files_open fp)
                branch [] st) as H.
  destruct (writefilestree cfg _ _ _ _ st) as [r st1|n]; [|done].
  destruct H as (Hv & (text & Ht) & Hm & _ & Hk).
  unfold ret. cbn [fst snd].
  split; [done|]. split; [|split; [done|]; split; [done|]; intros [=]].
  exists text. rewrite Ht. apply FILE_eq; autorewrite with stream; try done;
    by rewrite <- ?app_assoc.
Qed.

(** X23. [writefiles] closes the table whatever happens: when it returns,
    the stream has received the head of the table, the rows and the end of
    the table, and the value is 0 or -1; when the commit or its tree cannot
    be found there is no row, the value is -1 and the state is as before. *)
Theorem writefiles_closes_table (repo : git_repository) (cfg : config)
    (git_tree_entries : git_tree -> git_tree_data)
    (fp : FILE) (id : git_oid) (branch : list ascii) (st : state) :
  match writefiles repo cfg git_tree_entries fp id branch st with
  | Returned r st' =>
      (snd r = 0%Z \/ snd r = (-1)%Z) /\
      (exists rows, fst r = fprintf (files_open ++ rows ++ files_close) fp) /\
      meta_of st' = meta_of st /\
      kinds_kept (fs st) (fs st') /\
      (match git_commit_lookup repo id with
       | Some commit => git_commit_tree repo commit = None
       | None => True
       end ->
       r = (fprintf (files_open ++ files_close) fp, (-1)%Z) /\ st' = st)
  | Exited n => n = 1%Z
  end.
Proof. apply writefiles_spec. Qed.

(** ** writerefs *)

Section RefsFacts.

Variable repo : git_repository.
Variable lc : libc.

Lemma fprintf_fprintf a b fp : fprintf b (fprintf a fp) = fprintf (a ++ b) fp.
Proof. apply FILE_eq; autorewrite with stream; try done. by rewrite app_assoc. Qed.

Lemma fprintf_nil fp : fprintf [] fp = fp.
Proof. apply FILE_eq; autorewrite with stream; try done. by rewrite app_nil_r. Qed.

Lemma writerefs_loop_appends j refs : forall count fp st,
  exists how c text st',
    writerefs_loop repo lc j refs count fp st
    = Returned (how, c, fprintf text fp) st' /\ fs st' = fs st.
Proof.
  induction refs as [|ref rest IH]; intros count fp st.
  - exists LoopEnd, count, [], st. cbn. unfold ret. by rewrite fprintf_nil.
  - rewrite writerefs_loop_cons.
    destruct (negb (in_class j ref)); [apply IH|].
    destruct (resolve_ref repo ref) as [| | | | |r ci]; try apply IH;
      try (eexists _, count, [], st; by rewrite fprintf_nil).
    match goal with
    | |- context [writerefs_loop _ _ _ _ ?c ?f ?s] =>
        destruct (IH c f s) as (how & c' & text & st' & -> & Hfs)
    end.
    rewrite (writerefs_row_appends lc r ci).
    destruct (Nat.eqb (S count) 1);
      [exists how, c', (table_open j ++ f_buf (writerefs_row lc blank r ci) ++ text), st'
      |exists how, c', (f_buf (writerefs_row lc blank r ci) ++ text), st'];
      (split; [|exact Hfs]); f_equal; f_equal;
      apply FILE_eq; autorewrite with stream; cbn [f_path f_buf f_err];
      autorewrite with stream; try done; by rewrite <- ?app_assoc.
Qed.

Lemma writerefs_classes_appends n : forall j refs fp st,
  exists text st',
    writerefs_classes repo lc n j refs fp st = Returned (fprintf text fp) st' /\
    fs st' = fs st.
Proof.
  induction n as [|n IH]; intros j refs fp st.
  - exists [], st. cbn. unfold ret. by rewrite fprintf_nil.
  - cbn [writerefs_classes]. unfold bind.
    destruct (writerefs_loop_appends j refs 0 fp st)
      as (how & c & text & st1 & -> & Hfs).
    destruct how.
    + destruct c as [|c].
      * destruct (IH (S j) refs (fprintf text fp) st1) as (t2 & st2 & -> & Hfs2).
        exists (text ++ t2), st2. rewrite fprintf_fprintf. split; [done|congruence].
      * destruct (IH (S j) refs (fputs (lit "</tbody></table><br/>") (fprintf text fp))
                     st1) as (t2 & st2 & -> & Hfs2).
        eexists _, st2. split; [|congruence]. f_equal.
        apply FILE_eq; autorewrite with stream; try done.
        by rewrite <- !app_assoc.
    + destruct c as [|c].
      * destruct (IH (S j) refs (fprintf text fp) st1) as (t2 & st2 & -> & Hfs2).
        exists (text ++ t2), st2. rewrite fprintf_fprintf. split; [done|congruence].
      * destruct (IH (S j) refs (fputs (lit "</tbody></table><br/>") (fprintf text fp))
                     st1) as (t2 & st2 & -> & Hfs2).
        eexists _, st2. split; [|congruence]. f_equal.
        apply FILE_eq; autorewrite with stream; try done.
        by rewrite <- !app_assoc.
    + exists text, st1. by unfold ret.
Qed.

(** A reference that is passed over in the class [j] leaves no trace in
    the loop of that class. *)
Lemma writerefs_loop_skip j pre ref post :
  in_class j ref = false \/ resolve_ref repo ref = Skipped ->
  forall count fp st,
    writerefs_loop repo lc j (pre ++ ref :: post) count fp st
    = writerefs_loop repo lc j (pre ++ post) count fp st.
Proof.
  intros Hskip. induction pre as [|r0 pre IH]; intros count fp st; cbn [app].
  - rewrite writerefs_loop_cons. destruct Hskip as [-> | ->]; [done|].
    by destruct (negb (in_class j ref)).
  - rewrite !(writerefs_loop_cons _ _ _ r0).
    destruct (negb (in_class j r0)); [apply IH|].
    destruct (resolve_ref repo r0); try done; apply IH.
Qed.

Lemma writerefs_classes_skip n pre ref post :
  (forall j, in_class j ref = false \/ resolve_ref repo ref = Skipped) ->
  forall j fp st,
    writerefs_classes repo lc n j (pre ++ ref :: post) fp st
    = writerefs_classes repo lc n j (pre ++ post) fp st.
Proof.
  intros Hskip. induction n as [|n IH]; intros j fp st; [done|].
  cbn [writerefs_classes]. unfold bind.
  rewrite (writerefs_loop_skip j pre ref post (Hskip j)).
  destruct (writerefs_loop repo lc j (pre ++ post) 0 fp st) as [[[how c] fp1] st1|k];
    [|done].
  destruct how; try done; apply IH.
Qed.

End RefsFacts.

(** X24. A reference that is neither a branch nor a tag, or whose type is
    neither direct nor symbolic, leaves no trace in the tables: the two
    passes write what they write for the array without it. *)
Theorem writerefs_passes_over (repo : git_repository) (lc : libc)
    (pre post : list git_reference) (ref : git_reference)
    (fp : FILE) (st : state)
    (Hother : (reference_is_branch ref = false /\ reference_is_tag ref = false) \/
              reference_type ref = GIT_REF_INVALID) :
  writerefs_classes repo lc 2 0 (pre ++ ref :: post) fp st
  = writerefs_classes repo lc 2 0 (pre ++ post) fp st.
Proof.
  apply writerefs_classes_skip. intros j.
  destruct Hother as [[Hb Ht]|Hty].
  - left. unfold in_class. by rewrite Hb, Ht.
  - right. unfold resolve_ref. by rewrite Hty.
Qed.

Lemma writerefs_passes_over_witness :
  writerefs_classes repo0 libc0 2 0 [ref_v1; ref_remote; ref_master] blank st0
  = writerefs_classes repo0 libc0 2 0 [ref_v1; ref_master] blank st0.
Proof.
  refine (writerefs_passes_over repo0 libc0 [ref_v1] [ref_master] ref_remote
            blank st0 _).
  left. split; reflexivity.
Defined.

(** What [writerefs] returns and leaves. *)
Lemma writerefs_spec (repo : git_repository) (lc : libc)
    (fp : FILE) (st : state) :
  exists fp' v st',
    writerefs repo lc fp st = Returned (fp', v) st' /\
    fs st' = fs st /\
    (exists text, fp' = fprintf text fp) /\
    match git_reference_list repo with
    | None => v = (-1)%Z /\ fp' = fp /\ st' = st
    | Some _ => v = 0%Z
    end.
Proof.
  rewrite writerefs_unfold.
  destruct (git_reference_list repo) as [collected|].
  - destruct (writerefs_classes_appends repo lc 2 0
                (qsort lc git_reference refs_cmp collected) fp st)
      as (text & st' & -> & Hfs).
    exists (fprintf text fp), 0%Z, st'. eauto.
  - exists fp, (-1)%Z, st. repeat split; eauto.
    exists []. by rewrite fprintf_nil.
Qed.


(** ** main *)

Lemma repodir_sep_always repodir : repodir_sep repodir = lit "/".
Proof.
  unfold repodir_sep.
  assert (H : nth (strlen repodir) repodir NUL = NUL).
  { induction repodir as [|c s IH]; [done|]. cbn [strlen].
    destruct (is_nul c) eqn:E; [by apply is_nul_true in E|exact IH]. }
  by rewrite H.
Qed.

Lemma kept_refl st : kept st st.
Proof. split; [apply kinds_kept_refl|done]. Qed.

Lemma kept_trans a b c : kept a b -> kept b c -> kept a c.
Proof.
  intros [K1 M1] [K2 M2]. split; [by eapply kinds_kept_trans|congruence].
Qed.

Lemma is_file_kept path st st' : kept st st' -> is_file path st -> is_file path st'.
Proof.
  intros [K _] [text H]. destruct (K _ _ H) as (n' & Hn & Hk).
  destruct n' as [t'|]; [by exists t'|done].
Qed.

Lemma fopen_w_state path st fp st' :
  fopen_w path st = Some (fp, st') ->
  fp = mkFILE path [] false /\
  st' = set_fs (<[path := File []]> (fs st)) st /\
  kept st st' /\ is_file path st'.
Proof.
  unfold fopen_w. intros H.
  assert (Hk : fs st !! path <> Some Dir ->
               kept st (set_fs (<[path := File []]> (fs st)) st)).
  { intros Hnd. split; [|done]. cbn [fs set_fs]. intros p n Hp.
    destruct (decide (path = p)) as [<-|Hne].
    - exists (File []). rewrite lookup_insert_eq. split; [done|].
      destruct n; [done|congruence].
    - exists n. rewrite lookup_insert_ne by done. by rewrite same_kind_refl. }
  assert (Hf : is_file path (set_fs (<[path := File []]> (fs st)) st)).
  { exists []. cbn [fs set_fs]. apply lookup_insert_eq. }
  destruct (fs st !! path) as [[c|]|] eqn:E; [| done |];
    destruct (parent_exists path (fs st)); try done;
    injection H as <- <-; repeat split; try done; apply Hk; congruence.
Qed.

Lemma fclose_state fp st :
  is_file (f_path fp) st ->
  exists st', fclose fp st = Returned tt st' /\ kept st st' /\ is_file (f_path fp) st'
              /\ relpath st' = relpath st.
Proof.
  intros [text H]. unfold fclose, modify. eexists. split; [reflexivity|].
  unfold kept, is_file. cbn [fs set_fs]. split; [split; [|done]|split; [|done]].
  - intros p n Hp. destruct (decide (f_path fp = p)) as [<-|Hne].
    + exists (File (f_buf fp)). rewrite lookup_insert_eq. split; [done|].
      rewrite H in Hp. by injection Hp as <-.
    + exists n. rewrite lookup_insert_ne by done. by rewrite same_kind_refl.
  - exists (f_buf fp). apply lookup_insert_eq.
Qed.

Lemma mkdir_kept path st : kept st (mkdir_fails path st).2.
Proof.
  destruct (mkdir_fails_spec path st) as (Hs & _ & Hg & _).
  split; [by apply kinds_kept_subseteq|].
  unfold globals_of in Hg. unfold meta_of. congruence.
Qed.

Lemma set_relpath_kept rp st : kept st (set_relpath rp st).
Proof. split; [apply kinds_kept_refl|done]. Qed.

Section Pages.

Variable lc : libc.
Variable cfg : config.
Variable git_tree_entries : git_tree -> git_tree_data.
Variable repo : git_repository.

Lemma writelog_loop_exit ids : forall fp st n,
  writelog_loop repo lc cfg ids fp st = Exited n -> n = 1%Z.
Proof.
  induction ids as [|i rest IH]; intros fp st n H; [done|].
  destruct (commitinfo_getbyoid repo i) as [ci|] eqn:Hci.
  2: { by rewrite writelog_loop_stop in H. }
  rewrite (writelog_loop_step _ _ _ _ _ _ _ _ Hci) in H.
  destruct (printshowfile_cases lc ci (set_relpath (lit "../") st))
    as [(_ & Hp)|[(_ & _ & Hp)|(_ & text & Hp)]]; rewrite Hp in H.
  - by eapply IH.
  - by injection H as <-.
  - by eapply IH.
Qed.

Lemma writelog_kept fp o st :
  match writelog repo lc cfg fp o st with
  | Returned r st' => kept st st' /\ f_path (fst r) = f_path fp
  | Exited n => n = 1%Z
  end.
Proof.
  unfold writelog, bind.
  destruct (writelog_loop repo lc cfg _ _ st) as [fp1 st1|n] eqn:Hl.
  - apply writelog_loop_spec in Hl as (-> & Hs & _ & _ & Hm).
    unfold modify, ret. cbn [fst]. split; [|by autorewrite with stream].
    split; [by apply kinds_kept_subseteq|exact Hm].
  - by eapply writelog_loop_exit.
Qed.

Lemma log_page_writes head :
  writes_page (lit "log.html") (log_page lc cfg repo head).
Proof.
  intros st. unfold log_page, bind, efopen.
  destruct (fopen_w (lit "log.html") st) as [[fp st1]|] eqn:Ho; [|done].
  apply fopen_w_state in Ho as (-> & _ & K1 & F1).
  unfold modify at 1.
  destruct (writeheader_returns (mkFILE (lit "log.html") [] false)
              (set_relpath [] st1)) as (fp1 & -> & Hp & _).
  unfold modify at 1. cbn [fst].
  pose proof (writelog_kept fp1 head (mkdir_fails (lit "commit") (set_relpath [] st1)).2)
    as Hw.
  destruct (writelog repo lc cfg fp1 head _) as [r st2|n]; [|done].
  destruct Hw as [K2 Hp2].
  assert (K : kept st st2).
  { eapply kept_trans; [exact K1|]. eapply kept_trans; [apply (set_relpath_kept [])|].
    eapply kept_trans; [apply mkdir_kept|exact K2]. }
  assert (Hpath : f_path (writefooter (fst r)) = lit "log.html").
  { unfold writefooter. autorewrite with stream. by rewrite Hp2, Hp. }
  assert (Hfile : is_file (f_path (writefooter (fst r))) st2).
  { rewrite Hpath. eapply is_file_kept; [|exact F1].
    eapply kept_trans; [apply (set_relpath_kept [])|].
    eapply kept_trans; [apply mkdir_kept|exact K2]. }
  destruct (fclose_state _ _ Hfile) as (st3 & -> & K3 & F3 & _).
  rewrite Hpath in F3. split; [by eapply kept_trans|done].
Qed.

Lemma files_page_writes head :
  writes_page (lit "files.html") (files_page cfg git_tree_entries repo head).
Proof.
  intros st. unfold files_page, bind, efopen.
  destruct (fopen_w (lit "files.html") st) as [[fp st1]|] eqn:Ho; [|done].
  apply fopen_w_state in Ho as (-> & _ & K1 & F1).
  destruct (writeheader_returns (mkFILE (lit "files.html") [] false) st1)
    as (fp1 & -> & Hp & _).
  cbn [fst].
  pose proof (writefiles_spec repo cfg git_tree_entries fp1 head (lit "HEAD") st1) as Hw.
  destruct (writefiles repo cfg git_tree_entries fp1 head _ st1) as [r st2|n]; [|done].
  destruct Hw as (_ & (rows & Hr) & Hm & Hk & _).
  assert (K2 : kept st1 st2) by done.
  assert (Hpath : f_path (writefooter (fst r)) = lit "files.html").
  { unfold writefooter. rewrite Hr. autorewrite with stream. done. }
  assert (Hfile : is_file (f_path (writefooter (fst r))) st2).
  { rewrite Hpath. by eapply is_file_kept. }
  destruct (fclose_state _ _ Hfile) as (st3 & -> & K3 & F3 & _).
  rewrite Hpath in F3. split; [|done].
  eapply kept_trans; [exact K1|]. by eapply kept_trans.
Qed.

Lemma refs_page_writes :
  writes_page (lit "refs.html") (refs_page lc repo).
Proof.
  intros st. unfold refs_page, bind, efopen.
  destruct (fopen_w (lit "refs.html") st) as [[fp st1]|] eqn:Ho; [|done].
  apply fopen_w_state in Ho as (-> & _ & K1 & F1).
  destruct (writeheader_returns (mkFILE (lit "refs.html") [] false) st1)
    as (fp1 & -> & Hp & _).
  cbn [fst].
  destruct (writerefs_state repo lc fp1 st1) as (r & st2 & Hw & Hst).
  destruct (writerefs_spec repo lc fp1 st1)
    as (fp2 & v & st2' & Hw' & _ & (text & Ht) & _).
  rewrite Hw in Hw'. injection Hw' as -> <-. rewrite Hw. cbn [fst].
  assert (K2 : kept st1 st2).
  { destruct Hst as [->| ->]; [apply kept_refl|apply set_relpath_kept]. }
  assert (Hpath : f_path (writefooter fp2) = lit "refs.html").
  { unfold writefooter. rewrite Ht. autorewrite with stream. done. }
  assert (Hfile : is_file (f_path (writefooter fp2)) st2).
  { rewrite Hpath. by eapply is_file_kept. }
  destruct (fclose_state _ _ Hfile) as (st3 & -> & K3 & F3 & _).
  rewrite Hpath in F3. split; [|done].
  eapply kept_trans; [exact K1|]. by eapply kept_trans.
Qed.

Lemma writeatom_loop_path l : forall k fp,
  f_path (writeatom_loop repo lc k l fp) = f_path fp.
Proof.
  induction l as [|i l IH]; intros k fp.
  - by destruct k.
  - destruct k as [|k]; [done|]. cbn [writeatom_loop].
    destruct (commitinfo_getbyoid repo i) as [ci|]; [|done].
    rewrite IH. apply (appends_path _ fp (printcommitatom_appends lc ci)).
Qed.

Lemma atom_page_writes :
  writes_page (lit "atom.xml") (atom_page lc repo).
Proof.
  intros st. unfold atom_page, bind, efopen.
  destruct (fopen_w (lit "atom.xml") st) as [[fp st1]|] eqn:Ho; [|done].
  apply fopen_w_state in Ho as (-> & _ & K1 & F1).
  assert (Hw : exists fp',
    writeatom repo lc (mkFILE (lit "atom.xml") [] false) st1 = Returned (fp', 0%Z) st1
    /\ f_path fp' = lit "atom.xml").
  { unfold writeatom, bind, gets, ret. eexists. split; [reflexivity|].
    cbv zeta. autorewrite with stream. rewrite writeatom_loop_path.
    by autorewrite with stream. }
  destruct Hw as (fp' & -> & Hpath). cbn [fst].
  assert (Hfile : is_file (f_path fp') st1) by by rewrite Hpath.
  destruct (fclose_state _ _ Hfile) as (st3 & -> & K3 & F3 & _).
  rewrite Hpath in F3. split; [by eapply kept_trans|done].
Qed.

End Pages.

Lemma open_either_spec repodir first second st :
  open_either repodir first second st
  = Returned (read_either repodir first second st) st.
Proof.
  unfold open_either, read_either, variable_file, bind, gets, ret.
  rewrite repodir_sep_always. change (c_str (lit "/")) with (lit "/").
  destruct (fopen_r (snprintf PATH_MAX (c_str repodir ++ lit "/" ++ first)) st);
    reflexivity.
Qed.

Lemma read_description_spec repodir st :
  read_description repodir st
  = Returned tt (set_description (description_read repodir st) st).
Proof.
  unfold read_description, description_read, first_line, bind.
  rewrite open_either_spec.
  destruct (read_either repodir _ _ st) as [content|].
  - by destruct (fgets 255 content).
  - unfold ret. by destruct st.
Qed.

Lemma read_url_spec repodir st :
  read_url repodir st
  = Returned tt (set_cloneurl (cloneurl_read repodir st) st).
Proof.
  unfold read_url, cloneurl_read, first_line, bind.
  rewrite open_either_spec.
  destruct (read_either repodir _ _ st) as [content|].
  - by destruct (fgets 1024 content).
  - unfold ret. by destruct st.
Qed.

Section MainFacts.

Variable lc : libc.
Variable cfg : config.
Variable git_tree_entries : git_tree -> git_tree_data.
Variable git_repository_open_ext : list ascii -> Z -> Z * git_repository.
Variable giterr_last : git_error.
Variable git_revparse_single : git_repository -> list ascii -> option git_oid.

(** The pages part of [main]. *)
Lemma main_pages_part (repo : git_repository) (head : git_oid) (stderr : FILE)
    (st : state) :
  match (do _ <- log_page lc cfg repo head;
         do _ <- files_page cfg git_tree_entries repo head;
         do _ <- refs_page lc repo;
         do _ <- atom_page lc repo;
         ret (stderr, 0%Z)) st with
  | Returned r st' =>
      r = (stderr, 0%Z) /\ kept st st' /\ Forall (fun p => is_file p st') main_pages
  | Exited n => n = 1%Z
  end.
Proof.
  unfold bind.
  pose proof (log_page_writes lc cfg repo head st) as H1.
  destruct (log_page lc cfg repo head st) as [[] st1|n]; [|done].
  destruct H1 as [K1 F1].
  pose proof (files_page_writes cfg git_tree_entries repo head st1) as H2.
  destruct (files_page cfg git_tree_entries repo head st1) as [[] st2|n]; [|done].
  destruct H2 as [K2 F2].
  pose proof (refs_page_writes lc repo st2) as H3.
  destruct (refs_page lc repo st2) as [[] st3|n]; [|done].
  destruct H3 as [K3 F3].
  pose proof (atom_page_writes lc repo st3) as H4.
  destruct (atom_page lc repo st3) as [[] st4|n]; [|done].
  destruct H4 as [K4 F4].
  unfold ret. split; [done|]. split.
  - eapply kept_trans; [exact K1|]. eapply kept_trans; [exact K2|].
    by eapply kept_trans.
  - unfold main_pages. repeat constructor; [| |by eapply is_file_kept|done].
    + eapply is_file_kept; [|exact F1]. eapply kept_trans; [exact K2|].
      by eapply kept_trans.
    + eapply is_file_kept; [|exact F2]. by eapply kept_trans.
Qed.

(** The four ways through [main]. *)
Lemma main_cases (argv : list (list ascii)) (stderr : FILE) (st : state) :
  let repodir := nth 1 argv [] in
  let status := (git_repository_open_ext repodir GIT_REPOSITORY_OPEN_NO_SEARCH).1 in
  let repo := (git_repository_open_ext repodir GIT_REPOSITORY_OPEN_NO_SEARCH).2 in
  (length argv <> 2 /\
   main lc cfg git_tree_entries git_repository_open_ext giterr_last
     git_revparse_single argv stderr st = Returned (fprintf (usage argv) stderr, 1%Z) st) \/
  (length argv = 2 /\ (status < 0)%Z /\
   main lc cfg git_tree_entries git_repository_open_ext giterr_last
     git_revparse_single argv stderr st
   = Returned (fprintf (open_error status giterr_last) stderr, status) st) \/
  (length argv = 2 /\ (0 <= status)%Z /\
   git_revparse_single repo (lit "HEAD") = None /\
   main lc cfg git_tree_entries git_repository_open_ext giterr_last
     git_revparse_single argv stderr st = Returned (stderr, 1%Z) st) \/
  (length argv = 2 /\ (0 <= status)%Z /\
   exists head,
     git_revparse_single repo (lit "HEAD") = Some head /\
     main lc cfg git_tree_entries git_repository_open_ext giterr_last
     git_revparse_single argv stderr st
     = (do _ <- log_page lc cfg repo head;
        do _ <- files_page cfg git_tree_entries repo head;
        do _ <- refs_page lc repo;
        do _ <- atom_page lc repo;
        ret (stderr, 0%Z)) (main_setup git_revparse_single repo repodir st)).
Proof.
  intros repodir status repo. unfold main.
  destruct (Nat.eqb_spec (length argv) 2) as [Hlen|Hlen]; cbn [negb]; [|by left].
  right. fold repodir. subst status repo.
  destruct (git_repository_open_ext repodir GIT_REPOSITORY_OPEN_NO_SEARCH)
    as [status repo]. cbn [fst snd].
  destruct (Z.ltb_spec status 0) as [Hneg|Hpos]; [by left|].
  right. destruct (git_revparse_single repo (lit "HEAD")) as [head|] eqn:Hhead;
    [right|by left].
  split; [done|]. split; [done|]. exists head. split; [done|].
  unfold bind at 1. unfold modify at 1.
  unfold bind at 1. unfold modify at 1.
  unfold bind at 1. rewrite read_description_spec.
  unfold bind at 1. rewrite read_url_spec.
  unfold bind at 1. unfold modify at 1.
  unfold bind at 1. unfold modify at 1.
  reflexivity.
Qed.

End MainFacts.

(** X26. [main] refuses to start in three cases, each time with the state
    and the directory untouched: with a number of arguments other than one
    it writes the usage line to the standard error stream and returns 1; when
    the repository cannot be opened it writes the status, the class and the
    message of the error and returns the status; when HEAD cannot be found it
    returns 1 and writes nothing at all. *)
Theorem main_refuses (lc : libc) (cfg : config)
    (git_tree_entries : git_tree -> git_tree_data)
    (git_repository_open_ext : list ascii -> Z -> Z * git_repository)
    (giterr_last : git_error)
    (git_revparse_single : git_repository -> list ascii -> option git_oid)
    (argv : list (list ascii)) (stderr : FILE) (st : state) :
  let repodir := nth 1 argv [] in
  let status := (git_repository_open_ext repodir GIT_REPOSITORY_OPEN_NO_SEARCH).1 in
  let repo := (git_repository_open_ext repodir GIT_REPOSITORY_OPEN_NO_SEARCH).2 in
  (length argv <> 2 ->
   main lc cfg git_tree_entries git_repository_open_ext giterr_last
     git_revparse_single argv stderr st
   = Returned (fprintf (usage argv) stderr, 1%Z) st) /\
  (length argv = 2 -> (status < 0)%Z ->
   main lc cfg git_tree_entries git_repository_open_ext giterr_last
     git_revparse_single argv stderr st
   = Returned (fprintf (open_error status giterr_last) stderr, status) st) /\
  (length argv = 2 -> (0 <= status)%Z ->
   git_revparse_single repo (lit "HEAD") = None ->
   main lc cfg git_tree_entries git_repository_open_ext giterr_last
     git_revparse_single argv stderr st
   = Returned (stderr, 1%Z) st).
Proof.
  cbv zeta.
  pose proof (main_cases lc cfg git_tree_entries git_repository_open_ext giterr_last
                git_revparse_single argv stderr st) as H. cbv zeta in H.
  destruct H
    as [(Hl & H)|[(Hl & Hs & H)|[(Hl & Hs & Hh & H)|(Hl & Hs & head & Hh & H)]]];
    repeat split; intros; try done; try lia; congruence.
Qed.

(** X27. When [main] returns a value other than 0 the state and the
    directory are untouched.  When it returns 0 the standard error stream is
    untouched and [log.html], [files.html], [refs.html] and [atom.xml] are
    files of the directory.  In both cases every entry that was in the
    directory is still there with its kind, and when the process ends
    instead the status is 1. *)
Theorem main_writes_pages (lc : libc) (cfg : config)
    (git_tree_entries : git_tree -> git_tree_data)
    (git_repository_open_ext : list ascii -> Z -> Z * git_repository)
    (giterr_last : git_error)
    (git_revparse_single : git_repository -> list ascii -> option git_oid)
    (argv : list (list ascii)) (stderr : FILE) (st : state) :
  match main lc cfg git_tree_entries git_repository_open_ext giterr_last
          git_revparse_single argv stderr st with
  | Returned r st' =>
      kinds_kept (fs st) (fs st') /\
      (snd r <> 0%Z -> st' = st) /\
      (snd r = 0%Z ->
       fst r = stderr /\ Forall (fun p => is_file p st') main_pages)
  | Exited n => n = 1%Z
  end.
Proof.
  pose proof (main_cases lc cfg git_tree_entries git_repository_open_ext giterr_last
                git_revparse_single argv stderr st) as H. cbv zeta in H.
  destruct H
    as [(Hl & ->)|[(Hl & Hs & ->)|[(Hl & Hs & Hh & ->)|(Hl & Hs & head & Hh & ->)]]].
  - split; [apply kinds_kept_refl|]. by split.
  - split; [apply kinds_kept_refl|]. split; [done|]. cbn [snd]. lia.
  - split; [apply kinds_kept_refl|]. by split.
  - match goal with
    | |- context [main_setup ?a ?b ?c ?d] =>
        pose proof (main_pages_part lc cfg git_tree_entries b head stderr
                      (main_setup a b c d)) as H
    end.
    match goal with
    | |- match ?x with _ => _ end => destruct x as [r st'|n]; [|done]
    end.
    destruct H as (-> & [K _] & F). cbn [fst snd]. split; [exact K|].
    split; [done|]. by split.
Qed.

Lemma strcmp_zero a : forall b, strcmp a b = 0%Z -> c_str a = c_str b.
Proof.
  induction a as [|x a IH]; intros [|y b] H; cbn [strcmp] in H; [done| | |].
  - assert (y = NUL) as -> by (apply uchar_inj; lia). done.
  - assert (x = NUL) as -> by (apply uchar_inj; lia). done.
  - destruct (Ascii.eqb_spec x y) as [->|Hxy].
    + unfold c_str. cbn [strlen]. destruct (is_nul y); [done|].
      cbn [take]. f_equal. by apply IH.
    + assert (x = y) by (apply uchar_inj; lia). done.
Qed.

Lemma strrchr_from_app s t c : forall i last,
  Forall (fun x => x <> NUL) s ->
  strrchr_from (s ++ t) c i last
  = strrchr_from t c (i + length s) (strrchr_from s c i last).
Proof.
  induction s as [|x s IH]; intros i last Hs; cbn [app strrchr_from length].
  - by rewrite Nat.add_0_r.
  - apply Forall_cons in Hs as [Hx Hs].
    destruct (is_nul x) eqn:E; [by apply is_nul_true in E|].
    rewrite IH by done. f_equal. lia.
Qed.

(** The index [strrchr] gives is inside the string. *)
Lemma strrchr_from_bound s c : forall i last p,
  strrchr_from s c i last = Some p ->
  last = Some p \/ (i <= p < i + strlen s).
Proof.
  induction s as [|x s IH]; intros i last p H; cbn [strrchr_from strlen] in *.
  - by left.
  - destruct (is_nul x); [by left|].
    apply IH in H as [H|H]; [|right; lia].
    destruct (Ascii.eqb x c); [|by left].
    injection H as <-. right. lia.
Qed.

Lemma c_str_insert_nul s p :
  p < strlen s -> c_str (<[p := NUL]> s) = take p s.
Proof.
  revert p. induction s as [|x s IH]; intros p Hp; cbn [strlen] in Hp; [lia|].
  destruct (is_nul x) eqn:E; [lia|].
  destruct p as [|p]; [done|].
  change (<[S p:=NUL]> (x :: s)) with (x :: <[p:=NUL]> s).
  unfold c_str. cbn [strlen take]. rewrite E. cbn [take]. f_equal.
  apply IH. lia.
Qed.

Lemma c_str_split s p :
  p <= strlen s -> c_str s = take p s ++ c_str (drop p s).
Proof.
  revert p. induction s as [|x s IH]; intros p Hp.
  - by destruct p.
  - destruct p as [|p]; [done|]. cbn [strlen] in Hp.
    destruct (is_nul x) eqn:E; [lia|].
    unfold c_str at 1. cbn [strlen]. rewrite E. cbn [take drop app]. f_equal.
    apply IH. lia.
Qed.

(** X28. The block of [main] that strips the suffix removes [.git] and
    nothing else: the stripped name of [base.git] is [base], also for an
    empty [base] and for a [base] with dots of its own, and for any name the
    stripped name is the name itself or the name without a final [.git]. *)
Theorem strip_git_suffix :
  (forall base, Forall (fun c => c <> NUL) base ->
                c_str (strip_git (base ++ lit ".git")) = base) /\
  (forall nm, c_str (strip_git nm) = c_str nm \/
              c_str nm = c_str (strip_git nm) ++ lit ".git").
Proof.
  split.
  - intros base Hb. unfold strip_git, strrchr.
    rewrite strrchr_from_app by done. cbn [strrchr_from lit list_ascii_of_string
      is_nul Ascii.eqb Bool.eqb NUL Nat.add].
    rewrite drop_app_length, strcmp_refl. cbn [Z.eqb].
    rewrite c_str_insert_nul.
    + by rewrite take_app_length.
    + rewrite strlen_no_nul.
      * rewrite length_app. cbn. lia.
      * apply Forall_app_2; [done|]. repeat constructor; done.
  - intros nm. unfold strip_git, strrchr.
    destruct (strrchr_from nm "." 0 None) as [p|] eqn:Hp; [|by left].
    destruct (Z.eqb_spec (strcmp (drop p nm) (lit ".git")) 0) as [Hz|]; [|by left].
    right. apply strrchr_from_bound in Hp as [|Hp]; [done|].
    rewrite c_str_insert_nul by lia.
    rewrite (c_str_split nm p) by lia. f_equal.
    by apply strcmp_zero in Hz.
Qed.

Lemma fgets_line_length n : forall s, length (fgets_line n s) <= n.
Proof.
  induction n as [|n IH]; intros [|c s]; cbn [fgets_line length]; try lia.
  destruct (Ascii.eqb c "010"); cbn [length]; [lia|].
  specialize (IH s). lia.
Qed.

Lemma first_line_length size content : length (first_line size content) <= size - 1.
Proof.
  unfold first_line, fgets. destruct content; [cbn; lia|]. apply fgets_line_length.
Qed.

Lemma strcspn_nl_no_newline s :
  Forall (fun c => c <> "010"%char) (take (strcspn_nl s) s).
Proof.
  induction s as [|c s IH]; [constructor|]. cbn [strcspn_nl].
  destruct (is_nul c); [constructor|]. cbn [orb].
  destruct (Ascii.eqb_spec c "010"); [constructor|].
  cbn [take]. by constructor.
Qed.

(** X29. When [main] returns 0 the variables of the program are: the name,
    the last component of the repository path; the stripped name; the
    description, the first line of [description] or else of
    [.git/description] under the repository path, with its newline and cut
    to 254 bytes; the clone URL, the first line of [url] or else of
    [.git/url], cut before its newline; and the two flags, set when HEAD
    has a [README] and a [LICENSE].  The files are looked up with a slash
    after the repository path, whether or not the path ends in one.  The
    writers of the pages change none of these. *)
Theorem main_sets_variables (lc : libc) (cfg : config)
    (git_tree_entries : git_tree -> git_tree_data)
    (git_repository_open_ext : list ascii -> Z -> Z * git_repository)
    (giterr_last : git_error)
    (git_revparse_single : git_repository -> list ascii -> option git_oid)
    (argv : list (list ascii)) (stderr e : FILE) (st st' : state)
    (Hret : main lc cfg git_tree_entries git_repository_open_ext giterr_last
              git_revparse_single argv stderr st = Returned (e, 0%Z) st') :
  let repodir := nth 1 argv [] in
  let repo := (git_repository_open_ext repodir GIT_REPOSITORY_OPEN_NO_SEARCH).2 in
  name st' = xbasename repodir /\
  stripped_name st' = strip_git (xbasename repodir) /\
  description st' = description_read repodir st /\
  cloneurl st' = cloneurl_read repodir st /\
  hasreadme st' = bool_decide (is_Some (git_revparse_single repo (lit "HEAD:README"))) /\
  haslicense st' = bool_decide (is_Some (git_revparse_single repo (lit "HEAD:LICENSE"))) /\
  (is_Some (read_either repodir (lit "description") (lit ".git/description") st) ->
   length (description st') <= 254) /\
  (is_Some (read_either repodir (lit "url") (lit ".git/url") st) ->
   Forall (fun c => c <> "010"%char) (c_str (cloneurl st'))).
Proof.
  cbv zeta.
  pose proof (main_cases lc cfg git_tree_entries git_repository_open_ext giterr_last
                git_revparse_single argv stderr st) as H. cbv zeta in H.
  destruct H
    as [(Hl & H)|[(Hl & Hs & H)|[(Hl & Hs & Hh & H)|(Hl & Hs & head & Hh & H)]]];
    rewrite H in Hret; try (injection Hret as _ Hz _; lia); try done.
  match type of Hret with
  | context [main_setup ?a ?b ?c ?d] =>
      pose proof (main_pages_part lc cfg git_tree_entries b head stderr
                    (main_setup a b c d)) as Hp
  end.
  match type of Hret with
  | ?x = _ => destruct x as [r st1|n]; [|done]
  end.
  injection Hret as -> ->. destruct Hp as (_ & [_ Hm] & _).
  unfold meta_of, main_setup in Hm.
  cbn [name stripped_name description cloneurl hasreadme haslicense] in Hm.
  injection Hm as Hn Hsn Hd Hc Hr Hlic.
  repeat split; try done.
  - intros [content Hc']. rewrite Hd. unfold description_read. rewrite Hc'.
    apply (first_line_length 255).
  - intros [content Hc']. rewrite Hc. unfold cloneurl_read. rewrite Hc'.
    unfold c_str. apply Forall_take, strcspn_nl_no_newline.
Qed.

Lemma main_sets_variables_witness :
  name st_main = lit "stagit.git" /\
  c_str (stripped_name st_main) = lit "stagit" /\
  description st_main = lit "static pages" ++ NL /\
  cloneurl st_main = lit "git://example.org/stagit" /\
  hasreadme st_main = true /\
  haslicense st_main = false.
Proof.
  pose proof (main_sets_variables libc0 cfg0 tree0 open0 giterr0 revparse0 argv0
                blank blank st_repo st_main) as H.
  cbv zeta in H.
  destruct H as (Hn & Hs & Hd & Hc & Hr & Hl & _).
  { vm_cast_no_check (eq_refl (Returned (blank, 0%Z) st_main)). }
  rewrite Hn, Hs, Hd, Hc, Hr, Hl. vm_compute. repeat split.
Defined.

(** ** printshowfile: the diff *)

(** X30. In the page of a commit the diff stops at the first delta whose
    patch cannot be built: the deltas after it leave no trace.  For a delta
    flagged as binary only the header line and the notice are written: its
    hunks never reach the page. *)
Theorem printshowfile_deltas_stop :
  (forall rp ps rest fp,
      printshowfile_deltas rp (ps ++ None :: rest) fp
      = printshowfile_deltas rp ps fp) /\
  (forall rp d hs hs' rest fp,
      Z.land (flags d) GIT_DIFF_FLAG_BINARY <> 0%Z ->
      printshowfile_deltas rp (Some (mkPatch d hs) :: rest) fp
      = printshowfile_deltas rp (Some (mkPatch d hs') :: rest) fp).
Proof.
  split.
  - intros rp ps rest. induction ps as [|[p|] ps IH]; intros fp; cbn [app].
    + reflexivity.
    + cbn [printshowfile_deltas].
      destruct (negb (Z.land (flags (patch_delta p)) GIT_DIFF_FLAG_BINARY =? 0)%Z);
        apply IH.
    + reflexivity.
  - intros rp d hs hs' rest fp Hb. cbn [printshowfile_deltas patch_delta].
    by destruct (Z.eqb_spec (Z.land (flags d) GIT_DIFF_FLAG_BINARY) 0).
Qed.
